(** * Inventory management backend: repositories, access control and API

    A shallow embedding of the Python backend (FastAPI + SQLAlchemy):

    - [app/models]        the two entities, [User] and [Product];
    - [app/repositories]  [BaseRepository] and its two specialisations;
    - [app/api/deps.py]   the chain of access-control dependencies and
                          [PaginationParams];
    - [app/api/endpoints] the handlers of the three routers.

    The relational store is a pair of tables, each a list of rows in storage
    order.  What the engine alone decides is outside the model: a violated
    NOT NULL or UNIQUE constraint, the width of an integer column, the
    collation of text.  The clock and the password salt are inputs of each
    request ([Env]); bcrypt and the JWT codec are parameters
    ([Services]), and so is the validator of e-mail addresses. *)

From Stdlib Require Import ZArith QArith Qround Lqa Ascii String.
From stdpp Require Import base decidable option list strings sorting.

Local Close Scope Q_scope.
Local Open Scope string_scope.
Local Open Scope list_scope.
Local Open Scope Z_scope.

(** ** Python values *)

(** The values a mapped column can hold.  A [datetime] is kept as a number
    of microseconds; a Python [float] as the rational it denotes (NaN and
    the infinities are left out). *)
Inductive value : Type :=
  | VNone
  | VBool (b : bool)
  | VInt (n : Z)
  | VFloat (q : Q)
  | VStr (s : string)
  | VTime (t : Z).

(** Lifting a nullable column. *)
Definition nullable {A} (inj : A → value) (o : option A) : value :=
  match o with
  | Some a => inj a
  | None => VNone
  end.

(** Python truthiness, for the two kinds of object the handlers test:
    [if search:] on an optional string, [if not user.is_active] on a
    nullable boolean. *)
Definition truthy_str (o : option string) : bool :=
  match o with
  | Some s => negb (String.eqb s "")
  | None => false
  end.

Definition falsy_str (o : option string) : bool := negb (truthy_str o).

Definition truthy_bool (o : option bool) : bool :=
  match o with
  | Some b => b
  | None => false
  end.

(** [str.lower()].  Only the letters A-Z are mapped: no other code point
    lowers to one of the letters of "desc", the one word [lower] is
    compared with. *)
Definition lower_ascii (c : ascii) : ascii :=
  let n := N_of_ascii c in
  if ((65 <=? n) && (n <=? 90))%N then ascii_of_N (n + 32) else c.

Fixpoint lower (s : string) : string :=
  match s with
  | EmptyString => EmptyString
  | String c s' => String (lower_ascii c) (lower s')
  end.

(** ** Ordering of column values

    [ORDER BY] compares the values of one column, so two keys have the same
    constructor unless one is NULL.  NULL is taken as the least value (the
    placement SQLite uses; it is the engine's choice).  Across constructors
    the order is by rank, which only serves totality. *)
Definition value_rank (v : value) : nat :=
  match v with
  | VNone => 0
  | VBool _ => 1
  | VInt _ => 2
  | VFloat _ => 3
  | VStr _ => 4
  | VTime _ => 5
  end%nat.

Definition value_leb (a b : value) : bool :=
  match a, b with
  | VNone, _ => true
  | VBool x, VBool y => implb x y
  | VInt x, VInt y => (x <=? y)%Z
  | VFloat x, VFloat y => Qle_bool x y
  | VStr x, VStr y => String.leb x y
  | VTime x, VTime y => (x <=? y)%Z
  | _, _ => (value_rank a <? value_rank b)%nat
  end.

Definition value_le (a b : value) : Prop := value_leb a b = true.

Global Instance value_le_dec : RelDecision value_le.
Proof. intros a b. unfold value_le. apply _. Defined.

(** ** SQL [LIKE]

    [%] matches any run of characters and [_] any single one; [ilike]
    compares without regard to letter case.  A NULL operand makes the
    comparison NULL, which a [WHERE] clause treats as false. *)
Fixpoint like_match (pat : list ascii) : list ascii → bool :=
  match pat with
  | [] => λ s, match s with [] => true | _ :: _ => false end
  | c :: pat' =>
      if Ascii.eqb c "%"%char then
        fix star (s : list ascii) : bool :=
          like_match pat' s
          || match s with
             | [] => false
             | _ :: s' => star s'
             end
      else
        λ s, match s with
             | [] => false
             | d :: s' => (Ascii.eqb c "_"%char || Ascii.eqb c d) && like_match pat' s'
             end
  end.

Definition ilike (column : option string) (pattern : string) : bool :=
  match column with
  | Some s =>
      like_match (list_ascii_of_string (lower pattern))
                 (list_ascii_of_string (lower s))
  | None => false
  end.

(** Equality of two column values as the unit of work tests it when it
    decides whether an attribute has a net change. *)
Definition value_eqb (a b : value) : bool :=
  match a, b with
  | VNone, VNone => true
  | VBool x, VBool y => Bool.eqb x y
  | VInt x, VInt y => (x =? y)%Z
  | VFloat x, VFloat y => Qeq_bool x y
  | VStr x, VStr y => String.eqb x y
  | VTime x, VTime y => (x =? y)%Z
  | _, _ => false
  end.

(** Lookup in a Python dict kept as a list of items. *)
Definition assoc {A} (k : string) (d : list (string * A)) : option A :=
  snd <$> (snd <$> list_find (λ kv, kv.1 = k) d).
Global Arguments assoc : simpl never.

(** ** Models ([app/models])

    What [BaseRepository] needs of a mapped class.  [columns] names its
    mapped columns and [dict] lists them with their values, as [Base.dict]
    does.  [other_attributes] names what else the class declares: its
    relationship, properties and methods, and [__tablename__].  What the
    class inherits is not listed here: it is the [inherited_attributes]
    of the libraries. *)
Class Model (M : Type) := {
  model_id : M → Z;
  columns : list string;
  other_attributes : list string;
  dict : M → list (string * value);
  (** keyword arguments of the constructor; the store supplies the primary
      key and the two timestamps *)
  init : Type;
  new : init → Z → Z → M;
  (** an item of an update dict: a key with a value of the type its column
      has *)
  item : Type;
  item_key : item → string;
  item_value : item → value;
  setattr : M → item → M;
  (** [onupdate=datetime.utcnow] of [updated_at] *)
  onupdate : Z → M → M;
}.

Definition getattr `{Model M} (obj : M) (name : string) : option value :=
  assoc name (dict obj).

(** [hasattr(db_obj, field)], asked of the keys of an update: these are
    names of columns, or ["password"], and none of them is inherited. *)
Definition hasattr `{Model M} (obj : M) (name : string) : bool :=
  bool_decide (name ∈ columns ++ other_attributes).

Module User.

Record t : Type := mk {
  id : Z;
  created_at : Z;
  updated_at : Z;
  email : string;
  username : string;
  hashed_password : string;
  full_name : option string;
  is_active : option bool;
  is_superuser : option bool;
}.

Record kwargs : Type := mk_kwargs {
  kw_email : string;
  kw_username : string;
  kw_hashed_password : string;
  kw_full_name : option string;
  kw_is_active : option bool;
  kw_is_superuser : option bool;
}.

Definition new (k : kwargs) (new_id now : Z) : t :=
  {| id := new_id; created_at := now; updated_at := now;
     email := kw_email k; username := kw_username k;
     hashed_password := kw_hashed_password k; full_name := kw_full_name k;
     is_active := kw_is_active k; is_superuser := kw_is_superuser k |}.

Definition columns : list string :=
  [ "id"; "created_at"; "updated_at"; "email"; "username";
    "hashed_password"; "full_name"; "is_active"; "is_superuser" ].

Definition other_attributes : list string :=
  [ "products"; "dict"; "__repr__"; "__tablename__" ].

Definition dict (u : t) : list (string * value) :=
  [ ("id", VInt (id u));
    ("created_at", VTime (created_at u));
    ("updated_at", VTime (updated_at u));
    ("email", VStr (email u));
    ("username", VStr (username u));
    ("hashed_password", VStr (hashed_password u));
    ("full_name", nullable VStr (full_name u));
    ("is_active", nullable VBool (is_active u));
    ("is_superuser", nullable VBool (is_superuser u)) ].

Definition with_updated_at (v : Z) (u : t) : t :=
  {| id := id u; created_at := created_at u; updated_at := v;
     email := email u; username := username u;
     hashed_password := hashed_password u; full_name := full_name u;
     is_active := is_active u; is_superuser := is_superuser u |}.

Definition with_email (v : string) (u : t) : t :=
  {| id := id u; created_at := created_at u; updated_at := updated_at u;
     email := v; username := username u;
     hashed_password := hashed_password u; full_name := full_name u;
     is_active := is_active u; is_superuser := is_superuser u |}.

Definition with_username (v : string) (u : t) : t :=
  {| id := id u; created_at := created_at u; updated_at := updated_at u;
     email := email u; username := v;
     hashed_password := hashed_password u; full_name := full_name u;
     is_active := is_active u; is_superuser := is_superuser u |}.

Definition with_hashed_password (v : string) (u : t) : t :=
  {| id := id u; created_at := created_at u; updated_at := updated_at u;
     email := email u; username := username u;
     hashed_password := v; full_name := full_name u;
     is_active := is_active u; is_superuser := is_superuser u |}.

Definition with_full_name (v : option string) (u : t) : t :=
  {| id := id u; created_at := created_at u; updated_at := updated_at u;
     email := email u; username := username u;
     hashed_password := hashed_password u; full_name := v;
     is_active := is_active u; is_superuser := is_superuser u |}.

Definition with_is_active (v : option bool) (u : t) : t :=
  {| id := id u; created_at := created_at u; updated_at := updated_at u;
     email := email u; username := username u;
     hashed_password := hashed_password u; full_name := full_name u;
     is_active := v; is_superuser := is_superuser u |}.

(** The items [UserUpdate.model_dump] can produce, and the one
    [UserRepository.update] puts in place of the password. *)
Inductive item : Type :=
  | Email (v : string)
  | Username (v : string)
  | FullName (v : option string)
  | Password (v : string)
  | IsActive (v : option bool)
  | HashedPassword (v : string).

Definition item_key (i : item) : string :=
  match i with
  | Email _ => "email"
  | Username _ => "username"
  | FullName _ => "full_name"
  | Password _ => "password"
  | IsActive _ => "is_active"
  | HashedPassword _ => "hashed_password"
  end.

Definition item_value (i : item) : value :=
  match i with
  | Email v | Username v | Password v | HashedPassword v => VStr v
  | FullName v => nullable VStr v
  | IsActive v => nullable VBool v
  end.

(** [setattr(db_obj, field, value)].  ["password"] names no column;
    [BaseRepository.update] never assigns it. *)
Definition setattr (u : t) (i : item) : t :=
  match i with
  | Email v => with_email v u
  | Username v => with_username v u
  | FullName v => with_full_name v u
  | Password _ => u
  | IsActive v => with_is_active v u
  | HashedPassword v => with_hashed_password v u
  end.

End User.

Global Instance User_Model : Model User.t := {|
  model_id := User.id;
  columns := User.columns;
  other_attributes := User.other_attributes;
  dict := User.dict;
  init := User.kwargs;
  new := User.new;
  item := User.item;
  item_key := User.item_key;
  item_value := User.item_value;
  setattr := User.setattr;
  onupdate := User.with_updated_at;
|}.

Module Product.

Record t : Type := mk {
  id : Z;
  created_at : Z;
  updated_at : Z;
  name : string;
  description : option string;
  sku : string;
  price : Q;
  quantity : Z;
  image_url : option string;
  category : option string;
  min_stock : option Z;
  user_id : Z;
}.

Record kwargs : Type := mk_kwargs {
  kw_name : string;
  kw_description : option string;
  kw_sku : string;
  kw_price : Q;
  kw_quantity : Z;
  kw_image_url : option string;
  kw_category : option string;
  kw_min_stock : option Z;
  kw_user_id : Z;
}.

Definition new (k : kwargs) (new_id now : Z) : t :=
  {| id := new_id; created_at := now; updated_at := now;
     name := kw_name k; description := kw_description k; sku := kw_sku k;
     price := kw_price k; quantity := kw_quantity k;
     image_url := kw_image_url k; category := kw_category k;
     min_stock := kw_min_stock k; user_id := kw_user_id k |}.

Definition columns : list string :=
  [ "id"; "created_at"; "updated_at"; "name"; "description"; "sku";
    "price"; "quantity"; "image_url"; "category"; "min_stock"; "user_id" ].

Definition other_attributes : list string :=
  [ "created_by"; "is_low_stock"; "total_value"; "dict"; "__repr__";
    "__tablename__" ].

Definition dict (p : t) : list (string * value) :=
  [ ("id", VInt (id p));
    ("created_at", VTime (created_at p));
    ("updated_at", VTime (updated_at p));
    ("name", VStr (name p));
    ("description", nullable VStr (description p));
    ("sku", VStr (sku p));
    ("price", VFloat (price p));
    ("quantity", VInt (quantity p));
    ("image_url", nullable VStr (image_url p));
    ("category", nullable VStr (category p));
    ("min_stock", nullable VInt (min_stock p));
    ("user_id", VInt (user_id p)) ].

Definition with_updated_at (v : Z) (p : t) : t :=
  {| id := id p; created_at := created_at p; updated_at := v;
     name := name p; description := description p; sku := sku p;
     price := price p; quantity := quantity p; image_url := image_url p;
     category := category p; min_stock := min_stock p; user_id := user_id p |}.

Definition with_name (v : string) (p : t) : t :=
  {| id := id p; created_at := created_at p; updated_at := updated_at p;
     name := v; description := description p; sku := sku p;
     price := price p; quantity := quantity p; image_url := image_url p;
     category := category p; min_stock := min_stock p; user_id := user_id p |}.

Definition with_description (v : option string) (p : t) : t :=
  {| id := id p; created_at := created_at p; updated_at := updated_at p;
     name := name p; description := v; sku := sku p;
     price := price p; quantity := quantity p; image_url := image_url p;
     category := category p; min_stock := min_stock p; user_id := user_id p |}.

Definition with_sku (v : string) (p : t) : t :=
  {| id := id p; created_at := created_at p; updated_at := updated_at p;
     name := name p; description := description p; sku := v;
     price := price p; quantity := quantity p; image_url := image_url p;
     category := category p; min_stock := min_stock p; user_id := user_id p |}.

Definition with_price (v : Q) (p : t) : t :=
  {| id := id p; created_at := created_at p; updated_at := updated_at p;
     name := name p; description := description p; sku := sku p;
     price := v; quantity := quantity p; image_url := image_url p;
     category := category p; min_stock := min_stock p; user_id := user_id p |}.

Definition with_quantity (v : Z) (p : t) : t :=
  {| id := id p; created_at := created_at p; updated_at := updated_at p;
     name := name p; description := description p; sku := sku p;
     price := price p; quantity := v; image_url := image_url p;
     category := category p; min_stock := min_stock p; user_id := user_id p |}.

Definition with_image_url (v : option string) (p : t) : t :=
  {| id := id p; created_at := created_at p; updated_at := updated_at p;
     name := name p; description := description p; sku := sku p;
     price := price p; quantity := quantity p; image_url := v;
     category := category p; min_stock := min_stock p; user_id := user_id p |}.

Definition with_category (v : option string) (p : t) : t :=
  {| id := id p; created_at := created_at p; updated_at := updated_at p;
     name := name p; description := description p; sku := sku p;
     price := price p; quantity := quantity p; image_url := image_url p;
     category := v; min_stock := min_stock p; user_id := user_id p |}.

Definition with_min_stock (v : option Z) (p : t) : t :=
  {| id := id p; created_at := created_at p; updated_at := updated_at p;
     name := name p; description := description p; sku := sku p;
     price := price p; quantity := quantity p; image_url := image_url p;
     category := category p; min_stock := v; user_id := user_id p |}.

(** The items [ProductUpdate.model_dump] can produce. *)
Inductive item : Type :=
  | Name (v : string)
  | Description (v : option string)
  | Sku (v : string)
  | Price (v : Q)
  | Quantity (v : Z)
  | ImageUrl (v : option string)
  | Category (v : option string)
  | MinStock (v : option Z).

Definition item_key (i : item) : string :=
  match i with
  | Name _ => "name"
  | Description _ => "description"
  | Sku _ => "sku"
  | Price _ => "price"
  | Quantity _ => "quantity"
  | ImageUrl _ => "image_url"
  | Category _ => "category"
  | MinStock _ => "min_stock"
  end.

Definition item_value (i : item) : value :=
  match i with
  | Name v | Sku v => VStr v
  | Description v | ImageUrl v | Category v => nullable VStr v
  | Price v => VFloat v
  | Quantity v => VInt v
  | MinStock v => nullable VInt v
  end.

Definition setattr (p : t) (i : item) : t :=
  match i with
  | Name v => with_name v p
  | Description v => with_description v p
  | Sku v => with_sku v p
  | Price v => with_price v p
  | Quantity v => with_quantity v p
  | ImageUrl v => with_image_url v p
  | Category v => with_category v p
  | MinStock v => with_min_stock v p
  end.

(** The two properties of the class.  [quantity <= min_stock] raises
    [TypeError] when the threshold is [None]: the flag then has no
    value. *)
Definition is_low_stock (p : t) : option bool :=
  m ← min_stock p; Some (quantity p <=? m)%Z.

Definition total_value (p : t) : Q :=
  (price p * inject_Z (quantity p))%Q.

End Product.

Global Instance Product_Model : Model Product.t := {|
  model_id := Product.id;
  columns := Product.columns;
  other_attributes := Product.other_attributes;
  dict := Product.dict;
  init := Product.kwargs;
  new := Product.new;
  item := Product.item;
  item_key := Product.item_key;
  item_value := Product.item_value;
  setattr := Product.setattr;
  onupdate := Product.with_updated_at;
|}.

(** ** What the code takes from its libraries

    The credential service ([app/core/security.py] over passlib and
    python-jose): [jwt_decode] is [None] on a [JWTError] and otherwise the
    ["sub"] member of the payload, if any.

    From the interpreter and the ORM: [inherited_attributes] names what
    [getattr] finds on a mapped class besides its columns and the other
    attributes the class declares, and that counts as true in a
    condition: what the class inherits from [object] and from the
    declarative base ([metadata], [registry], [__init__], [__doc__] and
    so on; the list depends on the versions of both).  [round_tie_up]
    tells which way [round(x, 2)] goes when [x] lies half-way between two
    hundredths: Python rounds the binary value of the float, which a
    decimal such as 0.015 only approximates, from above or from below. *)
Class Services := {
  get_password_hash : string → string → string;
  verify_password : string → string → bool;
  jwt_encode : string → Z → string;
  jwt_decode : Z → string → option (option string);
  inherited_attributes : list string;
  round_tie_up : Q → bool;
}.

(** ** Schemas ([app/schemas])

    A schema value is a request body; [model_validate] applies the
    defaults, constraints and validators of its fields, and is [None]
    when the body is refused (a 422 response).  In an update schema a
    field is unset ([None]) or set; a field of a nullable column can be
    set to null ([Some None]).  A field of a NOT NULL column, and the
    password, is unset or a value: an explicit null there makes the
    commit, or the hashing, raise, which is outside the model. *)

(** [min_length] and [max_length] of a string field. *)
Definition length_between (lo hi : nat) (s : string) : bool :=
  ((lo <=? String.length s) && (String.length s <=? hi))%nat.

(** A constraint on a field that may be unset. *)
Definition if_set {A} (check : A → bool) (o : option A) : bool :=
  match o with
  | Some a => check a
  | None => true
  end.

(** [round(x, 2)] on the rational model of a float: to the nearest
    hundredth; half-way between two hundredths the direction is the one
    [round_tie_up] gives for [x]. *)
Definition round_half (up : bool) (q : Q) : Z :=
  let f := Qfloor q in
  let r := (q - inject_Z f)%Q in
  match (r ?= 1 # 2)%Q with
  | Lt => f
  | Gt => f + 1
  | Eq => if up then f + 1 else f
  end.

Definition round2 `{Services} (x : Q) : Q :=
  (inject_Z (round_half (round_tie_up x) (x * 100)) / 100)%Q.

Module UserCreate.

Record t : Type := mk {
  email : string;
  username : string;
  full_name : option string;
  is_active : bool;
  is_superuser : bool;
  password : string;
}.

(** The JSON body of a registration: the optional members may be
    absent. *)
Record body : Type := mk_body {
  body_email : string;
  body_username : string;
  body_full_name : option string;
  body_is_active : option bool;
  body_is_superuser : option bool;
  body_password : string;
}.

Section validate.
(** [EmailStr]: the email-validator package accepts and normalises an
    address, or refuses it. *)
Variable validate_email : string → option string.

(** Field defaults and constraints of [UserBase] and [UserCreate];
    [None] is a 422 response. *)
Definition model_validate (b : body) : option t :=
  e ← validate_email (body_email b);
  if length_between 3 50 (body_username b)
     && (8 <=? String.length (body_password b))%nat
  then Some {| email := e;
               username := body_username b;
               full_name := body_full_name b;
               is_active := default true (body_is_active b);
               is_superuser := default false (body_is_superuser b);
               password := body_password b |}
  else None.
End validate.

End UserCreate.

Module UserUpdate.

Record t : Type := mk {
  email : option string;
  username : option string;
  full_name : option (option string);
  password : option string;
  is_active : option (option bool);
}.

Section validate.
Variable validate_email : string → option string.

(** The constraints of the fields that are set. *)
Definition model_validate (u : t) : option t :=
  e ← match email u with
      | Some e => Some <$> validate_email e
      | None => Some None
      end;
  if if_set (length_between 3 50) (username u)
     && if_set (λ p, (8 <=? String.length p)%nat) (password u)
  then Some {| email := e;
               username := username u;
               full_name := full_name u;
               password := password u;
               is_active := is_active u |}
  else None.
End validate.

(** [model_dump(exclude_unset=True)]: the fields that were set, in the
    order of their declaration. *)
Definition model_dump (u : t) : list User.item :=
  option_list (User.Email <$> email u)
  ++ option_list (User.Username <$> username u)
  ++ option_list (User.FullName <$> full_name u)
  ++ option_list (User.Password <$> password u)
  ++ option_list (User.IsActive <$> is_active u).

End UserUpdate.

Module ProductCreate.

Record t : Type := mk {
  name : string;
  description : option string;
  sku : string;
  price : Q;
  quantity : Z;
  image_url : option string;
  category : option string;
  min_stock : Z;
}.

(** The constraints of [ProductBase], then [validate_price].  (A body
    without [min_stock] comes with its default, 0.) *)
Definition model_validate `{Services} (p : t) : option t :=
  if length_between 1 200 (name p)
     && length_between 1 100 (sku p)
     && negb (Qle_bool (price p) 0)
     && (0 <=? quantity p)
     && (0 <=? min_stock p)
  then Some {| name := name p;
               description := description p;
               sku := sku p;
               price := round2 (price p);
               quantity := quantity p;
               image_url := image_url p;
               category := category p;
               min_stock := min_stock p |}
  else None.

(** [obj_in.model_dump()] extended with the keyword [user_id]. *)
Definition obj_data (p : t) (user_id : Z) : Product.kwargs :=
  {| Product.kw_name := name p;
     Product.kw_description := description p;
     Product.kw_sku := sku p;
     Product.kw_price := price p;
     Product.kw_quantity := quantity p;
     Product.kw_image_url := image_url p;
     Product.kw_category := category p;
     Product.kw_min_stock := Some (min_stock p);
     Product.kw_user_id := user_id |}.

End ProductCreate.

Module ProductUpdate.

Record t : Type := mk {
  name : option string;
  description : option (option string);
  sku : option string;
  price : option Q;
  quantity : option Z;
  image_url : option (option string);
  category : option (option string);
  min_stock : option (option Z);
}.

(** The constraints of the fields that are set, then [validate_price]. *)
Definition model_validate `{Services} (p : t) : option t :=
  if if_set (length_between 1 200) (name p)
     && if_set (length_between 1 100) (sku p)
     && if_set (λ v, negb (Qle_bool v 0)) (price p)
     && if_set (λ v, 0 <=? v) (quantity p)
     && if_set (if_set (λ v, 0 <=? v)) (min_stock p)
  then Some {| name := name p;
               description := description p;
               sku := sku p;
               price := round2 <$> price p;
               quantity := quantity p;
               image_url := image_url p;
               category := category p;
               min_stock := min_stock p |}
  else None.

Definition model_dump (p : t) : list Product.item :=
  option_list (Product.Name <$> name p)
  ++ option_list (Product.Description <$> description p)
  ++ option_list (Product.Sku <$> sku p)
  ++ option_list (Product.Price <$> price p)
  ++ option_list (Product.Quantity <$> quantity p)
  ++ option_list (Product.ImageUrl <$> image_url p)
  ++ option_list (Product.Category <$> category p)
  ++ option_list (Product.MinStock <$> min_stock p).

End ProductUpdate.

(** The schemas of the responses.  A row is rendered through the schema
    of its class, which validates it ([from_attributes]); [model_validate]
    tells whether the row passes.  A nullable column that holds NULL
    fails a field that is not optional; so does the property
    [is_low_stock], which raises without a threshold. *)
Module UserInDBBase.
Section validate.
Variable validate_email : string → option string.

(** [email: EmailStr], [username] of 3 to 50 characters, [is_active] and
    [is_superuser] of type [bool]. *)
Definition model_validate (u : User.t) : bool :=
  bool_decide (is_Some (validate_email (User.email u)))
  && length_between 3 50 (User.username u)
  && bool_decide (is_Some (User.is_active u))
  && bool_decide (is_Some (User.is_superuser u)).
End validate.
End UserInDBBase.

Module ProductInDBBase.

(** The constraints of [ProductBase] on a stored row: [price] above
    zero, [quantity] and [min_stock] integers that are not negative. *)
Definition model_validate (p : Product.t) : bool :=
  length_between 1 200 (Product.name p)
  && length_between 1 100 (Product.sku p)
  && negb (Qle_bool (Product.price p) 0)
  && (0 <=? Product.quantity p)
  && match Product.min_stock p with
     | Some m => 0 <=? m
     | None => false
     end.

End ProductInDBBase.

Module ProductList.
Record t : Type := mk {
  items : list Product.t;
  total : Z;
  page : Z;
  size : Z;
  pages : Z;
}.

(** [ProductList(items=..., ...)]: every item is validated as a
    [Product]; [None] when one is refused and the constructor raises. *)
Definition init (items : list Product.t) (total page size pages : Z)
    : option t :=
  if forallb ProductInDBBase.model_validate items
  then Some {| items := items; total := total; page := page; size := size;
               pages := pages |}
  else None.
End ProductList.

(** The schema parameters of [BaseRepository[ModelType, CreateSchemaType,
    UpdateSchemaType]]. *)
Class CreateSchema (M : Type) `{Model M} := {
  CreateSchemaType : Type;
  kwargs : Type;
  obj_data : CreateSchemaType → kwargs → init;
}.

Class UpdateSchema (M : Type) `{Model M} := {
  UpdateSchemaType : Type;
  model_dump : UpdateSchemaType → list item;
}.

Global Instance Product_CreateSchema : @CreateSchema Product.t Product_Model := {|
  CreateSchemaType := ProductCreate.t;
  kwargs := Z;
  obj_data := ProductCreate.obj_data;
|}.

Global Instance Product_UpdateSchema : @UpdateSchema Product.t Product_Model := {|
  UpdateSchemaType := ProductUpdate.t;
  model_dump := ProductUpdate.model_dump;
|}.

Global Instance User_UpdateSchema : @UpdateSchema User.t User_Model := {|
  UpdateSchemaType := UserUpdate.t;
  model_dump := UserUpdate.model_dump : UserUpdate.t → list (@item User.t User_Model);
|}.

(** ** The generic repository ([app/repositories/base.py])

    [BaseRepository] over one table.  The order in which an engine
    returns rows it was not asked to sort is its own; the model takes the
    storage order. *)
Module BaseRepository.
Section repository.
Context `{Model M} `{Services}.
Implicit Types (table : list M) (db_obj : M).

(** [db.query(self.model).filter(self.model.id == id).first()] *)
Definition get table (id : Z) : option M :=
  snd <$> list_find (λ r, model_id r = id) table.

Definition order_key (order_by : string) (r : M) : value :=
  default VNone (getattr r order_by).

Definition asc (order_by : string) : relation M :=
  λ a b, value_le (order_key order_by a) (order_key order_by b).

Definition desc (order_by : string) : relation M := flip (asc order_by).

Global Instance asc_dec order_by : RelDecision (asc order_by).
Proof. intros a b. unfold asc. apply _. Defined.

Global Instance desc_dec order_by : RelDecision (desc order_by).
Proof. intros a b. unfold desc, flip. apply _. Defined.

(** [query.offset(skip).limit(limit).all()], as SQLite reads it: a
    negative offset counts as zero, and a negative limit is no limit.
    (The handlers pass the [skip] and [limit] of [PaginationParams], which
    are not negative.) *)
Definition page (skip limit : Z) (query : list M) : list M :=
  let rows := drop (Z.to_nat skip) query in
  if limit <? 0 then rows else take (Z.to_nat limit) rows.

(** [getattr(self.model, order_by, None)] is a column, another attribute
    of the class, declared or inherited, or [None].  [asc] and [desc]
    order by a column; given anything else that is true in a condition (a
    property, a method, a relationship, a string, the [metadata]) the ORM
    raises, and [get_multi] has no result. *)
Definition get_multi table (skip limit : Z) (order_by : option string)
    (order_direction : string) : option (list M) :=
  query ←
    match order_by with
    | Some field =>
        if truthy_str order_by then
          if bool_decide (field ∈ columns) then
            if String.eqb (lower order_direction) "desc"
            then Some (merge_sort (desc field) table)
            else Some (merge_sort (asc field) table)
          else if bool_decide (field ∈ other_attributes ++ inherited_attributes)
          then None
          else Some table
        else Some table
    | None => Some table
    end;
  Some (page skip limit query).

(** The primary key of an inserted row: one more than the largest in
    use. *)
Definition next_id table : Z := 1 + foldr Z.max 0 (model_id <$> table).

Definition create `{!CreateSchema M} table (now : Z)
    (obj_in : CreateSchemaType) (kw : kwargs) : M * list M :=
  let db_obj := new (obj_data obj_in kw) (next_id table) now in
  (db_obj, table ++ [db_obj]).

(** [db.add(db_obj); db.commit(); db.refresh(db_obj)] on an object that
    was loaded as [loaded] and has since been assigned to.  Without a
    net change no UPDATE is emitted; with one, [updated_at] is set by
    its [onupdate] and the row of that primary key is rewritten. *)
Definition same_row (a b : M) : bool :=
  forallb (λ xy, value_eqb xy.1.2 xy.2.2) (zip (dict a) (dict b)).

Definition commit table (now : Z) (loaded db_obj : M) : M * list M :=
  if same_row loaded db_obj then (loaded, table)
  else
    let row := onupdate now db_obj in
    (row, (λ r, if decide (model_id r = model_id loaded) then row else r) <$> table).

Definition update `{!UpdateSchema M} table (now : Z) db_obj
    (obj_in : UpdateSchemaType + list item) : M * list M :=
  let update_data :=
    match obj_in with
    | inr d => d
    | inl schema => model_dump schema
    end in
  let assigned :=
    foldl (λ obj i, if hasattr obj (item_key i) then setattr obj i else obj)
          db_obj update_data in
  commit table now db_obj assigned.

Definition remove table (id : Z) : option M * list M :=
  match get table id with
  | Some obj => (Some obj, filter (λ r, model_id r ≠ model_id obj) table)
  | None => (None, table)
  end.

Definition count table : Z := Z.of_nat (length table).

End repository.
End BaseRepository.

(** ** The store *)

(** The two tables.  Every request runs on a session of its own, so the
    state a handler sees is the committed state of the store. *)
Record DB : Type := mk_DB {
  users : list User.t;
  products : list Product.t;
}.

Definition with_users (t : list User.t) (db : DB) : DB :=
  {| users := t; products := products db |}.

Definition with_products (t : list Product.t) (db : DB) : DB :=
  {| users := users db; products := t |}.

(** What a request reads from the outside: the clock ([datetime.utcnow],
    in microseconds) and the salt bcrypt draws. *)
Record Env : Type := mk_Env {
  now : Z;
  salt : string;
}.

Module settings.
(** [ACCESS_TOKEN_EXPIRE_MINUTES = 60 * 24 * 8], in microseconds. *)
Definition ACCESS_TOKEN_EXPIRE : Z := 60 * 24 * 8 * 60 * 1000000.
End settings.

Module security.
Definition create_access_token `{Services} (env : Env) (subject : string)
    (expires_delta : Z) : string :=
  jwt_encode subject (now env + expires_delta).
End security.

(** ** The user repository ([app/repositories/user.py]) *)
Module UserRepository.
Section repository.
Context `{Services}.

Definition get (db : DB) (id : Z) : option User.t :=
  BaseRepository.get (users db) id.

Definition get_multi (db : DB) (skip limit : Z) (order_by : option string)
    (order_direction : string) : option (list User.t) :=
  BaseRepository.get_multi (users db) skip limit order_by order_direction.

Definition count (db : DB) : Z := BaseRepository.count (users db).

(** [remove] is inherited.  The relationship [User.products] cascades
    ("all, delete-orphan"): the products of a deleted user are deleted
    with it. *)
Definition remove (db : DB) (id : Z) : option User.t * DB :=
  match BaseRepository.remove (users db) id with
  | (Some obj, table) =>
      (Some obj,
       {| users := table;
          products := filter (λ p, Product.user_id p ≠ User.id obj) (products db) |})
  | (None, _) => (None, db)
  end.

(** [db.query(User).filter(User.email == email).first()] *)
Definition get_by_email (db : DB) (email : string) : option User.t :=
  snd <$> list_find (λ u, User.email u = email) (users db).

Definition get_by_username (db : DB) (username : string) : option User.t :=
  snd <$> list_find (λ u, User.username u = username) (users db).

Definition create (db : DB) (env : Env) (obj_in : UserCreate.t)
    : User.t * DB :=
  let db_obj :=
    User.new
      {| User.kw_email := UserCreate.email obj_in;
         User.kw_username := UserCreate.username obj_in;
         User.kw_hashed_password :=
           get_password_hash (salt env) (UserCreate.password obj_in);
         User.kw_full_name := UserCreate.full_name obj_in;
         User.kw_is_active := Some (UserCreate.is_active obj_in);
         User.kw_is_superuser := Some (UserCreate.is_superuser obj_in) |}
      (BaseRepository.next_id (users db)) (now env) in
  (db_obj, with_users (users db ++ [db_obj]) db).

Definition update (db : DB) (env : Env) (db_obj : User.t)
    (obj_in : UserUpdate.t) : User.t * DB :=
  let update_data := UserUpdate.model_dump obj_in in
  let update_data :=
    match UserUpdate.password obj_in with
    | Some password =>
        let hashed_password := get_password_hash (salt env) password in
        filter (λ i, User.item_key i ≠ "password") update_data
        ++ [User.HashedPassword hashed_password]
    | None => update_data
    end in
  let '(obj, table) :=
    BaseRepository.update (users db) (now env) db_obj (inr update_data) in
  (obj, with_users table db).

Definition authenticate (db : DB) (username password : string)
    : option User.t :=
  let user := get_by_username db username in
  let user :=
    match user with
    | None => get_by_email db username
    | Some _ => user
    end in
  match user with
  | None => None
  | Some user =>
      if negb (verify_password password (User.hashed_password user))
      then None
      else Some user
  end.

Definition is_active (user : User.t) : option bool := User.is_active user.

Definition is_superuser (user : User.t) : option bool :=
  User.is_superuser user.

End repository.
End UserRepository.

(** ** The product repository ([app/repositories/product.py]) *)
Module ProductRepository.

Definition get (db : DB) (id : Z) : option Product.t :=
  BaseRepository.get (products db) id.

Definition get_multi `{Services} (db : DB) (skip limit : Z)
    (order_by : option string) (order_direction : string)
    : option (list Product.t) :=
  BaseRepository.get_multi (products db) skip limit order_by order_direction.

Definition create (db : DB) (env : Env) (obj_in : ProductCreate.t)
    (user_id : Z) : Product.t * DB :=
  let '(obj, table) :=
    BaseRepository.create (products db) (now env) obj_in user_id in
  (obj, with_products table db).

Definition update (db : DB) (env : Env) (db_obj : Product.t)
    (obj_in : ProductUpdate.t) : Product.t * DB :=
  let '(obj, table) :=
    BaseRepository.update (products db) (now env) db_obj (inl obj_in) in
  (obj, with_products table db).

Definition remove (db : DB) (id : Z) : option Product.t * DB :=
  let '(obj, table) := BaseRepository.remove (products db) id in
  (obj, with_products table db).

Definition count (db : DB) : Z := BaseRepository.count (products db).

Definition get_by_sku (db : DB) (sku : string) : option Product.t :=
  snd <$> list_find (λ p, Product.sku p = sku) (products db).

Definition get_by_user (db : DB) (user_id : Z) (skip limit : Z)
    : list Product.t :=
  BaseRepository.page skip limit
    (filter (λ p, Product.user_id p = user_id) (products db)).

Definition search_filter (query : string) (p : Product.t) : bool :=
  let pattern := ("%" ++ query ++ "%")%string in
  ilike (Some (Product.name p)) pattern
  || ilike (Product.description p) pattern
  || ilike (Some (Product.sku p)) pattern.

Definition search (db : DB) (query : string) (skip limit : Z)
    : list Product.t :=
  BaseRepository.page skip limit
    (filter (λ p, search_filter query p = true) (products db)).

Definition get_by_category (db : DB) (category : string) (skip limit : Z)
    : list Product.t :=
  BaseRepository.page skip limit
    (filter (λ p, Product.category p = Some category) (products db)).

(** [Product.quantity <= Product.min_stock] in SQL: NULL, hence not
    selected, when the threshold is NULL. *)
Definition low_stock_filter (p : Product.t) : bool :=
  match Product.min_stock p with
  | Some m => (Product.quantity p <=? m)%Z
  | None => false
  end.

Definition get_low_stock (db : DB) (skip limit : Z) : list Product.t :=
  BaseRepository.page skip limit
    (filter (λ p, low_stock_filter p = true) (products db)).

(** [SELECT DISTINCT category ... WHERE category IS NOT NULL] *)
Definition get_categories (db : DB) : list string :=
  remove_dups (omap Product.category (products db)).

Definition update_stock (db : DB) (env : Env) (product_id : Z)
    (quantity_change : Z) : option Product.t * DB :=
  match get db product_id with
  | Some product =>
      let new_quantity := Product.quantity product + quantity_change in
      let new_quantity := if (new_quantity <? 0)%Z then 0 else new_quantity in
      let '(obj, table) :=
        BaseRepository.commit (products db) (now env) product
          (Product.with_quantity new_quantity product) in
      (Some obj, with_products table db)
  | None => (None, db)
  end.

Definition get_total_value (db : DB) (user_id : option Z) : Q :=
  let query :=
    match user_id with
    | Some uid =>
        if (uid =? 0)%Z then products db
        else filter (λ p, Product.user_id p = uid) (products db)
    | None => products db
    end in
  foldl Qplus (0%Q) (Product.total_value <$> query).

End ProductRepository.

(** ** Handlers

    A handler runs against the store and either returns or raises an
    [HTTPException]; the store it leaves behind is part of its result. *)
Record HTTPException : Type := mk_HTTPException {
  status_code : Z;
  detail : string;
}.

Inductive outcome (A : Type) : Type :=
  | Return (a : A)
  | Raise (e : HTTPException).
Arguments Return {A} a.
Arguments Raise {A} e.

Definition handler (A : Type) : Type := DB → outcome A * DB.

Global Instance handler_ret : MRet handler := λ A a db, (Return a, db).

Global Instance handler_bind : MBind handler := λ A B k m db,
  match m db with
  | (Return a, db') => k a db'
  | (Raise e, db') => (Raise e, db')
  end.

Global Instance handler_throw : MThrow HTTPException handler :=
  λ A e db, (Raise e, db).

(** A repository call that reads, and one that writes. *)
Definition query {A} (f : DB → A) : handler A := λ db, (Return (f db), db).

Definition execute {A} (f : DB → A * DB) : handler A :=
  λ db, let '(a, db') := f db in (Return a, db').

(** A repository call that reads and may raise; an exception no handler
    catches is answered 500. *)
Definition attempt {A} (f : DB → option A) : handler A := λ db,
  match f db with
  | Some a => (Return a, db)
  | None => (Raise (mk_HTTPException 500 "Internal Server Error"), db)
  end.

(** [if cond: raise HTTPException(...)] *)
Definition raise_if (cond : bool) (status : Z) (msg : string) : handler unit :=
  if cond then mthrow (mk_HTTPException status msg) else mret ().

Module status.
Definition HTTP_200_OK : Z := 200.
Definition HTTP_201_CREATED : Z := 201.
Definition HTTP_204_NO_CONTENT : Z := 204.
Definition HTTP_400_BAD_REQUEST : Z := 400.
Definition HTTP_401_UNAUTHORIZED : Z := 401.
Definition HTTP_403_FORBIDDEN : Z := 403.
Definition HTTP_404_NOT_FOUND : Z := 404.
End status.

(** ** Dependencies ([app/api/deps.py]) *)
Module deps.
Section deps.
Context `{Services}.

Definition credentials_exception : HTTPException :=
  mk_HTTPException status.HTTP_401_UNAUTHORIZED "Could not validate credentials".

(** [oauth2_scheme]: the bearer token of the request, or 401. *)
Definition oauth2_scheme (authorization : option string) : handler string :=
  match authorization with
  | Some token => mret token
  | None =>
      mthrow (mk_HTTPException status.HTTP_401_UNAUTHORIZED "Not authenticated")
  end.

Definition get_current_user (env : Env) (authorization : option string)
    : handler User.t :=
  token ← oauth2_scheme authorization;
  match jwt_decode (now env) token with
  | None => mthrow credentials_exception
  | Some None => mthrow credentials_exception
  | Some (Some username) =>
      user ← query (λ db, UserRepository.get_by_username db username);
      match user with
      | None => mthrow credentials_exception
      | Some user => mret user
      end
  end.

Definition get_current_active_user (env : Env)
    (authorization : option string) : handler User.t :=
  current_user ← get_current_user env authorization;
  raise_if (negb (truthy_bool (User.is_active current_user)))
    status.HTTP_400_BAD_REQUEST "Inactive user";;
  mret current_user.

Definition get_current_active_superuser (env : Env)
    (authorization : option string) : handler User.t :=
  current_user ← get_current_active_user env authorization;
  raise_if (negb (truthy_bool (User.is_superuser current_user)))
    status.HTTP_403_FORBIDDEN "Not enough permissions";;
  mret current_user.

End deps.
End deps.

Module PaginationParams.

Record t : Type := mk {
  page : Z;
  size : Z;
  skip : Z;
  limit : Z;
  order_by : option string;
  order_direction : string;
}.

(** [__init__]; FastAPI supplies the defaults [page=1], [size=50],
    [order_direction="asc"] when the query has no such parameter. *)
Definition init (page size : Z) (order_by : option string)
    (order_direction : string) : t :=
  let page := Z.max 1 page in
  let size := Z.min 100 (Z.max 1 size) in
  {| page := page;
     size := size;
     skip := (page - 1) * size;
     limit := size;
     order_by := order_by;
     order_direction := order_direction |}.

End PaginationParams.

Module Token.
Record t : Type := mk {
  access_token : string;
  token_type : string;
}.
End Token.

(** ** Endpoints ([app/api/endpoints])

    Each handler takes what FastAPI injects: the parameters, the
    validated body, and the user a dependency resolved. *)
Module endpoints.

Module auth.
Section auth.
Context `{Services}.

Definition login (env : Env) (username password : string)
    : handler Token.t :=
  user ← query (λ db, UserRepository.authenticate db username password);
  match user with
  | None =>
      mthrow (mk_HTTPException status.HTTP_401_UNAUTHORIZED
                "Incorrect username or password")
  | Some user =>
      raise_if (negb (truthy_bool (User.is_active user)))
        status.HTTP_400_BAD_REQUEST "Inactive user";;
      let access_token_expires := settings.ACCESS_TOKEN_EXPIRE in
      let access_token :=
        security.create_access_token env (User.username user)
          access_token_expires in
      mret {| Token.access_token := access_token;
              Token.token_type := "bearer" |}
  end.

Definition register (env : Env) (user_in : UserCreate.t)
    : handler User.t :=
  user ← query (λ db,
    UserRepository.get_by_username db (UserCreate.username user_in));
  raise_if (bool_decide (is_Some user))
    status.HTTP_400_BAD_REQUEST "Username already registered";;
  user ← query (λ db,
    UserRepository.get_by_email db (UserCreate.email user_in));
  raise_if (bool_decide (is_Some user))
    status.HTTP_400_BAD_REQUEST "Email already registered";;
  execute (λ db, UserRepository.create db env user_in).

End auth.
End auth.

Module users.
Section users.
Context `{Services}.

Definition read_users_me (current_user : User.t) : handler User.t :=
  mret current_user.

Definition update_user_me (env : Env) (user_in : UserUpdate.t)
    (current_user : User.t) : handler User.t :=
  (if truthy_str (UserUpdate.email user_in)
      && bool_decide (UserUpdate.email user_in ≠ Some (User.email current_user))
   then
     existing_user ← query (λ db,
       UserRepository.get_by_email db (default "" (UserUpdate.email user_in)));
     raise_if (bool_decide (is_Some existing_user))
       status.HTTP_400_BAD_REQUEST "Email already registered"
   else mret ());;
  (if truthy_str (UserUpdate.username user_in)
      && bool_decide (UserUpdate.username user_in ≠ Some (User.username current_user))
   then
     existing_user ← query (λ db,
       UserRepository.get_by_username db (default "" (UserUpdate.username user_in)));
     raise_if (bool_decide (is_Some existing_user))
       status.HTTP_400_BAD_REQUEST "Username already registered"
   else mret ());;
  execute (λ db, UserRepository.update db env current_user user_in).

Definition read_users (pagination : PaginationParams.t)
    (current_user : User.t) : handler (list User.t) :=
  attempt (λ db,
    UserRepository.get_multi db
      (PaginationParams.skip pagination)
      (PaginationParams.limit pagination)
      (PaginationParams.order_by pagination)
      (PaginationParams.order_direction pagination)).

Definition read_user_by_id (user_id : Z) (current_user : User.t)
    : handler User.t :=
  user ← query (λ db, UserRepository.get db user_id);
  match user with
  | None =>
      mthrow (mk_HTTPException status.HTTP_404_NOT_FOUND "User not found")
  | Some user => mret user
  end.

Definition delete_user (user_id : Z) (current_user : User.t)
    : handler unit :=
  raise_if (bool_decide (user_id = User.id current_user))
    status.HTTP_400_BAD_REQUEST "Cannot delete yourself";;
  user ← query (λ db, UserRepository.get db user_id);
  raise_if (bool_decide (user = None))
    status.HTTP_404_NOT_FOUND "User not found";;
  execute (λ db, UserRepository.remove db user_id);;
  mret ().

End users.
End users.

Module products.

Definition read_products `{Services} (pagination : PaginationParams.t)
    (search category : option string) (low_stock : bool)
    (current_user : User.t) : handler ProductList.t :=
  let skip := PaginationParams.skip pagination in
  let limit := PaginationParams.limit pagination in
  products ←
    (if truthy_str search then
       query (λ db, ProductRepository.search db (default "" search) skip limit)
     else if truthy_str category then
       query (λ db,
         ProductRepository.get_by_category db (default "" category) skip limit)
     else if low_stock then
       query (λ db, ProductRepository.get_low_stock db skip limit)
     else
       attempt (λ db,
         ProductRepository.get_multi db skip limit
           (PaginationParams.order_by pagination)
           (PaginationParams.order_direction pagination)));
  total ← query ProductRepository.count;
  let pages :=
    (total + PaginationParams.size pagination - 1)
    `div` PaginationParams.size pagination in
  attempt (λ _,
    ProductList.init products total (PaginationParams.page pagination)
      (PaginationParams.size pagination) pages).

Definition create_product (env : Env) (product_in : ProductCreate.t)
    (current_user : User.t) : handler Product.t :=
  existing_product ← query (λ db,
    ProductRepository.get_by_sku db (ProductCreate.sku product_in));
  raise_if (bool_decide (is_Some existing_product))
    status.HTTP_400_BAD_REQUEST "Product with this SKU already exists";;
  execute (λ db,
    ProductRepository.create db env product_in (User.id current_user)).

Definition read_categories (current_user : User.t) : handler (list string) :=
  query ProductRepository.get_categories.

Definition read_low_stock_products (pagination : PaginationParams.t)
    (current_user : User.t) : handler (list Product.t) :=
  query (λ db,
    ProductRepository.get_low_stock db
      (PaginationParams.skip pagination) (PaginationParams.limit pagination)).

Record inventory_value : Type := mk_inventory_value {
  total_value : Q;
  total_products : Z;
  low_stock_count : Z;
}.

Definition get_inventory_value `{Services} (current_user : User.t)
    : handler inventory_value :=
  total_value ← query (λ db, ProductRepository.get_total_value db None);
  total_products ← query ProductRepository.count;
  low_stock_count ← query (λ db,
    Z.of_nat (length (ProductRepository.get_low_stock db 0 100)));
  mret {| total_value := round2 total_value;
          total_products := total_products;
          low_stock_count := low_stock_count |}.

Definition read_product (product_id : Z) (current_user : User.t)
    : handler Product.t :=
  product ← query (λ db, ProductRepository.get db product_id);
  match product with
  | None =>
      mthrow (mk_HTTPException status.HTTP_404_NOT_FOUND "Product not found")
  | Some product => mret product
  end.

(** [product.user_id != current_user.id and not current_user.is_superuser] *)
Definition not_permitted (product : Product.t) (current_user : User.t) : bool :=
  bool_decide (Product.user_id product ≠ User.id current_user)
  && negb (truthy_bool (User.is_superuser current_user)).

Definition update_product (env : Env) (product_id : Z)
    (product_in : ProductUpdate.t) (current_user : User.t)
    : handler Product.t :=
  product ← query (λ db, ProductRepository.get db product_id);
  match product with
  | None =>
      mthrow (mk_HTTPException status.HTTP_404_NOT_FOUND "Product not found")
  | Some product =>
      raise_if (not_permitted product current_user)
        status.HTTP_403_FORBIDDEN "Not enough permissions";;
      (if truthy_str (ProductUpdate.sku product_in)
          && bool_decide (ProductUpdate.sku product_in ≠ Some (Product.sku product))
       then
         existing_product ← query (λ db,
           ProductRepository.get_by_sku db
             (default "" (ProductUpdate.sku product_in)));
         raise_if (bool_decide (is_Some existing_product))
           status.HTTP_400_BAD_REQUEST "Product with this SKU already exists"
       else mret ());;
      execute (λ db, ProductRepository.update db env product product_in)
  end.

Definition delete_product (product_id : Z) (current_user : User.t)
    : handler unit :=
  product ← query (λ db, ProductRepository.get db product_id);
  match product with
  | None =>
      mthrow (mk_HTTPException status.HTTP_404_NOT_FOUND "Product not found")
  | Some product =>
      raise_if (not_permitted product current_user)
        status.HTTP_403_FORBIDDEN "Not enough permissions";;
      execute (λ db, ProductRepository.remove db product_id);;
      mret ()
  end.

Definition update_product_stock (env : Env) (product_id : Z)
    (quantity_change : Z) (current_user : User.t) : handler Product.t :=
  product ← execute (λ db,
    ProductRepository.update_stock db env product_id quantity_change);
  match product with
  | None =>
      mthrow (mk_HTTPException status.HTTP_404_NOT_FOUND "Product not found")
  | Some product => mret product
  end.

End products.
End endpoints.

(** ** The API ([app/api/api_v1.py])

    A request is one of the sixteen operations with its parameters and
    body; the bearer token, if any, comes with it.  The dependencies of an
    operation are resolved, and then its body validated, before its
    handler runs; what the handler returns is validated before it is
    sent. *)
Module api.

Inductive request : Type :=
  | POST_auth_register (body : UserCreate.body)
  | POST_auth_login (username password : string)
  | GET_users_me
  | PUT_users_me (body : UserUpdate.t)
  | GET_users (page size : Z) (order_by : option string) (order_direction : string)
  | GET_users_id (user_id : Z)
  | DELETE_users_id (user_id : Z)
  | GET_products (page size : Z) (order_by : option string)
      (order_direction : string) (search category : option string)
      (low_stock : bool)
  | POST_products (body : ProductCreate.t)
  | GET_products_categories
  | GET_products_low_stock (page size : Z) (order_by : option string)
      (order_direction : string)
  | GET_products_inventory_value
  | GET_products_id (product_id : Z)
  | PUT_products_id (product_id : Z) (body : ProductUpdate.t)
  | DELETE_products_id (product_id : Z)
  | PATCH_products_id_stock (product_id : Z) (quantity_change : Z).

Inductive content : Type :=
  | a_user (u : User.t)
  | a_token (t : Token.t)
  | some_users (l : list User.t)
  | a_product (p : Product.t)
  | some_products (l : list Product.t)
  | a_product_list (l : ProductList.t)
  | some_categories (l : list string)
  | an_inventory_value (v : endpoints.products.inventory_value)
  | no_content.

Record response : Type := mk_response {
  code : Z;
  body : content;
}.

Section api.
Context `{Services}.
Variable validate_email : string → option string.

(** The [response_model] of the operations: what a handler returns is
    validated against it before it is sent. *)
Definition response_model (c : content) : bool :=
  match c with
  | a_user u => UserInDBBase.model_validate validate_email u
  | some_users l => forallb (UserInDBBase.model_validate validate_email) l
  | a_product p => ProductInDBBase.model_validate p
  | some_products l => forallb ProductInDBBase.model_validate l
  | a_product_list l =>
      forallb ProductInDBBase.model_validate (ProductList.items l)
  | a_token _ | some_categories _ | an_inventory_value _ | no_content => true
  end.

(** The response to what a handler returns.  A value that its
    [response_model] refuses is answered 500, after the handler has run
    and committed. *)
Definition respond {A} (code : Z) (wrap : A → content) (h : handler A)
    : handler response :=
  a ← h;
  if response_model (wrap a) then mret (mk_response code (wrap a))
  else mthrow (mk_HTTPException 500 "Internal Server Error").

(** A body that its schema refuses is answered 422. *)
Definition validated {A} (body : option A) : handler A :=
  match body with
  | Some a => mret a
  | None => mthrow (mk_HTTPException 422 "Unprocessable Entity")
  end.

Definition handle (env : Env) (authorization : option string)
    (req : request) : handler response :=
  let user := deps.get_current_active_user env authorization in
  let superuser := deps.get_current_active_superuser env authorization in
  match req with
  | POST_auth_register body =>
      user_in ← validated (UserCreate.model_validate validate_email body);
      respond status.HTTP_201_CREATED a_user
        (endpoints.auth.register env user_in)
  | POST_auth_login username password =>
      respond status.HTTP_200_OK a_token
        (endpoints.auth.login env username password)
  | GET_users_me =>
      current_user ← user;
      respond status.HTTP_200_OK a_user
        (endpoints.users.read_users_me current_user)
  | PUT_users_me body =>
      current_user ← user;
      user_in ← validated (UserUpdate.model_validate validate_email body);
      respond status.HTTP_200_OK a_user
        (endpoints.users.update_user_me env user_in current_user)
  | GET_users page size order_by order_direction =>
      current_user ← superuser;
      respond status.HTTP_200_OK some_users
        (endpoints.users.read_users
           (PaginationParams.init page size order_by order_direction)
           current_user)
  | GET_users_id user_id =>
      current_user ← superuser;
      respond status.HTTP_200_OK a_user
        (endpoints.users.read_user_by_id user_id current_user)
  | DELETE_users_id user_id =>
      current_user ← superuser;
      respond status.HTTP_204_NO_CONTENT (λ _, no_content)
        (endpoints.users.delete_user user_id current_user)
  | GET_products page size order_by order_direction search category low_stock =>
      current_user ← user;
      respond status.HTTP_200_OK a_product_list
        (endpoints.products.read_products
           (PaginationParams.init page size order_by order_direction)
           search category low_stock current_user)
  | POST_products body =>
      current_user ← user;
      product_in ← validated (ProductCreate.model_validate body);
      respond status.HTTP_201_CREATED a_product
        (endpoints.products.create_product env product_in current_user)
  | GET_products_categories =>
      current_user ← user;
      respond status.HTTP_200_OK some_categories
        (endpoints.products.read_categories current_user)
  | GET_products_low_stock page size order_by order_direction =>
      current_user ← user;
      respond status.HTTP_200_OK some_products
        (endpoints.products.read_low_stock_products
           (PaginationParams.init page size order_by order_direction)
           current_user)
  | GET_products_inventory_value =>
      current_user ← user;
      respond status.HTTP_200_OK an_inventory_value
        (endpoints.products.get_inventory_value current_user)
  | GET_products_id product_id =>
      current_user ← user;
      respond status.HTTP_200_OK a_product
        (endpoints.products.read_product product_id current_user)
  | PUT_products_id product_id body =>
      current_user ← user;
      product_in ← validated (ProductUpdate.model_validate body);
      respond status.HTTP_200_OK a_product
        (endpoints.products.update_product env product_id product_in
           current_user)
  | DELETE_products_id product_id =>
      current_user ← user;
      respond status.HTTP_204_NO_CONTENT (λ _, no_content)
        (endpoints.products.delete_product product_id current_user)
  | PATCH_products_id_stock product_id quantity_change =>
      current_user ← user;
      respond status.HTTP_200_OK a_product
        (endpoints.products.update_product_stock env product_id
           quantity_change current_user)
  end.

End api.
End api.

(** ** A concrete credential service

    Stand-ins used to run the handlers on examples: the hash of a password
    is the salt, a dollar sign and the password; a token is its subject;
    a few of the inherited attributes; ties rounded down. *)
Module demo.

Definition hash (salt password : string) : string :=
  (salt ++ "$" ++ password)%string.

Fixpoint after_dollar (s : string) : string :=
  match s with
  | EmptyString => EmptyString
  | String c s' => if Ascii.eqb c "$"%char then s' else after_dollar s'
  end.

Definition verify (password hashed : string) : bool :=
  String.eqb (after_dollar hashed) password.

Definition services : Services := {|
  get_password_hash := hash;
  verify_password := verify;
  jwt_encode := λ subject _, subject;
  jwt_decode := λ _ token, Some (Some token);
  inherited_attributes :=
    [ "metadata"; "registry"; "__init__"; "__doc__"; "__module__";
      "__dict__"; "__mapper__"; "__class__" ];
  round_tie_up := λ _, false;
|}.

Definition validate_email (s : string) : option string := Some s.

Definition env : Env := {| now := 1000; salt := "s" |}.

End demo.

(** ** Notions used in the statements *)

(** The account [authenticate] checks the password of: the first one whose
    username is the identifier, else the first one whose email is. *)
Definition selected (db : DB) (identifier : string) : option User.t :=
  match UserRepository.get_by_username db identifier with
  | Some u => Some u
  | None => UserRepository.get_by_email db identifier
  end.

(** The store with the active flag of every account set by [f]. *)
Definition reflag (f : User.t → option bool) (db : DB) : DB :=
  with_users ((λ u, User.with_is_active (f u) u) <$> users db) db.


(** Example data. *)
Module example.

Definition alice : User.t :=
  {| User.id := 1; User.created_at := 10; User.updated_at := 10;
     User.email := "alice@example.com"; User.username := "alice";
     User.hashed_password := "s$alicepassword";
     User.full_name := Some "Alice"; User.is_active := Some true;
     User.is_superuser := Some false |}.

Definition bob : User.t :=
  {| User.id := 2; User.created_at := 20; User.updated_at := 20;
     User.email := "bob@example.com"; User.username := "bob";
     User.hashed_password := "s$bobpassword";
     User.full_name := None; User.is_active := Some true;
     User.is_superuser := Some false |}.

Definition admin : User.t :=
  {| User.id := 3; User.created_at := 30; User.updated_at := 30;
     User.email := "admin@example.com"; User.username := "admin";
     User.hashed_password := "s$adminpassword";
     User.full_name := None; User.is_active := Some true;
     User.is_superuser := Some true |}.

Definition widget : Product.t :=
  {| Product.id := 10; Product.created_at := 40; Product.updated_at := 40;
     Product.name := "Widget"; Product.description := None;
     Product.sku := "W-1"; Product.price := 5 # 2; Product.quantity := 5;
     Product.image_url := None; Product.category := Some "Tools";
     Product.min_stock := Some 2; Product.user_id := 1 |}.

Definition gadget : Product.t :=
  {| Product.id := 11; Product.created_at := 50; Product.updated_at := 50;
     Product.name := "Gadget"; Product.description := Some "A gadget";
     Product.sku := "G-1"; Product.price := 10 # 1; Product.quantity := 1;
     Product.image_url := None; Product.category := Some "Tools";
     Product.min_stock := Some 3; Product.user_id := 1 |}.

Definition gizmo : Product.t :=
  {| Product.id := 12; Product.created_at := 60; Product.updated_at := 60;
     Product.name := "Gizmo"; Product.description := None;
     Product.sku := "Z-1"; Product.price := 1 # 1; Product.quantity := 9;
     Product.image_url := None; Product.category := None;
     Product.min_stock := Some 0; Product.user_id := 2 |}.

Definition db : DB :=
  {| users := [alice; bob; admin]; products := [widget; gadget; gizmo] |}.

(** A registration that asks for the superuser flag. *)
Definition mallory : UserCreate.body :=
  {| UserCreate.body_email := "mallory@example.com";
     UserCreate.body_username := "mallory";
     UserCreate.body_full_name := None;
     UserCreate.body_is_active := None;
     UserCreate.body_is_superuser := Some true;
     UserCreate.body_password := "mallorypassword" |}.

(** An update of the widget that names two of its fields. *)
Definition sprocket : ProductUpdate.t :=
  {| ProductUpdate.name := Some "Sprocket";
     ProductUpdate.description := None;
     ProductUpdate.sku := None;
     ProductUpdate.price := None;
     ProductUpdate.quantity := Some 7;
     ProductUpdate.image_url := None;
     ProductUpdate.category := None;
     ProductUpdate.min_stock := None |}.

(** A registration under a username that is taken. *)
Definition alice_again : UserCreate.body :=
  {| UserCreate.body_email := "alice2@example.com";
     UserCreate.body_username := "alice";
     UserCreate.body_full_name := None;
     UserCreate.body_is_active := None;
     UserCreate.body_is_superuser := None;
     UserCreate.body_password := "alicepassword2" |}.

End example.


(** A handler that leaves the store as it found it. *)
Definition read_only {A} (m : handler A) : Prop := ∀ db, (m db).2 = db.

(** A handler that leaves the store as it found it whenever it raises. *)
Definition atomic {A} (m : handler A) : Prop :=
  ∀ db e db', m db = (Raise e, db') → db' = db.


(** The store once the account of key [id] and the items it owns are
    deleted. *)
Definition without_user (id : Z) (db : DB) : DB :=
  {| users := filter (λ u, User.id u ≠ id) (users db);
     products := filter (λ p, Product.user_id p ≠ id) (products db) |}.





(** Two attribute values that compare equal. *)
Definition attr_eq (a b : option value) : Prop :=
  match a, b with
  | Some x, Some y => value_eqb x y = true
  | None, None => True
  | _, _ => False
  end.

(** What [BaseRepository.update] relies on in a mapped class: assigning an
    attribute changes that attribute and no other, and so does the
    [onupdate] of [updated_at]; neither touches the primary key. *)
Class ModelLaws (M : Type) `{Model M} : Prop := {
  dict_keys : ∀ m : M, (dict m).*1 = columns;
  setattr_frame : ∀ (m : M) i k,
    k ≠ item_key i → getattr (setattr m i) k = getattr m k;
  setattr_value : ∀ (m : M) i,
    item_key i ∈ columns → getattr (setattr m i) (item_key i) = Some (item_value i);
  setattr_id : ∀ (m : M) i, model_id (setattr m i) = model_id m;
  onupdate_frame : ∀ now (m : M) k,
    k ≠ "updated_at" → getattr (onupdate now m) k = getattr m k;
  onupdate_value : ∀ now (m : M),
    getattr (onupdate now m) "updated_at" = Some (VTime now);
  onupdate_id : ∀ now (m : M), model_id (onupdate now m) = model_id m;
}.

(** The keys of an update, whichever way it is passed. *)
Definition update_keys `{Model M, !UpdateSchema M}
    (obj_in : UpdateSchemaType + list item) : list string :=
  item_key <$> match obj_in with
               | inl schema => model_dump schema
               | inr d => d
               end.

Definition update_items `{Model M, !UpdateSchema M}
    (obj_in : UpdateSchemaType + list item) : list item :=
  match obj_in with
  | inl schema => model_dump schema
  | inr d => d
  end.


(** The object [update] commits: the loop of assignments run on
    [db_obj]. *)
Definition assigned `{Model M} (db_obj : M) (data : list item) : M :=
  foldl (λ obj i, if hasattr obj (item_key i) then setattr obj i else obj)
        db_obj data.


(** The rows [read_products] lists, by filter mode: search, category, low
    stock, and the plain listing; [None] when the plain listing raises. *)
Definition listing `{Services} (pagination : PaginationParams.t)
    (search category : option string) (low_stock : bool) (db : DB)
    : option (list Product.t) :=
  let skip := PaginationParams.skip pagination in
  let limit := PaginationParams.limit pagination in
  if truthy_str search then
    Some (ProductRepository.search db (default "" search) skip limit)
  else if truthy_str category then
    Some (ProductRepository.get_by_category db (default "" category) skip limit)
  else if low_stock then
    Some (ProductRepository.get_low_stock db skip limit)
  else
    ProductRepository.get_multi db skip limit
      (PaginationParams.order_by pagination)
      (PaginationParams.order_direction pagination).


(** The invariant of the data model on quantities. *)
Definition quantities_nonneg (db : DB) : Prop :=
  ∀ p, p ∈ products db → 0 ≤ Product.quantity p.

(** A handler that keeps it. *)
Definition keeps_quantities {A} (m : handler A) : Prop :=
  ∀ db, quantities_nonneg db → quantities_nonneg (m db).2.

(** The quantity an update dict leaves, given the one it finds. *)
Definition quantity_after (q : Z) (data : list Product.item) : Z :=
  foldl (λ q i, match i with Product.Quantity v => v | _ => q end) q data.


(** The account a bearer token resolves to: the token is present, it
    decodes, its payload has a subject, and an account has the subject as
    its username. *)
Definition resolved `{Services} (env : Env) (authorization : option string)
    (db : DB) : option User.t :=
  token ← authorization;
  sub ← jwt_decode (now env) token;
  username ← sub;
  UserRepository.get_by_username db username.


(** A request as it arrives: with the clock and the salt of its moment
    and with its bearer token, if it has one. *)
Record call : Type := mk_call {
  call_env : Env;
  call_authorization : option string;
  call_request : api.request;
}.

(** The store after a sequence of requests, served one after the other. *)
Definition serve `{Services} (validate_email : string → option string)
    (calls : list call) (db : DB) : DB :=
  foldl (λ db c,
           (api.handle validate_email (call_env c) (call_authorization c)
              (call_request c) db).2)
        db calls.

(** The constraints the tables declare: the primary keys, the unique
    columns ([users.username], [users.email], [products.sku]) and the
    foreign key of [products.user_id]. *)
Definition consistent (db : DB) : Prop :=
  NoDup (User.id <$> users db)
  ∧ NoDup (User.username <$> users db)
  ∧ NoDup (User.email <$> users db)
  ∧ NoDup (Product.id <$> products db)
  ∧ NoDup (Product.sku <$> products db)
  ∧ ∀ p, p ∈ products db → ∃ u, u ∈ users db ∧ User.id u = Product.user_id p.

(** A handler that keeps a property of the store. *)
Definition preserves (I : DB → Prop) {A} (m : handler A) : Prop :=
  ∀ db, I db → I (m db).2.




(** Further values to run the handlers on. *)
Module sample.

(** An email validator that refuses the empty string and changes
    nothing. *)
Definition validate_email (s : string) : option string :=
  if String.eqb s "" then None else Some s.

(** A new item. *)
Definition bolt : ProductCreate.t :=
  {| ProductCreate.name := "Bolt";
     ProductCreate.description := None;
     ProductCreate.sku := "B-1";
     ProductCreate.price := 1 # 4;
     ProductCreate.quantity := 100;
     ProductCreate.image_url := None;
     ProductCreate.category := Some "Hardware";
     ProductCreate.min_stock := 10 |}.

(** A change of username and password. *)
Definition rename : UserUpdate.t :=
  {| UserUpdate.email := None;
     UserUpdate.username := Some "robert";
     UserUpdate.full_name := None;
     UserUpdate.password := Some "robertpassword";
     UserUpdate.is_active := None |}.

(** A registration, a new item, a stock adjustment below zero, a
    renaming and the deletion of an account that owns items.  With the
    services of [demo] a token is the username of its bearer. *)
Definition calls : list call :=
  [ mk_call demo.env None (api.POST_auth_register example.mallory);
    mk_call demo.env (Some "bob") (api.POST_products bolt);
    mk_call demo.env (Some "bob") (api.PATCH_products_id_stock 10 (-100));
    mk_call demo.env (Some "bob") (api.PUT_users_me rename);
    mk_call demo.env (Some "admin") (api.DELETE_users_id 1) ].


End sample.




(** The rows of [db'] that were rows of [db], by primary key, with the
    owner, or the superuser flag, they had. *)
Definition same_owner (db : DB) (p' : Product.t) : Prop :=
  ∃ p, p ∈ products db ∧ Product.id p = Product.id p'
       ∧ Product.user_id p = Product.user_id p'.

Definition same_flag (db : DB) (u' : User.t) : Prop :=
  ∃ u, u ∈ users db ∧ User.id u = User.id u'
       ∧ User.is_superuser u = User.is_superuser u'.


(** ** Seeding ([app/init_db.py]) *)
Module init_db.
Section init_db.
Context `{Services}.
Variable validate_email : string → option string.

(** [create_superuser].  It has no result when it raises: when the
    validator refuses the address of the seed account, and when an account
    has that address already, which the unique index on [users.email]
    refuses at the commit. *)
Definition create_superuser (db : DB) (env : Env) : option DB :=
  match UserRepository.get_by_username db "admin" with
  | Some _ => Some db
  | None =>
      superuser_in ←
        UserCreate.model_validate validate_email
          {| UserCreate.body_username := "admin";
             UserCreate.body_email := "admin@inventory.com";
             UserCreate.body_password := "admin123456";
             UserCreate.body_full_name := Some "System Administrator";
             UserCreate.body_is_active := Some true;
             UserCreate.body_is_superuser := Some true |};
      match UserRepository.get_by_email db (UserCreate.email superuser_in) with
      | Some _ => None
      | None => Some (UserRepository.create db env superuser_in).2
      end
  end.

End init_db.
End init_db.




(** The first row of a table that has a property: the row a query for
    the property gives with [first()]. *)
Definition first_with {A} (P : A → Prop) (l : list A) (x : A) : Prop :=
  ∃ l1 l2, l = l1 ++ x :: l2 ∧ P x ∧ ∀ y, y ∈ l1 → ¬ P y.

(** The account [authenticate] looks up for an identifier: the first
    account that has it as its username, or, when no account has, the
    first that has it as its email. *)
Definition looked_up (db : DB) (identifier : string) (u : User.t) : Prop :=
  first_with (λ x, User.username x = identifier) (users db) u
  ∨ ((∀ x, x ∈ users db → User.username x ≠ identifier)
     ∧ first_with (λ x, User.email x = identifier) (users db) u).

(** The status codes of the errors a handler or a dependency raises
    itself, and of a refused body. *)
Definition client_error (e : HTTPException) : Prop :=
  status_code e ∈ [400; 401; 403; 404; 422].

(** A handler that leaves the store as it found it when it raises with
    another status than [code]. *)
Definition atomic_but (code : Z) {A} (m : handler A) : Prop :=
  ∀ db e db', m db = (Raise e, db') → status_code e ≠ code → db' = db.

(** * Properties *)

(** ** Lookups by the first matching row *)

Lemma first_cons {A} (P : A → Prop) `{∀ x, Decision (P x)} (x : A) (l : list A) :
  snd <$> list_find P (x :: l) =
  if decide (P x) then Some x else snd <$> list_find P l.
Proof.
  simpl. case_decide; [done|].
  destruct (list_find P l) as [[i y]|]; done.
Qed.

Lemma first_Some {A} (P : A → Prop) `{∀ x, Decision (P x)} (l : list A) (x : A) :
  snd <$> list_find P l = Some x → x ∈ l ∧ P x.
Proof.
  destruct (list_find P l) as [[i y]|] eqn:E; [|done].
  intros [= <-]. apply list_find_Some in E as (Hl & HP & _).
  split; [by eapply list_elem_of_lookup_2|done].
Qed.

Lemma first_None {A} (P : A → Prop) `{∀ x, Decision (P x)} (l : list A) :
  snd <$> list_find P l = None ↔ ∀ x, x ∈ l → ¬ P x.
Proof.
  rewrite <- Forall_forall, <- (list_find_None P).
  destruct (list_find P l) as [[i y]|]; simpl; split; intros ?; done.
Qed.

Section base_repository_facts.
Context `{Model M}.
Implicit Types (table : list M) (r : M).

Lemma get_cons r table id :
  BaseRepository.get (r :: table) id =
  if decide (model_id r = id) then Some r else BaseRepository.get table id.
Proof. exact (first_cons (λ x, model_id x = id) r table). Qed.

Lemma get_Some table id r :
  BaseRepository.get table id = Some r → r ∈ table ∧ model_id r = id.
Proof. exact (first_Some (λ x, model_id x = id) table r). Qed.

Lemma get_None table id :
  BaseRepository.get table id = None ↔ ∀ r, r ∈ table → model_id r ≠ id.
Proof. exact (first_None (λ x, model_id x = id) table). Qed.

(** Rewriting the rows of a primary key keeps the lookup on it. *)
Lemma get_rewrite table id r row :
  BaseRepository.get table id = Some r →
  model_id row = id →
  BaseRepository.get
    ((λ x, if decide (model_id x = id) then row else x) <$> table) id
  = Some row.
Proof.
  intros Hget Hrow. induction table as [|x table IH]; [done|].
  rewrite get_cons in Hget. rewrite fmap_cons, get_cons.
  destruct (decide (model_id x = id)) as [Hx|Hx].
  - by rewrite decide_True.
  - rewrite decide_False by done. auto.
Qed.

Lemma commit_unchanged table now loaded db_obj :
  BaseRepository.same_row loaded db_obj = true →
  BaseRepository.commit table now loaded db_obj = (loaded, table).
Proof. intros E. unfold BaseRepository.commit. by rewrite E. Qed.

Lemma commit_changed table now loaded db_obj :
  BaseRepository.same_row loaded db_obj = false →
  BaseRepository.commit table now loaded db_obj =
  (onupdate now db_obj,
   (λ r, if decide (model_id r = model_id loaded)
         then onupdate now db_obj else r) <$> table).
Proof. intros E. unfold BaseRepository.commit. by rewrite E. Qed.

(** The object a commit returns is the stored row of its key. *)
Lemma get_commit table now loaded db_obj :
  BaseRepository.get table (model_id loaded) = Some loaded →
  model_id (onupdate now db_obj) = model_id loaded →
  let '(row, table') := BaseRepository.commit table now loaded db_obj in
  BaseRepository.get table' (model_id loaded) = Some row.
Proof.
  intros Hget Hid.
  destruct (BaseRepository.same_row loaded db_obj) eqn:E.
  - by rewrite commit_unchanged.
  - rewrite commit_changed by done. by eapply get_rewrite.
Qed.

End base_repository_facts.

(** ** Stock adjustment *)

Lemma same_row_quantity (p : Product.t) (q : Z) :
  BaseRepository.same_row p (Product.with_quantity q p) = true →
  q = Product.quantity p.
Proof.
  unfold BaseRepository.same_row. cbn.
  rewrite !andb_true_iff. intros (_ & _ & _ & _ & _ & _ & _ & Hq & _).
  symmetry. by apply Z.eqb_eq.
Qed.

Lemma clamp_max (n : Z) : (if (n <? 0)%Z then 0 else n) = Z.max 0 n.
Proof. destruct (Z.ltb_spec n 0); lia. Qed.

Lemma update_stock_found db env id d p :
  ProductRepository.get db id = Some p →
  ∃ p' db',
    ProductRepository.update_stock db env id d = (Some p', db')
    ∧ Product.quantity p' = Z.max 0 (Product.quantity p + d)
    ∧ ProductRepository.get db' id = Some p'
    ∧ users db' = users db
    ∧ (p' = p
       ∨ p' = Product.with_updated_at (now env)
                (Product.with_quantity (Z.max 0 (Product.quantity p + d)) p)).
Proof.
  intros Hget. unfold ProductRepository.update_stock. rewrite Hget.
  rewrite clamp_max. set (q := Z.max 0 _).
  pose proof Hget as [_ Hid]%get_Some. simpl in Hid. subst id.
  pose proof (get_commit (products db) (now env) p (Product.with_quantity q p) Hget eq_refl) as Hc.
  destruct (BaseRepository.same_row p (Product.with_quantity q p)) eqn:E.
  - rewrite commit_unchanged in Hc |- * by done.
    eexists _, _. split_and!; [done| |done|done|by left].
    symmetry. by apply same_row_quantity.
  - rewrite commit_changed in Hc |- * by done.
    eexists _, _. split_and!; [done..|by right].
Qed.

Lemma update_stock_missing db env id d :
  ProductRepository.get db id = None →
  ProductRepository.update_stock db env id d = (None, db).
Proof. intros Hget. unfold ProductRepository.update_stock. by rewrite Hget. Qed.

Lemma first_with_find {A} (P : A → Prop) `{∀ x, Decision (P x)}
    (l : list A) (x : A) :
  first_with P l x ↔ snd <$> list_find P l = Some x.
Proof.
  split.
  - intros (l1 & l2 & -> & Hx & Hl1).
    induction l1 as [|y l1 IH].
    + rewrite app_nil_l, first_cons. by rewrite decide_True.
    + rewrite <- app_comm_cons, first_cons.
      rewrite decide_False by (apply Hl1; by left).
      apply IH. intros z Hz. apply Hl1. by right.
  - revert x. induction l as [|y l IH]; intros x; [done|].
    rewrite first_cons. case_decide as Hy.
    + intros [= <-]. exists [], l. split_and!; [done..|].
      by intros z ?%elem_of_nil.
    + intros (l1 & l2 & -> & Hx & Hl1)%IH. exists (y :: l1), l2.
      split_and!; [done..|]. intros z [->|Hz]%elem_of_cons; auto.
Qed.

(** Rewriting the row of a key that only one row has. *)
Lemma rewrite_middle `{Model M} (l1 l2 : list M) (p row : M) (id : Z) :
  model_id p = id → (∀ x, x ∈ l1 ++ l2 → model_id x ≠ id) →
  (λ r, if decide (model_id r = id) then row else r) <$> (l1 ++ p :: l2)
  = l1 ++ row :: l2.
Proof.
  intros Hp Hothers.
  assert (Hsame : ∀ l : list M, (∀ x, x ∈ l → model_id x ≠ id) →
            (λ r, if decide (model_id r = id) then row else r) <$> l = l).
  { intros l Hl. induction l as [|x l IH]; [done|].
    rewrite fmap_cons, decide_False by (apply Hl; by left).
    f_equal. apply IH. intros y Hy. apply Hl. by right. }
  rewrite fmap_app, fmap_cons, decide_True by done.
  rewrite !Hsame; [done| |].
  - intros x Hx. apply Hothers, elem_of_app. by right.
  - intros x Hx. apply Hothers, elem_of_app. by left.
Qed.

(** An adjustment of the one item that has the key. *)
Lemma update_stock_at (db : DB) (env : Env) (id d : Z)
    (l1 l2 : list Product.t) (p : Product.t) :
  products db = l1 ++ p :: l2 →
  Product.id p = id →
  (∀ x, x ∈ l1 ++ l2 → Product.id x ≠ id) →
  ∃ p' db',
    ProductRepository.update_stock db env id d = (Some p', db')
    ∧ users db' = users db
    ∧ products db' = l1 ++ p' :: l2
    ∧ Product.id p' = id
    ∧ Product.quantity p' = Z.max 0 (Product.quantity p + d)
    ∧ (p' = p
       ∨ p' = Product.with_updated_at (now env)
                (Product.with_quantity (Z.max 0 (Product.quantity p + d)) p)).
Proof.
  intros Hdb Hid Hothers.
  assert (Hget : ProductRepository.get db id = Some p).
  { unfold ProductRepository.get, BaseRepository.get. rewrite Hdb.
    apply first_with_find. exists l1, l2. split_and!; [done..|].
    intros y Hy. apply Hothers, elem_of_app. by left. }
  unfold ProductRepository.update_stock. rewrite Hget, clamp_max.
  set (q := Z.max 0 _).
  destruct (BaseRepository.same_row p (Product.with_quantity q p)) eqn:E.
  - rewrite commit_unchanged by done.
    eexists _, _. split_and!; [done..| |by left].
    symmetry. by apply same_row_quantity.
  - rewrite commit_changed by done. rewrite Hdb.
    change (model_id p) with (Product.id p). rewrite Hid.
    rewrite (rewrite_middle (H := Product_Model) l1 l2 p _ id Hid Hothers).
    eexists _, _. split_and!; [done..|by right].
Qed.

(** C3. [update_stock] on the key of a stored item of quantity [q]
    returns the item with quantity [max 0 (q + delta)], otherwise as it
    was but for its [updated_at], and stores it in the place of the old
    one; on a key that no item has it returns [None] and leaves the store
    as it was.  Adjusting by [delta] and then by [-delta] gives back the
    original quantity [q], which the data model has at least zero,
    exactly when the first adjustment was not clamped, that is when
    [0 <= q + delta]. *)
Theorem update_stock_spec (db : DB) (env env' : Env) (id delta : Z) :
  ((∀ p, p ∈ products db → Product.id p ≠ id) →
   ProductRepository.update_stock db env id delta = (None, db))
  ∧ ∀ (l1 l2 : list Product.t) (p : Product.t),
      products db = l1 ++ p :: l2 →
      Product.id p = id →
      (∀ x, x ∈ l1 ++ l2 → Product.id x ≠ id) →
      let q := Product.quantity p in
      ∃ p1 db1 p2 db2,
        ProductRepository.update_stock db env id delta = (Some p1, db1)
        ∧ users db1 = users db
        ∧ products db1 = l1 ++ p1 :: l2
        ∧ Product.quantity p1 = Z.max 0 (q + delta)
        ∧ (p1 = p
           ∨ p1 = Product.with_updated_at (now env)
                    (Product.with_quantity (Z.max 0 (q + delta)) p))
        ∧ ProductRepository.update_stock db1 env' id (- delta) = (Some p2, db2)
        ∧ users db2 = users db
        ∧ products db2 = l1 ++ p2 :: l2
        ∧ Product.quantity p2 = Z.max 0 (Z.max 0 (q + delta) - delta)
        ∧ (0 ≤ q → (Product.quantity p2 = q ↔ 0 ≤ q + delta)).
Proof.
  split.
  - intros Hnone. apply update_stock_missing. by apply get_None.
  - intros l1 l2 p Hdb Hid Hothers q.
    destruct (update_stock_at db env id delta l1 l2 p Hdb Hid Hothers)
      as (p1 & db1 & E1 & Hu1 & Hp1 & Hid1 & Hq1 & Hrow1).
    destruct (update_stock_at db1 env' id (- delta) l1 l2 p1 Hp1 Hid1 Hothers)
      as (p2 & db2 & E2 & Hu2 & Hp2 & Hid2 & Hq2 & Hrow2).
    exists p1, db1, p2, db2. fold q in Hq1. rewrite Hq1 in Hq2.
    split_and!; try done; try congruence.
    all: rewrite Hq2; lia.
Qed.

(** The widget, of which there are 5: taking 3 leaves 2, and giving them
    back leaves 5. *)
Lemma update_stock_spec_witness :
  ∃ p1 db1 p2 db2,
    ProductRepository.update_stock example.db demo.env 10 (-3) = (Some p1, db1)
    ∧ users db1 = users example.db
    ∧ products db1 = [] ++ p1 :: [example.gadget; example.gizmo]
    ∧ Product.quantity p1 = Z.max 0 (5 + -3)
    ∧ (p1 = example.widget
       ∨ p1 = Product.with_updated_at (now demo.env)
                (Product.with_quantity (Z.max 0 (5 + -3)) example.widget))
    ∧ ProductRepository.update_stock db1 demo.env 10 (- -3) = (Some p2, db2)
    ∧ users db2 = users example.db
    ∧ products db2 = [] ++ p2 :: [example.gadget; example.gizmo]
    ∧ Product.quantity p2 = Z.max 0 (Z.max 0 (5 + -3) - -3)
    ∧ (0 ≤ 5 → (Product.quantity p2 = 5 ↔ 0 ≤ 5 + -3)).
Proof.
  apply (proj2 (update_stock_spec example.db demo.env demo.env 10 (-3))
           [] [example.gadget; example.gizmo] example.widget).
  - reflexivity.
  - reflexivity.
  - intros x Hx. simpl in Hx.
    repeat (apply elem_of_cons in Hx as [->|Hx]); try done.
    by apply elem_of_nil in Hx.
Defined.

(** Taking 8 from the 5 widgets leaves 0, and giving 8 back leaves 8. *)
Example update_stock_clamped :
  let '(p1, db1) := ProductRepository.update_stock example.db demo.env 10 (-8) in
  let '(p2, db2) := ProductRepository.update_stock db1 demo.env 10 8 in
  Product.quantity <$> p1 = Some 0 ∧ Product.quantity <$> p2 = Some 8.
Proof. by vm_compute. Qed.

Example update_stock_restored :
  let '(p1, db1) := ProductRepository.update_stock example.db demo.env 10 (-5) in
  let '(p2, db2) := ProductRepository.update_stock db1 demo.env 10 5 in
  Product.quantity <$> p1 = Some 0 ∧ Product.quantity <$> p2 = Some 5.
Proof. by vm_compute. Qed.

(** ** Low stock *)

Lemma is_low_stock_true (p : Product.t) :
  Product.is_low_stock p = Some true ↔
  ∃ m, Product.min_stock p = Some m ∧ Product.quantity p ≤ m.
Proof.
  unfold Product.is_low_stock. destruct (Product.min_stock p) as [m|]; simpl.
  - split.
    + intros [= E%Z.leb_le]. eauto.
    + intros (m' & [= <-] & Hle). f_equal. by apply Z.leb_le.
  - split; [done|]. by intros (m & ? & _).
Qed.

Lemma low_stock_filter_flag (p : Product.t) :
  ProductRepository.low_stock_filter p = true ↔ Product.is_low_stock p = Some true.
Proof.
  unfold ProductRepository.low_stock_filter, Product.is_low_stock.
  destruct (Product.min_stock p); simpl; [|done].
  split; [by intros ->|by intros [= ->]].
Qed.

(** A page, written out. *)
Lemma page_run {A} (skip limit : Z) (l : list A) :
  BaseRepository.page skip limit l
  = if decide (0 ≤ limit) then take (Z.to_nat limit) (drop (Z.to_nat skip) l)
    else drop (Z.to_nat skip) l.
Proof.
  unfold BaseRepository.page.
  destruct (Z.ltb_spec limit 0); case_decide; done || lia.
Qed.

Lemma page_sublist {A} (skip limit : Z) (l : list A) :
  BaseRepository.page skip limit l `sublist_of` l.
Proof.
  rewrite page_run. case_decide.
  - etransitivity; [apply sublist_take|apply sublist_drop].
  - apply sublist_drop.
Qed.

Lemma page_length {A} (skip limit : Z) (l : list A) :
  0 ≤ limit → Z.of_nat (length (BaseRepository.page skip limit l)) ≤ limit.
Proof.
  intros Hl. rewrite page_run, decide_True by done. rewrite length_take. lia.
Qed.

(** C8. The low-stock flag of an item is true exactly when the item has a
    threshold and its quantity is at most the threshold (with a threshold
    [m] the flag is the truth value of [quantity <= m]).  [get_low_stock]
    returns the items whose flag is true, in the order of the table,
    passing over the first [skip] of them and stopping after [limit]: at
    most [limit] items, none of them but a stored item whose flag is
    true, and all of these when the page is large enough. *)
Theorem low_stock_spec (db : DB) (skip limit : Z) :
  (∀ p, Product.is_low_stock p = Some true ↔
        ∃ m, Product.min_stock p = Some m ∧ Product.quantity p ≤ m)
  ∧ (∀ p m, Product.min_stock p = Some m →
        Product.is_low_stock p = Some (bool_decide (Product.quantity p ≤ m)))
  ∧ (0 ≤ limit →
     ProductRepository.get_low_stock db skip limit
     = take (Z.to_nat limit)
         (drop (Z.to_nat skip)
            (filter (λ p, Product.is_low_stock p = Some true) (products db))))
  ∧ (0 ≤ limit →
     Z.of_nat (length (ProductRepository.get_low_stock db skip limit)) ≤ limit)
  ∧ (∀ p, p ∈ ProductRepository.get_low_stock db skip limit →
        p ∈ products db ∧ Product.is_low_stock p = Some true)
  ∧ (∀ p, p ∈ products db → Product.is_low_stock p = Some true →
        p ∈ ProductRepository.get_low_stock db 0 (Z.of_nat (length (products db)))).
Proof.
  assert (Hfilter : ∀ l : list Product.t,
    filter (λ p, ProductRepository.low_stock_filter p = true) l =
    filter (λ p, Product.is_low_stock p = Some true) l).
  { intros l. apply list_filter_iff. intros p. apply low_stock_filter_flag. }
  split_and!.
  - apply is_low_stock_true.
  - intros p m Hm. unfold Product.is_low_stock. rewrite Hm. simpl.
    f_equal. destruct (Z.leb_spec (Product.quantity p) m).
    + by rewrite bool_decide_eq_true_2.
    + rewrite bool_decide_eq_false_2; [done|lia].
  - intros Hl. unfold ProductRepository.get_low_stock.
    by rewrite page_run, decide_True, Hfilter.
  - intros Hl. unfold ProductRepository.get_low_stock. by apply page_length.
  - intros p. unfold ProductRepository.get_low_stock.
    rewrite Hfilter. intros Hp.
    eapply elem_of_sublist in Hp; [|apply page_sublist].
    by apply list_elem_of_filter in Hp as [? ?].
  - intros p Hp Hflag.
    unfold ProductRepository.get_low_stock.
    rewrite page_run, decide_True by lia.
    rewrite Hfilter, Nat2Z.id. simpl. rewrite drop_0, take_ge.
    + by apply list_elem_of_filter.
    + apply length_filter.
Qed.

(** Of the two stored items that are low on stock, the second page of
    size 1 holds the second. *)
Lemma low_stock_spec_witness :
  ProductRepository.get_low_stock
    (with_products
       (products example.db
        ++ [Product.with_quantity 0 example.gizmo]) example.db) 1 1
  = [Product.with_quantity 0 example.gizmo].
Proof.
  rewrite (proj1 (proj2 (proj2 (low_stock_spec _ 1 1)))) by done.
  by vm_compute.
Defined.

Example low_stock_example :
  ProductRepository.get_low_stock example.db 0 100 = [example.gadget].
Proof. by vm_compute. Qed.

(** ** Authentication *)

Section authenticate_facts.
Context `{Services}.

Lemma selected_Some db identifier u :
  selected db identifier = Some u →
  u ∈ users db
  ∧ (User.username u = identifier
     ∨ (User.email u = identifier
        ∧ ∀ v, v ∈ users db → User.username v ≠ identifier)).
Proof.
  unfold selected, UserRepository.get_by_username, UserRepository.get_by_email.
  destruct (snd <$> list_find (λ u, User.username u = identifier) (users db))
    as [v|] eqn:E.
  - intros [= ->]. apply first_Some in E as [? ?]. auto.
  - intros [? ?]%first_Some. split; [done|]. right. split; [done|].
    by apply (first_None (λ u, User.username u = identifier)).
Qed.

Lemma selected_None db identifier :
  selected db identifier = None ↔
  ∀ v, v ∈ users db →
    User.username v ≠ identifier ∧ User.email v ≠ identifier.
Proof.
  unfold selected, UserRepository.get_by_username, UserRepository.get_by_email.
  destruct (snd <$> list_find (λ u, User.username u = identifier) (users db))
    as [v|] eqn:E.
  - split; [done|]. intros Hno. apply first_Some in E as [Hv ?].
    by destruct (Hno v Hv).
  - pose proof (proj1 (first_None (λ u, User.username u = identifier) _) E) as Hn.
    rewrite (first_None (λ u, User.email u = identifier)).
    split; [intros He v Hv; split; [by apply Hn|by apply He]|].
    intros Hno v Hv. by destruct (Hno v Hv).
Qed.

Lemma authenticate_selected db identifier password :
  UserRepository.authenticate db identifier password =
  match selected db identifier with
  | Some u =>
      if verify_password password (User.hashed_password u) then Some u else None
  | None => None
  end.
Proof.
  unfold UserRepository.authenticate, selected.
  destruct (UserRepository.get_by_username db identifier) as [u|].
  - by destruct (verify_password _ _).
  - destruct (UserRepository.get_by_email db identifier) as [u|]; [|done].
    by destruct (verify_password _ _).
Qed.

(** Changing active flags commutes with the two lookups. *)
Lemma first_reflag (P : User.t → Prop) `{∀ u, Decision (P u)}
    (f : User.t → option bool) (l : list User.t) :
  (∀ u, P (User.with_is_active (f u) u) ↔ P u) →
  snd <$> list_find P ((λ u, User.with_is_active (f u) u) <$> l) =
  (λ u, User.with_is_active (f u) u) <$> (snd <$> list_find P l).
Proof.
  intros HP. induction l as [|x l IH]; [done|].
  rewrite fmap_cons, !first_cons, IH.
  destruct (decide (P x)) as [Hx|Hx].
  - rewrite decide_True; [done|by apply HP].
  - rewrite decide_False; [done|by rewrite HP].
Qed.

Lemma selected_reflag f db identifier :
  selected (reflag f db) identifier =
  (λ u, User.with_is_active (f u) u) <$> selected db identifier.
Proof.
  unfold selected, UserRepository.get_by_username, UserRepository.get_by_email.
  simpl. rewrite !first_reflag by done.
  by destruct (snd <$> list_find (λ u, User.username u = identifier) (users db)).
Qed.

Lemma looked_up_selected db identifier u :
  looked_up db identifier u ↔ selected db identifier = Some u.
Proof.
  unfold looked_up, selected, UserRepository.get_by_username,
    UserRepository.get_by_email.
  rewrite (first_with_find (λ x, User.username x = identifier) (users db)).
  rewrite (first_with_find (λ x, User.email x = identifier) (users db)).
  destruct (snd <$> list_find (λ x, User.username x = identifier) (users db))
    as [v|] eqn:E.
  - split; [|intros ?; by left]. intros [?|[Hno _]]; [done|].
    apply first_Some in E as [Hv ?]. by destruct (Hno v Hv).
  - split; [by intros [?|[_ ?]]|]. intros He. right. split; [|done].
    by apply (first_None (λ x, User.username x = identifier)).
Qed.

(** C5. [authenticate] returns an account exactly when it is the account
    looked up for the identifier and the password verifies against its
    hash.  The account looked up is the first account of the table whose
    username is the identifier, or, when no account has that username,
    the first whose email is the identifier; there is at most one.
    [None] is returned exactly when no account has the identifier as its
    username or its email, or the password of the account looked up does
    not verify.  The active flags of the accounts play no part. *)
Theorem authenticate_spec (db : DB) (identifier password : string) :
  (∀ u, UserRepository.authenticate db identifier password = Some u ↔
        looked_up db identifier u
        ∧ verify_password password (User.hashed_password u) = true)
  ∧ (UserRepository.authenticate db identifier password = None ↔
       (∀ x, x ∈ users db →
             User.username x ≠ identifier ∧ User.email x ≠ identifier)
       ∨ ∃ u, looked_up db identifier u
              ∧ verify_password password (User.hashed_password u) = false)
  ∧ (∀ u v, looked_up db identifier u → looked_up db identifier v → u = v)
  ∧ (∀ f : User.t → option bool,
        UserRepository.authenticate (reflag f db) identifier password =
        (λ u, User.with_is_active (f u) u)
          <$> UserRepository.authenticate db identifier password).
Proof.
  split_and!.
  - intros u. rewrite authenticate_selected, looked_up_selected.
    destruct (selected db identifier) as [v|]; [|by split; [|intros [? _]]].
    destruct (verify_password password (User.hashed_password v)) eqn:E.
    + split; [by intros [= <-]|]. by intros [[= <-] _].
    + split; [done|]. intros [[= <-] ?]. congruence.
  - rewrite authenticate_selected, <- selected_None.
    destruct (selected db identifier) as [u|] eqn:Hu; [|by split; [left|]].
    destruct (verify_password _ _) eqn:E.
    + split; [done|]. intros [?|(v & Hv%looked_up_selected & E')]; [done|].
      rewrite Hu in Hv. injection Hv as <-. congruence.
    + split; [|done]. intros _. right. exists u.
      by rewrite looked_up_selected.
  - intros u v Hu%looked_up_selected Hv%looked_up_selected. congruence.
  - intros f. rewrite !authenticate_selected, selected_reflag.
    destruct (selected db identifier) as [u|]; [|done]. simpl.
    by destruct (verify_password _ _).
Qed.

End authenticate_facts.

(** Alice logs in under her username and under her address, and not with
    a wrong password. *)
Example authenticate_example :
  UserRepository.authenticate (H := demo.services) example.db
    "alice" "alicepassword" = Some example.alice
  ∧ UserRepository.authenticate (H := demo.services) example.db
      "alice@example.com" "alicepassword" = Some example.alice
  ∧ UserRepository.authenticate (H := demo.services) example.db
      "alice" "bobpassword" = None
  ∧ UserRepository.authenticate (H := demo.services) example.db
      "carol" "alicepassword" = None.
Proof. by vm_compute. Qed.

(** Bob, the second account, logs in under his address: no account has
    the address as its username. *)
Lemma authenticate_spec_witness :
  UserRepository.authenticate (H := demo.services) example.db
    "bob@example.com" "bobpassword" = Some example.bob.
Proof.
  apply (proj1 (authenticate_spec (H := demo.services) example.db
                  "bob@example.com" "bobpassword")).
  split; [|reflexivity]. right. split.
  - intros x Hx. unfold example.db in Hx. simpl in Hx.
    repeat (apply elem_of_cons in Hx as [->|Hx]); try done.
    by apply elem_of_nil in Hx.
  - exists [example.alice], [example.admin]. split_and!; [done..|].
    intros y ->%list_elem_of_singleton. done.
Defined.

(** ** Registration *)

Section fresh_id.
Context `{Model M}.

Lemma next_id_fresh (table : list M) (r : M) :
  r ∈ table → model_id r < BaseRepository.next_id table.
Proof.
  unfold BaseRepository.next_id.
  induction table as [|x table IH]; [by intros ?%elem_of_nil|].
  rewrite elem_of_cons, fmap_cons. simpl. intros [->|Hr]; [lia|].
  specialize (IH Hr). lia.
Qed.

Lemma get_inserted (table : list M) (r : M) :
  model_id r = BaseRepository.next_id table →
  BaseRepository.get (table ++ [r]) (model_id r) = Some r.
Proof.
  intros Hid.
  assert (Hfresh : ∀ x, x ∈ table → model_id x ≠ model_id r).
  { intros x Hx. pose proof (next_id_fresh table x Hx). lia. }
  clear Hid. induction table as [|x table IH]; simpl.
  - rewrite get_cons. by rewrite decide_True.
  - rewrite get_cons, decide_False.
    + apply IH. intros y Hy. apply Hfresh. by right.
    + apply Hfresh. by left.
Qed.
End fresh_id.

Section register_facts.
Context `{Services}.

Lemma register_free env user_in db :
  UserRepository.get_by_username db (UserCreate.username user_in) = None →
  UserRepository.get_by_email db (UserCreate.email user_in) = None →
  endpoints.auth.register env user_in db =
  (Return (UserRepository.create db env user_in).1,
   (UserRepository.create db env user_in).2).
Proof.
  intros Hu He. unfold endpoints.auth.register.
  unfold mbind, handler_bind, query. rewrite Hu. simpl.
  unfold query. rewrite He. simpl. done.
Qed.

Lemma register_response (validate_email : string → option string)
    (env : Env) (db : DB) (body : UserCreate.body) (user_in : UserCreate.t) :
  UserCreate.model_validate validate_email body = Some user_in →
  UserInDBBase.model_validate validate_email
    (UserRepository.create db env user_in).1
  = bool_decide (is_Some (validate_email (UserCreate.email user_in))).
Proof.
  intros Hvalid. unfold UserCreate.model_validate in Hvalid.
  destruct (validate_email (UserCreate.body_email body)); [|done].
  cbn [mbind option_bind] in Hvalid.
  destruct (length_between 3 50 _) eqn:Hn; [|done].
  destruct (_ <=? _)%nat; [|done]. injection Hvalid as <-.
  unfold UserInDBBase.model_validate, UserRepository.create.
  cbn [fst User.new User.email User.username User.is_active User.is_superuser
       User.kw_email User.kw_username User.kw_is_active User.kw_is_superuser
       UserCreate.email UserCreate.username] in *.
  rewrite Hn. rewrite !(bool_decide_true (is_Some (Some _))) by eauto.
  by rewrite !andb_true_r.
Qed.

(** C4. A registration whose body passes validation and whose username
    and email are free stores the account, and no token is asked for.
    The active and superuser flags of the stored account are the ones of
    the body, [true] and [false] when the body has none.  So a body with
    the superuser flag set creates a superuser account.  The request is
    answered 201 with the created account; the response renders the
    account through its schema, which validates the stored address once
    more, and a validator that refused the address it returned itself
    would make the answer a 500, with the account stored all the same. *)
Theorem register_flags (validate_email : string → option string)
    (env : Env) (db : DB) (body : UserCreate.body) (user_in : UserCreate.t) :
  UserCreate.model_validate validate_email body = Some user_in →
  UserRepository.get_by_username db (UserCreate.username user_in) = None →
  UserRepository.get_by_email db (UserCreate.email user_in) = None →
  ∃ user db',
    endpoints.auth.register env user_in db = (Return user, db')
    ∧ api.handle validate_email env None (api.POST_auth_register body) db
      = (if bool_decide (is_Some (validate_email (User.email user)))
         then Return (api.mk_response 201 (api.a_user user))
         else Raise (mk_HTTPException 500 "Internal Server Error"), db')
    ∧ User.email user = UserCreate.email user_in
    ∧ users db' = users db ++ [user]
    ∧ UserRepository.get db' (User.id user) = Some user
    ∧ User.is_active user = Some (default true (UserCreate.body_is_active body))
    ∧ User.is_superuser user
      = Some (default false (UserCreate.body_is_superuser body))
    ∧ (UserCreate.body_is_superuser body = Some true →
       truthy_bool (User.is_superuser user) = true).
Proof.
  intros Hvalid Hu He.
  eexists _, _. split_and!.
  - by apply register_free.
  - unfold api.handle. rewrite Hvalid. unfold api.validated, api.respond.
    unfold mbind at 1 2. unfold handler_bind at 1 2. cbn [mret handler_ret].
    rewrite (register_free env user_in db Hu He).
    cbn [api.response_model].
    rewrite (register_response validate_email env db body user_in Hvalid).
    change (User.email (UserRepository.create db env user_in).1)
      with (UserCreate.email user_in).
    by destruct (bool_decide _).
  - reflexivity.
  - reflexivity.
  - unfold UserRepository.get, UserRepository.create.
    cbn [fst snd users with_users].
    refine (get_inserted (users db) _ _). reflexivity.
  - unfold UserCreate.model_validate in Hvalid.
    destruct (validate_email _); [|done]. simpl in Hvalid.
    destruct (_ && _); [|done]. by injection Hvalid as <-.
  - unfold UserCreate.model_validate in Hvalid.
    destruct (validate_email _); [|done]. simpl in Hvalid.
    destruct (_ && _); [|done]. by injection Hvalid as <-.
  - intros Hs. unfold UserCreate.model_validate in Hvalid.
    destruct (validate_email _); [|done]. simpl in Hvalid.
    destruct (_ && _); [|done]. injection Hvalid as <-. simpl.
    by rewrite Hs.
Qed.

End register_facts.

Lemma register_flags_witness :
  ∃ user db',
    endpoints.auth.register (H := demo.services) demo.env
      {| UserCreate.email := "mallory@example.com";
         UserCreate.username := "mallory";
         UserCreate.full_name := None;
         UserCreate.is_active := true;
         UserCreate.is_superuser := true;
         UserCreate.password := "mallorypassword" |} example.db
    = (Return user, db')
    ∧ api.handle (H := demo.services) demo.validate_email demo.env None
        (api.POST_auth_register example.mallory) example.db
      = (Return (api.mk_response 201 (api.a_user user)), db')
    ∧ User.email user = "mallory@example.com"
    ∧ users db' = users example.db ++ [user]
    ∧ UserRepository.get db' (User.id user) = Some user
    ∧ User.is_active user = Some true
    ∧ User.is_superuser user = Some true
    ∧ (Some true = Some true → truthy_bool (User.is_superuser user) = true).
Proof.
  exact (register_flags (H := demo.services) demo.validate_email demo.env
           example.db example.mallory
           {| UserCreate.email := "mallory@example.com";
              UserCreate.username := "mallory";
              UserCreate.full_name := None;
              UserCreate.is_active := true;
              UserCreate.is_superuser := true;
              UserCreate.password := "mallorypassword" |}
           eq_refl eq_refl eq_refl).
Defined.

(** ** Running handlers *)

Lemma bind_Return {A B} (m : handler A) (k : A → handler B) db a db' :
  m db = (Return a, db') → (m ≫= k) db = k a db'.
Proof. intros E. unfold mbind, handler_bind. by rewrite E. Qed.

Lemma bind_Raise {A B} (m : handler A) (k : A → handler B) db e db' :
  m db = (Raise e, db') → (m ≫= k) db = (Raise e, db').
Proof. intros E. unfold mbind, handler_bind. by rewrite E. Qed.

Lemma raise_if_true status msg db :
  raise_if true status msg db = (Raise (mk_HTTPException status msg), db).
Proof. done. Qed.

Lemma raise_if_false status msg db :
  raise_if false status msg db = (Return (), db).
Proof. done. Qed.


Create HintDb handlers discriminated.

Lemma read_only_ret {A} (a : A) : read_only (mret a).
Proof. done. Qed.

Lemma read_only_throw {A} (e : HTTPException) : read_only (mthrow e : handler A).
Proof. done. Qed.

Lemma read_only_query {A} (f : DB → A) : read_only (query f).
Proof. done. Qed.

Lemma read_only_raise_if cond status msg : read_only (raise_if cond status msg).
Proof. by destruct cond. Qed.

Lemma read_only_attempt {A} (f : DB → option A) : read_only (attempt f).
Proof. intros db. unfold attempt. by destruct (f db). Qed.

Lemma read_only_bind {A B} (m : handler A) (k : A → handler B) :
  read_only m → (∀ a, read_only (k a)) → read_only (m ≫= k).
Proof.
  intros Hm Hk db. unfold mbind, handler_bind.
  specialize (Hm db). destruct (m db) as [[a|e] db1]; simpl in *; subst.
  - apply Hk.
  - done.
Qed.

Lemma read_only_atomic {A} (m : handler A) : read_only m → atomic m.
Proof. intros Hm db e db' E. specialize (Hm db). by rewrite E in Hm. Qed.

Lemma atomic_execute {A} (f : DB → A * DB) : atomic (execute f).
Proof. intros db e db'. unfold execute. by destruct (f db). Qed.

(** Reads and checks first, the write last: a failure of what follows a
    read-only prefix leaves the store alone. *)
Lemma atomic_bind {A B} (m : handler A) (k : A → handler B) :
  read_only m → (∀ a, atomic (k a)) → atomic (m ≫= k).
Proof.
  intros Hm Hk db e db'. unfold mbind, handler_bind.
  specialize (Hm db). destruct (m db) as [[a|e1] db1]; simpl in *; subst.
  - apply Hk.
  - by intros [= _ ->].
Qed.

(** A write followed by steps that cannot raise. *)
Lemma atomic_then_ret {A B} (m : handler A) (f : A → B) :
  atomic m → atomic (m ≫= λ a, mret (f a)).
Proof.
  intros Hm db e db'. unfold mbind, handler_bind.
  destruct (m db) as [[a|e1] db1] eqn:E; [done|].
  intros [= _ <-]. by eapply Hm.
Qed.

Global Hint Resolve read_only_ret read_only_throw read_only_query
  read_only_raise_if read_only_attempt read_only_bind atomic_execute atomic_bind
  atomic_then_ret : handlers.

Section deps_facts.
Context `{Services}.

Lemma read_only_get_current_user env authorization :
  read_only (deps.get_current_user env authorization).
Proof.
  unfold deps.get_current_user, deps.oauth2_scheme.
  apply read_only_bind.
  - destruct authorization; auto with handlers.
  - intros token. destruct (jwt_decode _ _) as [[username|]|];
      auto with handlers.
    apply read_only_bind; [auto with handlers|].
    intros [u|]; auto with handlers.
Qed.

Lemma read_only_get_current_active_user env authorization :
  read_only (deps.get_current_active_user env authorization).
Proof.
  unfold deps.get_current_active_user.
  apply read_only_bind; [apply read_only_get_current_user|].
  intros u. auto with handlers.
Qed.

Lemma read_only_get_current_active_superuser env authorization :
  read_only (deps.get_current_active_superuser env authorization).
Proof.
  unfold deps.get_current_active_superuser.
  apply read_only_bind; [apply read_only_get_current_active_user|].
  intros u. auto with handlers.
Qed.

(** What the two gates let through. *)
Lemma active_user_passes env authorization db u db' :
  deps.get_current_active_user env authorization db = (Return u, db') →
  db' = db ∧ truthy_bool (User.is_active u) = true.
Proof.
  intros E. split.
  { pose proof (read_only_get_current_active_user env authorization db) as Hr.
    by rewrite E in Hr. }
  revert E. unfold deps.get_current_active_user, mbind, handler_bind.
  destruct (deps.get_current_user env authorization db) as [[v|e] db1]; [|done].
  destruct (truthy_bool (User.is_active v)) eqn:Ea; simpl; [|done].
  by intros [= <- _].
Qed.

Lemma active_superuser_passes env authorization db u db' :
  deps.get_current_active_superuser env authorization db = (Return u, db') →
  db' = db
  ∧ truthy_bool (User.is_active u) = true
  ∧ truthy_bool (User.is_superuser u) = true.
Proof.
  unfold deps.get_current_active_superuser, mbind, handler_bind.
  destruct (deps.get_current_active_user env authorization db)
    as [[v|e] db1] eqn:E; [|done].
  apply active_user_passes in E as [-> Ha].
  destruct (truthy_bool (User.is_superuser v)) eqn:Es; simpl; [|done].
  by intros [= <- <-].
Qed.

End deps_facts.

(** ** Deleting an account *)

Lemma get_filter_out `{Model M} (table : list M) (id : Z) :
  BaseRepository.get (filter (λ r, model_id r ≠ id) table) id = None.
Proof.
  apply get_None. intros r [Hr _]%list_elem_of_filter. done.
Qed.

Lemma user_remove_found db id u :
  UserRepository.get db id = Some u →
  UserRepository.remove db id = (Some u, without_user id db).
Proof.
  intros Hget. unfold UserRepository.remove, BaseRepository.remove.
  unfold UserRepository.get in Hget. rewrite Hget.
  apply get_Some in Hget as [_ Hid]. simpl in Hid. by subst id.
Qed.

Section delete_user_facts.
Context `{Services}.

Lemma delete_user_run user_id current_user db :
  endpoints.users.delete_user user_id current_user db =
  if decide (user_id = User.id current_user) then
    (Raise (mk_HTTPException 400 "Cannot delete yourself"), db)
  else
    match UserRepository.get db user_id with
    | None => (Raise (mk_HTTPException 404 "User not found"), db)
    | Some _ => (Return (), without_user user_id db)
    end.
Proof.
  unfold endpoints.users.delete_user.
  destruct (decide (user_id = User.id current_user)) as [E|E].
  - rewrite bool_decide_eq_true_2 by done. done.
  - rewrite bool_decide_eq_false_2 by done.
    unfold mbind, handler_bind, query. simpl.
    destruct (UserRepository.get db user_id) as [u|] eqn:Hget; simpl; [|done].
    unfold execute. by rewrite (user_remove_found db user_id u Hget).
Qed.

(** C9. A caller who passes the superuser gate and asks to delete the
    account of their own id is answered 400 and the store is left as it
    was; the handler makes that check first, whatever the flags of the
    caller.  For another id the answer is 404, the store unchanged, when
    no account has it; otherwise 204, and the account is gone from the
    store together with the items it owned. *)
Theorem delete_user_spec (validate_email : string → option string)
    (env : Env) (authorization : option string) (db db0 : DB)
    (current_user : User.t) (user_id : Z) :
  deps.get_current_active_superuser env authorization db
    = (Return current_user, db0) →
  (∀ caller : User.t,
      endpoints.users.delete_user (User.id caller) caller db
      = (Raise (mk_HTTPException 400 "Cannot delete yourself"), db))
  ∧ api.handle validate_email env authorization (api.DELETE_users_id user_id) db
    = (if decide (user_id = User.id current_user) then
         (Raise (mk_HTTPException 400 "Cannot delete yourself"), db)
       else
         match UserRepository.get db user_id with
         | None => (Raise (mk_HTTPException 404 "User not found"), db)
         | Some _ =>
             (Return (api.mk_response 204 api.no_content),
              without_user user_id db)
         end)
  ∧ UserRepository.get (without_user user_id db) user_id = None
  ∧ (∀ v, v ∈ users (without_user user_id db) ↔
          v ∈ users db ∧ User.id v ≠ user_id).
Proof.
  intros Hgate.
  pose proof Hgate as (-> & _)%active_superuser_passes.
  split_and!.
  - intros caller. rewrite delete_user_run. by rewrite decide_True.
  - unfold api.handle. rewrite (bind_Return _ _ _ _ _ Hgate).
    unfold api.respond, mbind, handler_bind. rewrite delete_user_run.
    destruct (decide (user_id = User.id current_user)); [done|].
    by destruct (UserRepository.get db user_id).
  - exact (get_filter_out (users db) user_id).
  - intros v. simpl. rewrite list_elem_of_filter. tauto.
Qed.

End delete_user_facts.

Lemma delete_user_spec_witness :
  (∀ caller : User.t,
      endpoints.users.delete_user (User.id caller) caller example.db
      = (Raise (mk_HTTPException 400 "Cannot delete yourself"), example.db))
  ∧ api.handle (H := demo.services) demo.validate_email demo.env (Some "admin")
      (api.DELETE_users_id 1) example.db
    = (Return (api.mk_response 204 api.no_content),
       {| users := [example.bob; example.admin]; products := [example.gizmo] |})
  ∧ UserRepository.get (without_user 1 example.db) 1 = None
  ∧ (∀ v, v ∈ users (without_user 1 example.db) ↔
          v ∈ users example.db ∧ User.id v ≠ 1).
Proof.
  exact (delete_user_spec (H := demo.services) demo.validate_email demo.env
           (Some "admin") example.db example.db example.admin 1 eq_refl).
Defined.

(** ** Ownership of items *)



(** C1. Bob is active, is not a superuser and does not own the widget.
    His update and his deletion of the widget are answered 403 and leave
    the store as it was, but his stock adjustment is answered 200 and
    changes the quantity of the widget from 5 to 2: [update_product_stock]
    has no ownership check. *)
Theorem stock_adjustment_skips_ownership :
  truthy_bool (User.is_active example.bob) = true
  ∧ endpoints.products.not_permitted example.widget example.bob = true
  ∧ ProductRepository.get example.db 10 = Some example.widget
  ∧ api.handle (H := demo.services) demo.validate_email demo.env (Some "bob")
      (api.PUT_products_id 10
         (ProductUpdate.mk None None None None (Some 2) None None None))
      example.db
    = (Raise (mk_HTTPException 403 "Not enough permissions"), example.db)
  ∧ api.handle (H := demo.services) demo.validate_email demo.env (Some "bob")
      (api.DELETE_products_id 10) example.db
    = (Raise (mk_HTTPException 403 "Not enough permissions"), example.db)
  ∧ api.handle (H := demo.services) demo.validate_email demo.env (Some "bob")
      (api.PATCH_products_id_stock 10 (-3)) example.db
    = (Return (api.mk_response 200
         (api.a_product
            (Product.with_updated_at 1000
               (Product.with_quantity 2 example.widget)))),
       with_products
         [Product.with_updated_at 1000 (Product.with_quantity 2 example.widget);
          example.gadget; example.gizmo]
         example.db).
Proof. by vm_compute. Qed.

(** ** Listing items *)

Lemma length_page {A} (skip limit : Z) (l : list A) :
  0 ≤ limit →
  length (BaseRepository.page skip limit l)
  = (Z.to_nat limit `min` (length l - Z.to_nat skip))%nat.
Proof.
  intros Hl. rewrite page_run, decide_True by done.
  by rewrite length_take, length_drop.
Qed.

Section listing_facts.
Context `{Services}.

Lemma get_multi_Some `{Model M} (table : list M) skip limit order_by
    order_direction result :
  BaseRepository.get_multi table skip limit order_by order_direction
    = Some result →
  ∃ query, query ≡ₚ table ∧ result = BaseRepository.page skip limit query.
Proof.
  unfold BaseRepository.get_multi. intros E.
  apply bind_Some in E as (query & Hq & [= <-]).
  exists query. split; [|done].
  destruct order_by as [field|]; [|by injection Hq as <-].
  destruct (truthy_str _); [|by injection Hq as <-].
  destruct (bool_decide (field ∈ columns)).
  - destruct (String.eqb _ _); injection Hq as <-;
      apply merge_sort_Permutation.
  - destruct (bool_decide _); [done|]. by injection Hq as <-.
Qed.

Lemma length_get_multi `{Model M} (table : list M) skip limit order_by
    order_direction result :
  0 ≤ limit →
  BaseRepository.get_multi table skip limit order_by order_direction
    = Some result →
  length result = (Z.to_nat limit `min` (length table - Z.to_nat skip))%nat.
Proof.
  intros Hl (query & Hperm & ->)%get_multi_Some.
  rewrite length_page by done.
  by rewrite (Permutation_length Hperm).
Qed.

(** [get_multi] has a result unless [order_by] names an attribute that
    is not a column. *)
Lemma get_multi_is_Some `{Model M} (table : list M) skip limit order_by
    order_direction :
  (∀ field, order_by = Some field →
            field ∉ other_attributes ++ inherited_attributes) →
  is_Some (BaseRepository.get_multi table skip limit order_by order_direction).
Proof.
  intros Hno. unfold BaseRepository.get_multi.
  destruct order_by as [field|]; [|by eexists].
  destruct (truthy_str _); [|by eexists].
  destruct (bool_decide (field ∈ columns)).
  - by destruct (String.eqb _ _); eexists.
  - rewrite bool_decide_eq_false_2 by auto. by eexists.
Qed.

Lemma ceil_div (total n : Z) :
  0 < n →
  let pages := (total + n - 1) `div` n in
  (pages - 1) * n < total ≤ pages * n.
Proof.
  intros Hn pages. subst pages.
  pose proof (Z.div_mod (total + n - 1) n ltac:(lia)) as Hd.
  pose proof (Z.mod_pos_bound (total + n - 1) n Hn) as Hm.
  nia.
Qed.

(** The listing [read_products] selects by its query parameters, and the
    answer it makes of it. *)
Lemma read_products_run pagination search category low_stock current_user db :
  endpoints.products.read_products pagination search category low_stock
    current_user db
  = match listing pagination search category low_stock db with
    | Some items =>
        if forallb ProductInDBBase.model_validate items then
          (Return
             {| ProductList.items := items;
                ProductList.total := ProductRepository.count db;
                ProductList.page := PaginationParams.page pagination;
                ProductList.size := PaginationParams.size pagination;
                ProductList.pages :=
                  (ProductRepository.count db + PaginationParams.size pagination - 1)
                  `div` PaginationParams.size pagination |}, db)
        else (Raise (mk_HTTPException 500 "Internal Server Error"), db)
    | None => (Raise (mk_HTTPException 500 "Internal Server Error"), db)
    end.
Proof.
  unfold endpoints.products.read_products, listing, ProductList.init.
  unfold mbind at 1. unfold handler_bind.
  destruct (truthy_str search);
    [unfold query, mbind, handler_bind, attempt;
     by destruct (forallb _ _)|].
  destruct (truthy_str category);
    [unfold query, mbind, handler_bind, attempt;
     by destruct (forallb _ _)|].
  destruct low_stock;
    [unfold query, mbind, handler_bind, attempt;
     by destruct (forallb _ _)|].
  unfold attempt at 1.
  destruct (ProductRepository.get_multi _ _ _ _ _); [|done].
  unfold query, mbind, handler_bind, attempt. by destruct (forallb _ _).
Qed.

Lemma listing_sublist pagination search category low_stock db items p :
  listing pagination search category low_stock db = Some items →
  p ∈ items → p ∈ products db.
Proof.
  unfold listing.
  destruct (truthy_str search); [|destruct (truthy_str category);
    [|destruct low_stock]].
  - intros [= <-] Hp. unfold ProductRepository.search in Hp.
    eapply elem_of_sublist in Hp; [|apply page_sublist].
    by apply list_elem_of_filter in Hp as [_ ?].
  - intros [= <-] Hp. unfold ProductRepository.get_by_category in Hp.
    eapply elem_of_sublist in Hp; [|apply page_sublist].
    by apply list_elem_of_filter in Hp as [_ ?].
  - intros [= <-] Hp. unfold ProductRepository.get_low_stock in Hp.
    eapply elem_of_sublist in Hp; [|apply page_sublist].
    by apply list_elem_of_filter in Hp as [_ ?].
  - intros (query & Hperm & ->)%get_multi_Some Hp.
    eapply elem_of_sublist in Hp; [|apply page_sublist].
    by rewrite Hperm in Hp.
Qed.

Lemma listing_length pagination search category low_stock db items :
  0 ≤ PaginationParams.limit pagination →
  listing pagination search category low_stock db = Some items →
  Z.of_nat (length items) ≤ PaginationParams.limit pagination
  ∧ (truthy_str search = false → truthy_str category = false →
     low_stock = false →
     length items
     = (Z.to_nat (PaginationParams.limit pagination)
        `min` (length (products db)
               - Z.to_nat (PaginationParams.skip pagination)))%nat).
Proof.
  intros Hlimit. unfold listing.
  destruct (truthy_str search); [|destruct (truthy_str category);
    [|destruct low_stock]].
  - intros [= <-]. split; [|done]. by apply page_length.
  - intros [= <-]. split; [|done]. by apply page_length.
  - intros [= <-]. split; [|done]. by apply page_length.
  - intros Hl%length_get_multi; [|done]. split; [lia|done].
Qed.

(** C2. Whatever the filter mode, a listing that [read_products] answers
    has [total] the number of stored items and
    [pages = (total + size - 1) div size], which is the ceiling of
    [total / size] for the clamped [size]; the store is left as it was.
    Over three stored items, page 1 of size 2 has [pages = 2] in every
    mode, and two items in the listing without filter.  The request is
    answered when every stored item passes the schema of the response
    (the constructor of the list validates the items it is given) and,
    in the mode without filter, [order_by] names no attribute of the
    class that is not a column. *)
Theorem read_products_total_pages (db : DB) (page size : Z)
    (order_by : option string) (order_direction : string)
    (search category : option string) (low_stock : bool)
    (current_user : User.t) :
  let pagination := PaginationParams.init page size order_by order_direction in
  let n := PaginationParams.size pagination in
  let answer :=
    endpoints.products.read_products pagination search category low_stock
      current_user db in
  (∀ l db', answer = (Return l, db') →
     db' = db
     ∧ ProductList.total l = Z.of_nat (length (products db))
     ∧ n = Z.min 100 (Z.max 1 size)
     ∧ ProductList.size l = n
     ∧ ProductList.pages l = (ProductList.total l + n - 1) `div` n
     ∧ (ProductList.pages l - 1) * n < ProductList.total l ≤ ProductList.pages l * n
     ∧ Z.of_nat (length (ProductList.items l)) ≤ n
     ∧ (length (products db) = 3%nat → page = 1 → size = 2 →
          ProductList.pages l = 2
          ∧ (truthy_str search = false → truthy_str category = false →
             low_stock = false → length (ProductList.items l) = 2%nat)))
  ∧ (Forall (λ p, ProductInDBBase.model_validate p = true) (products db) →
     (truthy_str search = true ∨ truthy_str category = true ∨ low_stock = true
      ∨ ∀ field, order_by = Some field →
                 field ∉ Product.other_attributes ++ inherited_attributes) →
     ∃ l, answer = (Return l, db)).
Proof.
  intros pagination n answer. subst answer.
  assert (Hn : 1 ≤ n ≤ 100) by (subst n pagination; simpl; lia).
  rewrite read_products_run. split.
  - intros l db'.
    destruct (listing pagination search category low_stock db)
      as [items|] eqn:Hl; [|done].
    destruct (forallb _ items); [|done].
    intros [= <- <-].
    cbn [ProductList.items ProductList.total ProductList.size ProductList.pages].
    unfold ProductRepository.count, BaseRepository.count. fold n.
    apply listing_length in Hl as [Hlen Hdefault];
      [|change (PaginationParams.limit pagination) with n; lia].
    pose proof (ceil_div (Z.of_nat (length (products db))) n ltac:(lia)) as Hceil.
    cbn zeta in Hceil.
    split; [done|]. split; [done|]. split; [done|]. split; [done|].
    split; [done|]. split; [exact Hceil|].
    split; [change (PaginationParams.limit pagination) with n in Hlen; lia|].
    intros H3 Hpage Hsize. subst page size. rewrite H3. split; [done|].
    intros Hs Hc Hlow. rewrite (Hdefault Hs Hc Hlow), H3. done.
  - intros Hvalid Hmode.
    assert (is_Some (listing pagination search category low_stock db))
      as [items Hitems].
    { unfold listing.
      destruct (truthy_str search); [by eexists|].
      destruct (truthy_str category); [by eexists|].
      destruct low_stock; [by eexists|].
      destruct Hmode as [?|[?|[?|Hno]]]; [done..|].
      by apply get_multi_is_Some. }
    rewrite Hitems.
    assert (forallb ProductInDBBase.model_validate items = true) as ->;
      [|by eexists].
    apply forallb_forall. intros p Hp%list_elem_of_In.
    apply (proj1 (Forall_forall _ _) Hvalid).
    by eapply listing_sublist.
Qed.

End listing_facts.

Example read_products_three_items :
  api.handle (H := demo.services) demo.validate_email demo.env (Some "bob")
    (api.GET_products 1 2 None "asc" None None false) example.db
  = (Return (api.mk_response 200
       (api.a_product_list
          {| ProductList.items := [example.widget; example.gadget];
             ProductList.total := 3; ProductList.page := 1;
             ProductList.size := 2; ProductList.pages := 2 |})),
     example.db).
Proof. by vm_compute. Qed.

(** Ordering the items by the name of a property, or of an attribute
    that the class inherits, is answered 500. *)
Example read_products_order_by_property :
  api.handle (H := demo.services) demo.validate_email demo.env (Some "bob")
    (api.GET_products 1 2 (Some "is_low_stock") "asc" None None false)
    example.db
  = (Raise (mk_HTTPException 500 "Internal Server Error"), example.db)
  ∧ api.handle (H := demo.services) demo.validate_email demo.env (Some "bob")
      (api.GET_products 1 2 (Some "metadata") "asc" None None false)
      example.db
    = (Raise (mk_HTTPException 500 "Internal Server Error"), example.db).
Proof. by vm_compute. Qed.

(** So is a listing that holds an item without threshold: the list of
    the response cannot be made. *)
Example read_products_without_threshold :
  api.handle (H := demo.services) demo.validate_email demo.env (Some "bob")
    (api.GET_products 1 2 None "asc" None None false)
    (with_products
       [Product.with_min_stock None example.widget] example.db)
  = (Raise (mk_HTTPException 500 "Internal Server Error"),
     with_products [Product.with_min_stock None example.widget] example.db).
Proof. by vm_compute. Qed.

(** ** Failed requests *)

(** Unfolds the steps of a handler into the pairs they compute. *)
Ltac run_handler :=
  unfold raise_if, query, attempt, execute;
  unfold mbind, handler_bind, mthrow, handler_throw, mret, handler_ret.

(** Peels a handler made of reads, checks and a final write. *)
Ltac handler_steps :=
  repeat first
    [ progress intros
    | apply read_only_ret | apply read_only_throw | apply read_only_query
    | apply read_only_raise_if | apply read_only_attempt
    | apply read_only_bind
    | apply atomic_execute
    | match goal with
      | |- atomic (mthrow _) => apply read_only_atomic
      | |- atomic (mret _) => apply read_only_atomic
      | |- atomic (query _) => apply read_only_atomic
      | |- atomic (attempt _) => apply read_only_atomic
      | |- atomic (raise_if _ _ _) => apply read_only_atomic
      end
    | apply atomic_then_ret
    | apply atomic_bind
    | match goal with
      | |- context [match ?x with Some _ => _ | None => _ end] => destruct x
      | |- context [if ?c then _ else _] => destruct c
      end ].

Lemma atomic_but_bind code {A B} (m : handler A) (k : A → handler B) :
  read_only m → (∀ a, atomic_but code (k a)) → atomic_but code (m ≫= k).
Proof.
  intros Hm Hk db e db'. unfold mbind, handler_bind.
  specialize (Hm db). destruct (m db) as [[a|e'] db1]; simpl in Hm; subst db1.
  - apply Hk.
  - by intros [= _ <-].
Qed.

(** A response that its schema refuses is answered 500 after the handler
    has written; every other error of the operation is the handler's. *)
Lemma atomic_but_respond (validate_email : string → option string) {A} code
    (wrap : A → api.content) (h : handler A) :
  atomic h → atomic_but 500 (api.respond validate_email code wrap h).
Proof.
  intros Hh db e db'. unfold api.respond, mbind, handler_bind.
  specialize (Hh db). destruct (h db) as [[a|e'] db1].
  - destruct (api.response_model _ _); [done|]. by intros [= <- _].
  - intros [= <- <-] _. by eapply Hh.
Qed.

Lemma read_only_validated {A} (body : option A) :
  read_only (api.validated body).
Proof. by destruct body. Qed.

Lemma read_only_respond (validate_email : string → option string) {A} code
    (wrap : A → api.content) (h : handler A) :
  read_only h → read_only (api.respond validate_email code wrap h).
Proof.
  intros Hh. unfold api.respond. apply read_only_bind; [done|].
  intros a. destruct (api.response_model _ _); auto with handlers.
Qed.

Section endpoint_facts.
Context `{Services}.

Lemma atomic_login env username password :
  atomic (endpoints.auth.login env username password).
Proof. unfold endpoints.auth.login. handler_steps. Qed.

Lemma atomic_register env user_in :
  atomic (endpoints.auth.register env user_in).
Proof. unfold endpoints.auth.register. handler_steps. Qed.

Lemma atomic_update_user_me env user_in current_user :
  atomic (endpoints.users.update_user_me env user_in current_user).
Proof. unfold endpoints.users.update_user_me. handler_steps. Qed.

Lemma atomic_read_user_by_id user_id current_user :
  atomic (endpoints.users.read_user_by_id user_id current_user).
Proof. unfold endpoints.users.read_user_by_id. handler_steps. Qed.

Lemma atomic_delete_user user_id current_user :
  atomic (endpoints.users.delete_user user_id current_user).
Proof. unfold endpoints.users.delete_user. handler_steps. Qed.

End endpoint_facts.

Lemma atomic_read_products `{Services} pagination search category low_stock current_user :
  atomic (endpoints.products.read_products pagination search category
            low_stock current_user).
Proof. unfold endpoints.products.read_products. handler_steps. Qed.

Lemma atomic_create_product env product_in current_user :
  atomic (endpoints.products.create_product env product_in current_user).
Proof. unfold endpoints.products.create_product. handler_steps. Qed.

Lemma atomic_get_inventory_value `{Services} current_user :
  atomic (endpoints.products.get_inventory_value current_user).
Proof. unfold endpoints.products.get_inventory_value. handler_steps. Qed.

Lemma atomic_read_product product_id current_user :
  atomic (endpoints.products.read_product product_id current_user).
Proof. unfold endpoints.products.read_product. handler_steps. Qed.

Lemma atomic_update_product env product_id product_in current_user :
  atomic (endpoints.products.update_product env product_id product_in
            current_user).
Proof. unfold endpoints.products.update_product. handler_steps. Qed.

Lemma atomic_delete_product product_id current_user :
  atomic (endpoints.products.delete_product product_id current_user).
Proof. unfold endpoints.products.delete_product. handler_steps. Qed.

(** The stock adjustment writes before it checks; it raises only when the
    repository found no item, and then nothing was written. *)
Lemma atomic_update_product_stock env product_id quantity_change current_user :
  atomic (endpoints.products.update_product_stock env product_id
            quantity_change current_user).
Proof.
  intros db e db'. unfold endpoints.products.update_product_stock.
  unfold mbind, handler_bind, execute.
  destruct (ProductRepository.get db product_id) as [p|] eqn:Hget.
  - destruct (update_stock_found db env product_id quantity_change p Hget)
      as (p' & db1 & -> & _). done.
  - rewrite (update_stock_missing db env product_id quantity_change Hget).
    by intros [= _ <-].
Qed.

Section api_facts.
Context `{Services}.
Variable validate_email : string → option string.

(** C10. A request that is answered 400, 401, 403, 404 or 422 leaves the
    store as it found it: in every operation the dependencies and the
    checks of validity, uniqueness, existence, ownership and
    self-deletion run before the one repository call that writes, and the
    stock adjustment, which calls the repository first, fails only when
    that call wrote nothing.  (A 500 is another matter: the response is
    validated after the handler has committed.) *)
Theorem errors_leave_store (env : Env) (authorization : option string)
    (req : api.request) (db db' : DB) (e : HTTPException) :
  api.handle validate_email env authorization req db = (Raise e, db') →
  client_error e →
  db' = db.
Proof.
  intros Hrun Herror.
  assert (Hcode : status_code e ≠ 500).
  { unfold client_error in Herror. intros E. rewrite E in Herror.
    repeat (apply elem_of_cons in Herror as [?|Herror]; [done|]).
    by apply elem_of_nil in Herror. }
  revert db e db' Hrun Herror Hcode.
  cut (atomic_but 500 (api.handle validate_email env authorization req)).
  { intros Hh db e db' Hrun _ Hcode. by eapply Hh. }
  pose proof (read_only_get_current_active_user env authorization) as Huser.
  pose proof (read_only_get_current_active_superuser env authorization) as Hsuper.
  unfold api.handle.
  destruct req;
    repeat (apply atomic_but_bind;
            [first [exact Huser | exact Hsuper | apply read_only_validated]
            |intros ?]);
    apply atomic_but_respond.
  - apply atomic_register.
  - apply atomic_login.
  - apply read_only_atomic, read_only_ret.
  - apply atomic_update_user_me.
  - apply read_only_atomic, read_only_attempt.
  - apply atomic_read_user_by_id.
  - apply atomic_delete_user.
  - apply atomic_read_products.
  - apply atomic_create_product.
  - apply read_only_atomic, read_only_query.
  - apply read_only_atomic, read_only_query.
  - apply atomic_get_inventory_value.
  - apply atomic_read_product.
  - apply atomic_update_product.
  - apply atomic_delete_product.
  - apply atomic_update_product_stock.
Qed.

End api_facts.

Lemma errors_leave_store_witness :
  api.handle (H := demo.services) demo.validate_email demo.env None
    (api.POST_auth_register example.alice_again) example.db
  = (Raise (mk_HTTPException 400 "Username already registered"), example.db)
  ∧ example.db = example.db.
Proof.
  split; [reflexivity|].
  apply (errors_leave_store (H := demo.services) demo.validate_email demo.env
           None (api.POST_auth_register example.alice_again)
           example.db example.db
           (mk_HTTPException 400 "Username already registered") eq_refl).
  unfold client_error. simpl. by left.
Defined.

(** Alice takes the threshold off her widget: the update is committed,
    and then the response, which needs a threshold, is refused. *)
Example update_committed_then_refused :
  api.handle (H := demo.services) demo.validate_email demo.env (Some "alice")
    (api.PUT_products_id 10
       {| ProductUpdate.name := None; ProductUpdate.description := None;
          ProductUpdate.sku := None; ProductUpdate.price := None;
          ProductUpdate.quantity := None; ProductUpdate.image_url := None;
          ProductUpdate.category := None;
          ProductUpdate.min_stock := Some None |})
    example.db
  = (Raise (mk_HTTPException 500 "Internal Server Error"),
     with_products
       [Product.with_updated_at 1000
          (Product.with_min_stock None example.widget);
        example.gadget; example.gizmo]
       example.db).
Proof. by vm_compute. Qed.

(** ** Ordering *)

Global Instance value_le_total : Total value_le.
Proof.
  intros a b. unfold value_le.
  destruct a, b; simpl; try (by left); try (by right).
  - destruct b, b0; auto.
  - destruct (Z.leb_spec n n0); [by left|right]. apply Z.leb_le. lia.
  - destruct (Qlt_le_dec q q0) as [Hlt|Hle].
    + left. apply Qle_bool_iff. by apply Qlt_le_weak.
    + right. by apply Qle_bool_iff.
  - apply String.leb_total.
  - destruct (Z.leb_spec t t0); [by left|right]. apply Z.leb_le. lia.
Qed.

Global Instance value_le_trans : Transitive value_le.
Proof.
  intros a b c. unfold value_le.
  destruct a, b, c; simpl; try done.
  - destruct b, b0, b1; done.
  - rewrite !Z.leb_le. lia.
  - rewrite !Qle_bool_iff. apply Qle_trans.
  - intros H1%Is_true_true H2%Is_true_true. apply Is_true_true.
    by trans s0.
  - rewrite !Z.leb_le. lia.
Qed.

Section order_facts.
Context `{Model M} `{Services}.

Global Instance asc_total field : Total (BaseRepository.asc field).
Proof. intros a b. apply value_le_total. Qed.

Global Instance asc_trans field : Transitive (BaseRepository.asc field).
Proof. intros a b c. apply value_le_trans. Qed.

Global Instance desc_total field : Total (BaseRepository.desc field).
Proof. intros a b. apply value_le_total. Qed.

Global Instance desc_trans field : Transitive (BaseRepository.desc field).
Proof. intros a b c Hab Hbc. by apply (value_le_trans _ _ _ Hbc Hab). Qed.






End order_facts.


(** ** Updates *)

Lemma assoc_cons {A} (k k' : string) (v : A) (d : list (string * A)) :
  assoc k ((k', v) :: d) = if decide (k' = k) then Some v else assoc k d.
Proof.
  unfold assoc. rewrite (first_cons (λ kv : string * A, kv.1 = k)). simpl.
  by case_decide.
Qed.

Global Instance Product_ModelLaws : ModelLaws Product.t.
Proof.
  split.
  - done.
  - intros m i k Hk. unfold getattr.
    destruct i; simpl in *; unfold Product.dict; simpl;
      rewrite !assoc_cons; repeat case_decide; congruence.
  - intros m i _. unfold getattr. by destruct i.
  - by intros m [].
  - intros now m k Hk. unfold getattr. simpl. unfold Product.dict. simpl.
    rewrite !assoc_cons; repeat case_decide; congruence.
  - done.
  - done.
Qed.

Global Instance User_ModelLaws : ModelLaws User.t.
Proof.
  split.
  - done.
  - intros m i k Hk. unfold getattr.
    destruct i; simpl in *; unfold User.dict; simpl;
      rewrite ?assoc_cons; repeat case_decide; congruence.
  - intros m i Hcol. unfold getattr. destruct i; try done.
    exfalso. revert Hcol. simpl. unfold User.columns.
    rewrite !elem_of_cons, elem_of_nil. intros H. repeat destruct H as [H|H]; done.
  - by intros m [].
  - intros now m k Hk. unfold getattr. simpl. unfold User.dict. simpl.
    rewrite !assoc_cons; repeat case_decide; congruence.
  - done.
  - done.
Qed.

Lemma value_eqb_refl (v : value) : value_eqb v v = true.
Proof.
  destruct v; simpl; try done.
  - by destruct b.
  - apply Z.eqb_refl.
  - apply Qeq_bool_iff. reflexivity.
  - apply String.eqb_refl.
  - apply Z.eqb_refl.
Qed.

Lemma attr_eq_refl (a : option value) : attr_eq a a.
Proof. destruct a; simpl; [apply value_eqb_refl|done]. Qed.

(** Two dicts with the same keys whose values compare equal give
    attributes that compare equal. *)
Lemma same_values_assoc (da db : list (string * value)) (k : string) :
  da.*1 = db.*1 →
  forallb (λ xy, value_eqb xy.1.2 xy.2.2) (zip da db) = true →
  attr_eq (assoc k da) (assoc k db).
Proof.
  revert db. induction da as [|[ka va] da IH]; intros [|[kb vb] db]; try done.
  simpl. intros [= <- Hkeys] [Hv Hrest]%andb_true_iff.
  rewrite !assoc_cons. case_decide; [done|]. by apply IH.
Qed.

Section update_facts.
Context `{Model M, !UpdateSchema M, !ModelLaws M}.
Implicit Types (obj db_obj : M) (data : list item) (table : list M).

Lemma assigned_frame db_obj data k :
  k ∉ item_key <$> data → getattr (assigned db_obj data) k = getattr db_obj k.
Proof.
  revert db_obj. induction data as [|i data IH]; intros db_obj Hk; [done|].
  rewrite fmap_cons, not_elem_of_cons in Hk. destruct Hk as [Hi Hk].
  unfold assigned. simpl. fold (assigned (if hasattr db_obj (item_key i)
    then setattr db_obj i else db_obj) data).
  rewrite IH by done. destruct (hasattr _ _); [|done].
  by apply setattr_frame.
Qed.

Lemma assigned_value db_obj data i :
  NoDup (item_key <$> data) → i ∈ data → item_key i ∈ columns →
  getattr (assigned db_obj data) (item_key i) = Some (item_value i).
Proof.
  revert db_obj. induction data as [|j data IH]; intros db_obj Hnd Hi Hcol.
  { by apply elem_of_nil in Hi. }
  rewrite fmap_cons in Hnd. apply NoDup_cons in Hnd as [Hj Hnd].
  unfold assigned. simpl. fold (assigned (if hasattr db_obj (item_key j)
    then setattr db_obj j else db_obj) data).
  apply elem_of_cons in Hi as [->|Hi].
  - rewrite assigned_frame by done. unfold hasattr.
    rewrite bool_decide_eq_true_2 by (apply elem_of_app; by left).
    by apply setattr_value.
  - by apply IH.
Qed.

Lemma assigned_id db_obj data :
  model_id (assigned db_obj data) = model_id db_obj.
Proof.
  revert db_obj. induction data as [|i data IH]; intros db_obj; [done|].
  unfold assigned. simpl. fold (assigned (if hasattr db_obj (item_key i)
    then setattr db_obj i else db_obj) data).
  rewrite IH. destruct (hasattr _ _); [|done]. apply setattr_id.
Qed.

Lemma same_row_attr (a b : M) k :
  BaseRepository.same_row a b = true → attr_eq (getattr a k) (getattr b k).
Proof.
  intros E. unfold getattr. apply same_values_assoc; [|done].
  by rewrite !dict_keys.
Qed.

Lemma update_run table now db_obj obj_in :
  BaseRepository.update table now db_obj obj_in =
  BaseRepository.commit table now db_obj (assigned db_obj (update_items obj_in)).
Proof. by destruct obj_in. Qed.

Lemma rewritten_others table id (row r : M) :
  model_id r ≠ id → model_id row = id →
  r ∈ (λ x, if decide (model_id x = id) then row else x) <$> table ↔ r ∈ table.
Proof.
  intros Hr Hrow. rewrite list_elem_of_fmap. split.
  - intros (x & -> & Hx). case_decide; [congruence|done].
  - intros Hin. exists r. by rewrite decide_False.
Qed.

(** C7, as the code has it.  [update] returns the entity in which each
    item of the payload that names a column has been assigned (the
    attribute then compares equal to the value of the payload) and in
    which every attribute that the payload does not name, other than
    [updated_at], has the value it had.  [updated_at] is the exception:
    unless the update changes nothing, the store sets it to the time of
    the commit.  The returned entity is the stored row of its primary
    key, and the rows of other keys are as they were. *)
Theorem update_merge_patch (table : list M) (now : Z) (db_obj : M)
    (obj_in : UpdateSchemaType + list item) :
  let '(obj, table') := BaseRepository.update table now db_obj obj_in in
  (∀ k, k ≠ "updated_at" → k ∉ update_keys obj_in →
        getattr obj k = getattr db_obj k)
  ∧ (NoDup (update_keys obj_in) →
     ∀ i, i ∈ update_items obj_in → item_key i ∈ columns →
          item_key i ≠ "updated_at" →
          attr_eq (getattr obj (item_key i)) (Some (item_value i)))
  ∧ model_id obj = model_id db_obj
  ∧ (BaseRepository.get table (model_id db_obj) = Some db_obj →
     BaseRepository.get table' (model_id db_obj) = Some obj)
  ∧ (∀ r, model_id r ≠ model_id db_obj → r ∈ table' ↔ r ∈ table)
  ∧ ((obj = db_obj ∧ table' = table)
     ∨ getattr obj "updated_at" = Some (VTime now)).
Proof.
  rewrite update_run. set (data := update_items obj_in).
  assert (Hkeys : update_keys obj_in = item_key <$> data) by by destruct obj_in.
  rewrite Hkeys. clear Hkeys.
  pose proof (assigned_id db_obj data) as Hid.
  destruct (BaseRepository.same_row db_obj (assigned db_obj data)) eqn:E.
  - rewrite commit_unchanged by done. split_and!; try done.
    + intros Hnd i Hi Hcol _.
      rewrite <- (assigned_value db_obj data i Hnd Hi Hcol).
      by apply same_row_attr.
    + by left.
  - rewrite commit_changed by done. split_and!.
    + intros k Hk Hnot. rewrite onupdate_frame by done.
      by apply assigned_frame.
    + intros Hnd i Hi Hcol Hnot. rewrite onupdate_frame by done.
      rewrite (assigned_value db_obj data i Hnd Hi Hcol). apply attr_eq_refl.
    + by rewrite onupdate_id.
    + intros Hget. apply (get_rewrite table _ db_obj); [done|].
      by rewrite onupdate_id.
    + intros r Hr. apply rewritten_others; [done|]. by rewrite onupdate_id.
    + right. apply onupdate_value.
Qed.

End update_facts.

Lemma update_merge_patch_witness :
  let '(obj, table') :=
    BaseRepository.update (products example.db) 1000 example.widget
      (inl example.sprocket) in
  (∀ k, k ≠ "updated_at" → k ∉ ["name"; "quantity"] →
        getattr obj k = getattr example.widget k)
  ∧ (NoDup ["name"; "quantity"] →
     ∀ i, i ∈ [Product.Name "Sprocket"; Product.Quantity 7] →
          item_key i ∈ Product.columns →
          item_key i ≠ "updated_at" →
          attr_eq (getattr obj (item_key i)) (Some (item_value i)))
  ∧ model_id obj = 10
  ∧ (BaseRepository.get (products example.db) 10 = Some example.widget →
     BaseRepository.get table' 10 = Some obj)
  ∧ (∀ r, model_id r ≠ 10 → r ∈ table' ↔ r ∈ products example.db)
  ∧ ((obj = example.widget ∧ table' = products example.db)
     ∨ getattr obj "updated_at" = Some (VTime 1000)).
Proof.
  exact (update_merge_patch (products example.db) 1000 example.widget
           (inl example.sprocket)).
Defined.

(** C7, as it was claimed: the update of the widget names only its name
    and its quantity, and yet the returned entity has a new [updated_at],
    the time of the commit. *)
Lemma update_merge_patch_counterexample :
  ¬ (∀ (table : list Product.t) (now : Z) (db_obj : Product.t)
       (obj_in : ProductUpdate.t + list Product.item) (k : string),
       k ∈ Product.columns → k ∉ update_keys obj_in →
       getattr (BaseRepository.update table now db_obj obj_in).1 k
       = getattr db_obj k).
Proof.
  intros Hclaim.
  specialize (Hclaim (products example.db) 1000 example.widget
                (inl example.sprocket) "updated_at").
  assert (Hin : "updated_at" ∈ Product.columns)
    by (unfold Product.columns; repeat first [by left | right]).
  specialize (Hclaim Hin).
  assert (Hnot : "updated_at" ∉ ["name"; "quantity"]).
  { rewrite !not_elem_of_cons. split_and!; try done. apply not_elem_of_nil. }
  specialize (Hclaim Hnot).
  by vm_compute in Hclaim.
Qed.

(** ** Quantities are never negative

    The hypothesis of the round trip of stock adjustments: no request
    takes the store out of the states in which every quantity is at least
    zero. *)

Lemma commit_elem `{Model M} (table : list M) now loaded db_obj r :
  r ∈ (BaseRepository.commit table now loaded db_obj).2 →
  r ∈ table ∨ r = onupdate now db_obj.
Proof.
  unfold BaseRepository.commit. destruct (BaseRepository.same_row _ _); simpl.
  - by left.
  - intros (x & -> & Hx)%list_elem_of_fmap. case_decide; [by right|by left].
Qed.

(** Every item of a product update names a column. *)
Lemma product_assigned_cons (p : Product.t) (i : Product.item)
    (data : list Product.item) :
  assigned p (i :: data) = assigned (Product.setattr p i) data.
Proof. by destruct i. Qed.

Lemma quantity_assigned (p : Product.t) (data : list Product.item) :
  Product.quantity (assigned p data) = quantity_after (Product.quantity p) data.
Proof.
  revert p. induction data as [|i data IH]; intros p; [done|].
  rewrite product_assigned_cons, IH.
  simpl. f_equal. by destruct i.
Qed.

Lemma quantity_after_nonneg (q : Z) (data : list Product.item) :
  0 ≤ q →
  Forall (λ i, match i with Product.Quantity v => 0 ≤ v | _ => True end) data →
  0 ≤ quantity_after q data.
Proof.
  intros Hq Hdata. revert q Hq.
  induction Hdata as [|i data Hi _ IH]; intros q Hq; [done|].
  simpl. apply IH. by destruct i.
Qed.

Lemma validated_update_quantity `{Services}
    (body product_in : ProductUpdate.t) :
  ProductUpdate.model_validate body = Some product_in →
  Forall (λ i, match i with Product.Quantity v => 0 ≤ v | _ => True end)
         (ProductUpdate.model_dump product_in).
Proof.
  unfold ProductUpdate.model_validate.
  destruct (_ && _) eqn:E; [|done]. intros [= <-].
  apply andb_true_iff in E as [E _]. apply andb_true_iff in E as [_ Hq].
  unfold ProductUpdate.model_dump. simpl.
  repeat (apply Forall_app; split);
    try (by match goal with
            | |- Forall _ (option_list (_ <$> ?o)) =>
                destruct o; repeat constructor
            end).
  destruct (ProductUpdate.quantity body) as [v|]; repeat constructor.
  simpl in Hq. by apply Z.leb_le.
Qed.

Lemma validated_create_quantity `{Services}
    (body product_in : ProductCreate.t) :
  ProductCreate.model_validate body = Some product_in →
  0 ≤ ProductCreate.quantity product_in.
Proof.
  unfold ProductCreate.model_validate.
  destruct (_ && _) eqn:E; [|done]. intros [= <-]. simpl.
  apply andb_true_iff in E as [E _]. apply andb_true_iff in E as [_ Hq].
  by apply Z.leb_le.
Qed.

Lemma keeps_read_only {A} (m : handler A) : read_only m → keeps_quantities m.
Proof. intros Hm db Hdb. by rewrite Hm. Qed.

Lemma keeps_bind {A B} (P : A → Prop) (m : handler A) (k : A → handler B) :
  (∀ db a db', m db = (Return a, db') → P a) →
  keeps_quantities m → (∀ a, P a → keeps_quantities (k a)) →
  keeps_quantities (m ≫= k).
Proof.
  intros HP Hm Hk db Hdb. unfold mbind, handler_bind.
  specialize (Hm db Hdb). specialize (HP db).
  destruct (m db) as [[a|e] db1]; simpl in *; [|done].
  apply Hk; [by eapply HP|done].
Qed.

Lemma keeps_respond {A} validate_email code (wrap : A → api.content)
    (h : handler A) :
  keeps_quantities h →
  keeps_quantities (api.respond validate_email code wrap h).
Proof.
  intros Hh. unfold api.respond.
  apply (keeps_bind (λ _, True)); [done|done|].
  intros a _. apply keeps_read_only. intros db. by case_match.
Qed.

(** A handler whose final store has the products of the initial one, or
    some of them. *)
Lemma keeps_subset {A} (m : handler A) :
  (∀ db, products (m db).2 ⊆ products db) → keeps_quantities m.
Proof. intros Hm db Hdb p Hp. apply Hdb. by apply Hm. Qed.

Section keeps_facts.
Context `{Services}.

Lemma keeps_register env user_in :
  keeps_quantities (endpoints.auth.register env user_in).
Proof.
  apply keeps_subset. intros db. unfold endpoints.auth.register.
  run_handler. simpl.
  repeat case_match; simplify_eq/=; done.
Qed.

Lemma keeps_update_user_me env user_in current_user :
  keeps_quantities (endpoints.users.update_user_me env user_in current_user).
Proof.
  apply keeps_subset. intros db. unfold endpoints.users.update_user_me.
  run_handler. unfold UserRepository.update. simpl. repeat case_match; simplify_eq/=; done.
Qed.

Lemma keeps_delete_user user_id current_user :
  keeps_quantities (endpoints.users.delete_user user_id current_user).
Proof.
  apply keeps_subset. intros db. rewrite delete_user_run.
  repeat case_match; simpl; try done.
  intros p [_ Hp]%list_elem_of_filter. done.
Qed.

End keeps_facts.

Lemma keeps_create_product env product_in current_user :
  0 ≤ ProductCreate.quantity product_in →
  keeps_quantities
    (endpoints.products.create_product env product_in current_user).
Proof.
  intros Hq db Hdb. unfold endpoints.products.create_product.
  run_handler. simpl.
  repeat case_match; simplify_eq/=; try done.
  intros p [Hp|Hp]%elem_of_app; [by apply Hdb|].
  apply list_elem_of_singleton in Hp as ->. done.
Qed.

Lemma keeps_update_product env product_id product_in current_user :
  Forall (λ i, match i with Product.Quantity v => 0 ≤ v | _ => True end)
         (ProductUpdate.model_dump product_in) →
  keeps_quantities
    (endpoints.products.update_product env product_id product_in current_user).
Proof.
  intros Hin db Hdb. unfold endpoints.products.update_product.
  unfold mbind at 1. unfold handler_bind, query.
  destruct (ProductRepository.get db product_id) as [product|] eqn:Hget;
    [|done].
  assert (Hproduct : 0 ≤ Product.quantity product).
  { apply Hdb. by apply get_Some in Hget as [? _]. }
  assert (Hupdate : quantities_nonneg
            (ProductRepository.update db env product product_in).2).
  { unfold ProductRepository.update, BaseRepository.update.
    destruct (BaseRepository.commit _ _ _ _) as [obj table] eqn:Hc.
    intros p Hp. simpl in Hp.
    change table with (obj, table).2 in Hp. rewrite <- Hc in Hp.
    apply commit_elem in Hp as [Hp| ->]; [by apply Hdb|].
    change (0 ≤ Product.quantity
                  (assigned product (ProductUpdate.model_dump product_in))).
    rewrite quantity_assigned. by apply quantity_after_nonneg. }
  run_handler.
  repeat case_match; simplify_eq/=; try done.
  all: match goal with
       | E : ProductRepository.update _ _ _ _ = _ |- _ =>
           by rewrite E in Hupdate
       end.
Qed.

Lemma keeps_delete_product product_id current_user :
  keeps_quantities (endpoints.products.delete_product product_id current_user).
Proof.
  apply keeps_subset. intros db. unfold endpoints.products.delete_product.
  run_handler. unfold ProductRepository.remove, BaseRepository.remove. simpl.
  repeat case_match; simplify_eq/=; try done.
  all: intros p [_ Hp]%list_elem_of_filter; done.
Qed.

Lemma keeps_update_product_stock env product_id quantity_change current_user :
  keeps_quantities
    (endpoints.products.update_product_stock env product_id quantity_change
       current_user).
Proof.
  intros db Hdb. unfold endpoints.products.update_product_stock.
  unfold mbind, handler_bind, execute, ProductRepository.update_stock.
  destruct (ProductRepository.get db product_id) as [product|] eqn:Hget;
    [|done].
  rewrite clamp_max.
  destruct (BaseRepository.commit _ _ _ _) as [obj table] eqn:Hc. simpl.
  intros p Hp. change table with (obj, table).2 in Hp. rewrite <- Hc in Hp.
  apply commit_elem in Hp as [Hp| ->]; [by apply Hdb|]. simpl. lia.
Qed.

(** Every request leaves every quantity at least zero when it finds them
    so. *)
Lemma quantities_stay_nonneg `{Services} (validate_email : string → option string)
    (env : Env) (authorization : option string) (req : api.request) :
  keeps_quantities (api.handle validate_email env authorization req).
Proof.
  pose proof (read_only_get_current_active_user env authorization) as Huser.
  pose proof (read_only_get_current_active_superuser env authorization) as Hsuper.
  unfold api.handle.
  destruct req;
    try (apply (keeps_bind (λ _, True));
         [done|by apply keeps_read_only|intros current_user _]).
  - apply (keeps_bind (λ _, True));
      [done|apply keeps_read_only, read_only_validated|intros user_in _].
    apply keeps_respond, keeps_register.
  - apply keeps_respond, keeps_read_only. unfold endpoints.auth.login.
    handler_steps.
  - apply keeps_respond, keeps_read_only, read_only_ret.
  - apply (keeps_bind (λ _, True));
      [done|apply keeps_read_only, read_only_validated|intros user_in _].
    apply keeps_respond, keeps_update_user_me.
  - apply keeps_respond, keeps_read_only, read_only_attempt.
  - apply keeps_respond, keeps_read_only. unfold endpoints.users.read_user_by_id.
    handler_steps.
  - apply keeps_respond, keeps_delete_user.
  - apply keeps_respond, keeps_read_only.
    unfold endpoints.products.read_products. handler_steps.
  - apply (keeps_bind (λ product_in, 0 ≤ ProductCreate.quantity product_in)).
    + intros db a db'. unfold api.validated.
      destruct (ProductCreate.model_validate body) eqn:E; [|done].
      intros [= <- _]. by eapply validated_create_quantity.
    + apply keeps_read_only, read_only_validated.
    + intros product_in Hq. by apply keeps_respond, keeps_create_product.
  - apply keeps_respond, keeps_read_only, read_only_query.
  - apply keeps_respond, keeps_read_only, read_only_query.
  - apply keeps_respond, keeps_read_only.
    unfold endpoints.products.get_inventory_value. handler_steps.
  - apply keeps_respond, keeps_read_only.
    unfold endpoints.products.read_product. handler_steps.
  - apply (keeps_bind (λ product_in,
      Forall (λ i, match i with Product.Quantity v => 0 ≤ v | _ => True end)
             (ProductUpdate.model_dump product_in))).
    + intros db a db'. unfold api.validated.
      destruct (ProductUpdate.model_validate body) eqn:E; [|done].
      intros [= <- _]. by eapply validated_update_quantity.
    + apply keeps_read_only, read_only_validated.
    + intros product_in Hq. by apply keeps_respond, keeps_update_product.
  - apply keeps_respond, keeps_delete_product.
  - apply keeps_respond, keeps_update_product_stock.
Qed.

(** * Further properties of the code *)

(** ** Pagination parameters *)

(** X1. [PaginationParams] clamps: the page is at least 1, the size between 1
    and 100, the offset is a whole number of pages and never negative;
    values already in range are kept as they are. *)
Theorem pagination_clamped (page size : Z) (order_by : option string)
    (order_direction : string) :
  let p := PaginationParams.init page size order_by order_direction in
  1 ≤ PaginationParams.page p
  ∧ 1 ≤ PaginationParams.size p ≤ 100
  ∧ PaginationParams.limit p = PaginationParams.size p
  ∧ PaginationParams.skip p
    = (PaginationParams.page p - 1) * PaginationParams.size p
  ∧ 0 ≤ PaginationParams.skip p
  ∧ (1 ≤ page → PaginationParams.page p = page)
  ∧ (page < 1 → PaginationParams.page p = 1 ∧ PaginationParams.skip p = 0)
  ∧ (1 ≤ size ≤ 100 → PaginationParams.size p = size)
  ∧ (size < 1 → PaginationParams.size p = 1)
  ∧ (100 < size → PaginationParams.size p = 100).
Proof. simpl. repeat split; try lia; try nia. Qed.

Lemma page_of_number {A} (k : nat) (size : Z) order_by order_direction
    (l : list A) :
  let p := PaginationParams.init (Z.of_nat (S k)) size order_by order_direction in
  BaseRepository.page (PaginationParams.skip p) (PaginationParams.limit p) l
  = take (Z.to_nat (PaginationParams.size p))
         (drop (k * Z.to_nat (PaginationParams.size p)) l).
Proof.
  simpl. rewrite page_run, decide_True by lia. f_equal. f_equal.
  set (s := Z.min 100 (Z.max 1 size)).
  replace (Z.max 1 (Z.of_nat (S k)) - 1) with (Z.of_nat k) by lia.
  rewrite Z2Nat.inj_mul by lia. by rewrite Nat2Z.id.
Qed.

(** X2. The pages of a listing follow one another without gap or overlap:
    pages 1 to [n], put end to end, are the first [n * size] rows, and
    all the rows once [n * size] reaches their number. *)
Theorem pages_cover {A} (l : list A) (size : Z) (order_by : option string)
    (order_direction : string) (n : nat) :
  let page_number (k : nat) :=
    let p := PaginationParams.init (Z.of_nat k) size order_by order_direction in
    BaseRepository.page (PaginationParams.skip p) (PaginationParams.limit p) l in
  let s := Z.to_nat (Z.min 100 (Z.max 1 size)) in
  mjoin (page_number <$> seq 1 n) = take (n * s) l
  ∧ ((length l ≤ n * s)%nat → mjoin (page_number <$> seq 1 n) = l).
Proof.
  intros page_number s.
  assert (Hcover : mjoin (page_number <$> seq 1 n) = take (n * s) l).
  { induction n as [|n IH]; [done|].
    rewrite seq_S, fmap_app, join_app, IH. simpl. rewrite app_nil_r.
    pose proof (page_of_number n size order_by order_direction l) as Hp.
    cbv zeta in Hp. subst page_number. cbv beta zeta. rewrite Hp.
    change (PaginationParams.size _) with (Z.min 100 (Z.max 1 size)).
    fold s. rewrite take_take_drop. f_equal. lia. }
  split; [done|]. intros Hlen. rewrite Hcover. by apply take_ge.
Qed.

(** ** The access control dependencies *)

Section gate_facts.
Context `{Services}.

Lemma get_current_user_run env authorization db :
  deps.get_current_user env authorization db
  = match resolved env authorization db with
    | Some u => (Return u, db)
    | None =>
        (Raise (mk_HTTPException 401
                  (match authorization with
                   | Some _ => "Could not validate credentials"
                   | None => "Not authenticated"
                   end)), db)
    end.
Proof.
  unfold deps.get_current_user, deps.oauth2_scheme, resolved.
  destruct authorization as [token|]; [|done]. simpl.
  unfold mbind at 1. unfold handler_bind. cbn [mret handler_ret].
  destruct (jwt_decode (now env) token) as [[username|]|]; try done.
  simpl. run_handler.
  by destruct (UserRepository.get_by_username db username).
Qed.


End gate_facts.

(** ** Insertion and removal *)


Lemma first_app_r {A} (P : A → Prop) `{∀ x, Decision (P x)} (l1 l2 : list A) :
  snd <$> list_find P l1 = None →
  snd <$> list_find P (l1 ++ l2) = snd <$> list_find P l2.
Proof.
  induction l1 as [|y l1 IH]; [done|].
  rewrite <- app_comm_cons, !first_cons. case_decide; [done|auto].
Qed.

Lemma first_filter_other {A} (P Q : A → Prop) `{∀ x, Decision (P x)}
    `{∀ x, Decision (Q x)} (l : list A) :
  (∀ x, P x → Q x) →
  snd <$> list_find P (filter Q l) = snd <$> list_find P l.
Proof.
  intros HPQ. induction l as [|y l IH]; [done|].
  rewrite filter_cons. destruct (decide (Q y)) as [Hy|Hy].
  - rewrite !first_cons, IH. done.
  - rewrite first_cons, IH. rewrite decide_False; [done|]. naive_solver.
Qed.

Section removal_facts.
Context `{Model M}.
Implicit Types (table : list M).

Lemma get_filter_other table (id id' : Z) :
  id' ≠ id →
  BaseRepository.get (filter (λ r, model_id r ≠ id) table) id'
  = BaseRepository.get table id'.
Proof.
  intros Hne. unfold BaseRepository.get.
  apply (first_filter_other (λ r, model_id r = id') (λ r, model_id r ≠ id)).
  intros x. congruence.
Qed.

(** X4. [remove] returns the row [get] finds, if any.  After it no row has
    the key, the lookups of the other keys are what they were, no row of
    another key is lost, and removing the key once more does nothing. *)
Theorem remove_then_get table (id : Z) :
  let '(obj, table') := BaseRepository.remove table id in
  obj = BaseRepository.get table id
  ∧ BaseRepository.get table' id = None
  ∧ (∀ id', id' ≠ id →
       BaseRepository.get table' id' = BaseRepository.get table id')
  ∧ (∀ r, r ∈ table' ↔ r ∈ table ∧ model_id r ≠ id)
  ∧ (obj = None → table' = table)
  ∧ BaseRepository.remove table' id = (None, table')
  ∧ BaseRepository.count table' ≤ BaseRepository.count table.
Proof.
  unfold BaseRepository.remove.
  destruct (BaseRepository.get table id) as [obj|] eqn:Hget.
  - pose proof Hget as [_ Hid]%get_Some. rewrite Hid.
    pose proof (get_filter_out table id) as Hout.
    split_and!; try done.
    + intros id' Hne. by apply get_filter_other.
    + intros r. by rewrite list_elem_of_filter, (comm and).
    + by rewrite Hout.
    + unfold BaseRepository.count. pose proof (length_filter (λ r, model_id r ≠ id) table).
      lia.
  - rewrite Hget. split_and!; try done.
    intros r. split; [|by intros [? _]].
    intros Hr. split; [done|]. by apply (proj1 (get_None table id) Hget).
Qed.

End removal_facts.



(** ** Invariants of the store *)

(** X6. No sequence of requests makes a quantity negative: the bodies are
    validated, and a stock adjustment that would go below zero stops at
    zero. *)
Theorem quantities_never_negative `{Services}
    (validate_email : string → option string) (calls : list call) (db : DB) :
  quantities_nonneg db → quantities_nonneg (serve validate_email calls db).
Proof.
  revert db. induction calls as [|c calls IH]; intros db Hdb; [done|].
  simpl. apply IH. by apply quantities_stay_nonneg.
Qed.

Lemma quantities_never_negative_witness :
  quantities_nonneg
    (serve (H := demo.services) sample.validate_email sample.calls example.db).
Proof.
  apply (quantities_never_negative (H := demo.services)).
  intros p Hp. unfold example.db in Hp. simpl in Hp.
  repeat (apply elem_of_cons in Hp as [->|Hp]); try done.
  by apply elem_of_nil in Hp.
Defined.

(** ** The constraints of the tables *)

Lemma NoDup_fmap_snoc {A K} (f : A → K) (l : list A) (x : A) :
  NoDup (f <$> l) → (∀ y, y ∈ l → f y ≠ f x) → NoDup (f <$> (l ++ [x])).
Proof.
  intros Hl Hx. rewrite fmap_app. apply NoDup_app. split_and!; [done| |].
  - intros k (y & -> & Hy)%list_elem_of_fmap Hk. simpl in Hk.
    apply list_elem_of_singleton in Hk. by eapply Hx.
  - apply NoDup_singleton.
Qed.

Lemma NoDup_fmap_filter {A K} (f : A → K) (P : A → Prop)
    `{∀ x, Decision (P x)} (l : list A) :
  NoDup (f <$> l) → NoDup (f <$> filter P l).
Proof.
  induction l as [|x l IH]; [done|].
  rewrite fmap_cons, NoDup_cons. intros [Hx Hl].
  rewrite filter_cons. case_decide; [|auto].
  rewrite fmap_cons. apply NoDup_cons. split; [|auto].
  intros (y & Hy & [_ Hin]%list_elem_of_filter)%list_elem_of_fmap.
  apply Hx. apply list_elem_of_fmap. by exists y.
Qed.

(** Rewriting the row of a key keeps a column free of duplicates when the
    new row has the value of the old one, or one that no row has. *)
Lemma NoDup_fmap_rewrite {A K} (key : A → Z) (f : A → K) (l : list A)
    (old row : A) :
  NoDup (key <$> l) → NoDup (f <$> l) → old ∈ l →
  (f row = f old ∨ ∀ y, y ∈ l → f y ≠ f row) →
  NoDup (f <$> ((λ r, if decide (key r = key old) then row else r) <$> l)).
Proof.
  intros Hkey Hf Hold Hrow.
  induction l as [|x l IH]; [done|].
  rewrite !fmap_cons in *.
  apply NoDup_cons in Hkey as [Hkx Hkey]. apply NoDup_cons in Hf as [Hfx Hf].
  case_decide as Hx.
  - assert (old = x) as ->.
    { apply elem_of_cons in Hold as [?|Hold]; [done|].
      exfalso. apply Hkx. rewrite Hx. apply list_elem_of_fmap. by exists old. }
    assert (Hsame : (λ r, if decide (key r = key x) then row else r) <$> l = l).
    { rewrite <- (list_fmap_id l) at 2. apply list_fmap_ext.
      intros i y Hy. rewrite decide_False; [done|]. intros E. apply Hkx.
      rewrite <- E. apply list_elem_of_fmap. exists y. split; [done|].
      by eapply list_elem_of_lookup_2. }
    rewrite Hsame. apply NoDup_cons. split; [|done].
    intros (y & Hy & Hin)%list_elem_of_fmap.
    destruct Hrow as [Hrow|Hrow].
    + apply Hfx. rewrite <- Hrow, Hy. apply list_elem_of_fmap. by exists y.
    + apply (Hrow y); [by right|done].
  - assert (Hold' : old ∈ l).
    { apply elem_of_cons in Hold as [->|?]; [done|done]. }
    apply NoDup_cons. split.
    + intros (y' & Hy' & (y & -> & Hin)%list_elem_of_fmap)%list_elem_of_fmap.
      case_decide.
      * destruct Hrow as [Hrow|Hrow].
        -- apply Hfx. rewrite Hy', Hrow. apply list_elem_of_fmap. by exists old.
        -- apply (Hrow x); [by left|done].
      * apply Hfx. rewrite Hy'. apply list_elem_of_fmap. by exists y.
    + apply IH; try done.
      destruct Hrow as [Hrow|Hrow]; [by left|right].
      intros y Hy. apply Hrow. by right.
Qed.

Lemma consistent_add_user (db : DB) (u : User.t) :
  consistent db →
  User.id u = BaseRepository.next_id (users db) →
  UserRepository.get_by_username db (User.username u) = None →
  UserRepository.get_by_email db (User.email u) = None →
  consistent (with_users (users db ++ [u]) db).
Proof.
  intros (Hid & Hname & Hemail & Hpid & Hsku & Hfk) Hu Hn He.
  unfold consistent; simpl. split_and!; try done.
  - apply NoDup_fmap_snoc; [done|]. intros y Hy.
    pose proof (next_id_fresh (users db) y Hy) as Hlt.
    change (model_id y) with (User.id y) in Hlt. lia.
  - apply NoDup_fmap_snoc; [done|]. intros y Hy.
    exact (proj1 (first_None _ _) Hn y Hy).
  - apply NoDup_fmap_snoc; [done|]. intros y Hy.
    exact (proj1 (first_None _ _) He y Hy).
  - intros p Hp. destruct (Hfk p Hp) as (v & Hv & Hvid).
    exists v. split; [|done]. apply elem_of_app. by left.
Qed.

Lemma consistent_add_product (db : DB) (p : Product.t) (u : User.t) :
  consistent db →
  Product.id p = BaseRepository.next_id (products db) →
  ProductRepository.get_by_sku db (Product.sku p) = None →
  u ∈ users db → User.id u = Product.user_id p →
  consistent (with_products (products db ++ [p]) db).
Proof.
  intros (Hid & Hname & Hemail & Hpid & Hsku & Hfk) Hp Hs Hu Huid.
  unfold consistent; simpl. split_and!; try done.
  - apply NoDup_fmap_snoc; [done|]. intros y Hy.
    pose proof (next_id_fresh (products db) y Hy) as Hlt.
    change (model_id y) with (Product.id y) in Hlt. lia.
  - apply NoDup_fmap_snoc; [done|]. intros y Hy.
    exact (proj1 (first_None _ _) Hs y Hy).
  - intros q [Hq|Hq]%elem_of_app; [by apply Hfk|].
    apply list_elem_of_singleton in Hq as ->. by exists u.
Qed.

Lemma consistent_without_user (id : Z) (db : DB) :
  consistent db → consistent (without_user id db).
Proof.
  intros (Hid & Hname & Hemail & Hpid & Hsku & Hfk).
  unfold consistent, without_user; simpl.
  split_and!; try by apply NoDup_fmap_filter.
  intros p [Hown Hp]%list_elem_of_filter.
  destruct (Hfk p Hp) as (v & Hv & Hvid).
  exists v. split; [|done]. apply list_elem_of_filter. split; [|done].
  simpl. congruence.
Qed.

Lemma consistent_remove_product (P : Product.t → Prop)
    `{∀ p, Decision (P p)} (db : DB) :
  consistent db → consistent (with_products (filter P (products db)) db).
Proof.
  intros (Hid & Hname & Hemail & Hpid & Hsku & Hfk).
  unfold consistent; simpl.
  split_and!; try done; try by apply NoDup_fmap_filter.
  intros p [_ Hp]%list_elem_of_filter. by apply Hfk.
Qed.

Lemma consistent_rewrite_user (db : DB) (old row : User.t) :
  consistent db → old ∈ users db →
  User.id row = User.id old →
  (User.username row = User.username old
   ∨ UserRepository.get_by_username db (User.username row) = None) →
  (User.email row = User.email old
   ∨ UserRepository.get_by_email db (User.email row) = None) →
  consistent
    (with_users ((λ r, if decide (User.id r = User.id old) then row else r)
                 <$> users db) db).
Proof.
  intros (Hid & Hname & Hemail & Hpid & Hsku & Hfk) Hold Hrid Hn He.
  unfold consistent; simpl. split_and!; try done.
  - apply NoDup_fmap_rewrite; try done. by left.
  - apply NoDup_fmap_rewrite; try done.
    destruct Hn as [Hn|Hn]; [by left|right].
    intros y Hy. exact (proj1 (first_None _ _) Hn y Hy).
  - apply NoDup_fmap_rewrite; try done.
    destruct He as [He|He]; [by left|right].
    intros y Hy. exact (proj1 (first_None _ _) He y Hy).
  - intros p Hp. destruct (Hfk p Hp) as (v & Hv & Hvid).
    destruct (decide (User.id v = User.id old)) as [E|E].
    + exists row. split; [|congruence].
      apply list_elem_of_fmap. exists v. by rewrite decide_True.
    + exists v. split; [|done].
      apply list_elem_of_fmap. exists v. by rewrite decide_False.
Qed.

Lemma consistent_rewrite_product (db : DB) (old row : Product.t) :
  consistent db → old ∈ products db →
  Product.id row = Product.id old →
  Product.user_id row = Product.user_id old →
  (Product.sku row = Product.sku old
   ∨ ProductRepository.get_by_sku db (Product.sku row) = None) →
  consistent
    (with_products
       ((λ r, if decide (Product.id r = Product.id old) then row else r)
        <$> products db) db).
Proof.
  intros (Hid & Hname & Hemail & Hpid & Hsku & Hfk) Hold Hrid Hown Hs.
  unfold consistent; simpl. split_and!; try done.
  - apply NoDup_fmap_rewrite; try done. by left.
  - apply NoDup_fmap_rewrite; try done.
    destruct Hs as [Hs|Hs]; [by left|right].
    intros y Hy. exact (proj1 (first_None _ _) Hs y Hy).
  - intros p (q & -> & Hq)%list_elem_of_fmap. case_decide; [|by apply Hfk].
    rewrite Hown. by apply Hfk.
Qed.

(** Two accounts whose columns compare equal are the same account. *)
Lemma user_same_row (a b : User.t) :
  BaseRepository.same_row a b = true → a = b.
Proof.
  destruct a as [i1 c1 u1 e1 n1 h1 f1 a1 s1], b as [i2 c2 u2 e2 n2 h2 f2 a2 s2].
  unfold BaseRepository.same_row. simpl.
  rewrite !andb_true_iff.
  intros (Hi & Hc & Hu & He & Hn & Hh & Hf & Ha & Hs & _).
  apply Z.eqb_eq in Hi, Hc, Hu. apply String.eqb_eq in He, Hn, Hh.
  assert (f1 = f2) as ->.
  { destruct f1, f2; simpl in Hf; try done. by apply String.eqb_eq in Hf as ->. }
  assert (a1 = a2) as ->.
  { destruct a1 as [[]|], a2 as [[]|]; simpl in Ha; done. }
  assert (s1 = s2) as ->.
  { destruct s1 as [[]|], s2 as [[]|]; simpl in Hs; done. }
  by subst.
Qed.

Section user_update_facts.
Context `{Services}.

Lemma user_update_run (db : DB) (env : Env) (db_obj : User.t)
    (obj_in : UserUpdate.t) :
  let obj := (UserRepository.update db env db_obj obj_in).1 in
  let db' := (UserRepository.update db env db_obj obj_in).2 in
  User.id obj = User.id db_obj
  ∧ User.created_at obj = User.created_at db_obj
  ∧ User.is_superuser obj = User.is_superuser db_obj
  ∧ User.email obj = default (User.email db_obj) (UserUpdate.email obj_in)
  ∧ User.username obj
    = default (User.username db_obj) (UserUpdate.username obj_in)
  ∧ User.full_name obj
    = default (User.full_name db_obj) (UserUpdate.full_name obj_in)
  ∧ User.is_active obj
    = default (User.is_active db_obj) (UserUpdate.is_active obj_in)
  ∧ User.hashed_password obj
    = match UserUpdate.password obj_in with
      | Some password => get_password_hash (salt env) password
      | None => User.hashed_password db_obj
      end
  ∧ (db' = db
     ∨ db' = with_users
               ((λ r, if decide (User.id r = User.id db_obj) then obj else r)
                <$> users db) db).
Proof.
  unfold UserRepository.update, BaseRepository.update, BaseRepository.commit.
  match goal with
  | |- context [foldl ?f db_obj ?d] => set (a := foldl f db_obj d)
  end.
  assert (Ha : User.id a = User.id db_obj
    ∧ User.created_at a = User.created_at db_obj
    ∧ User.is_superuser a = User.is_superuser db_obj
    ∧ User.email a = default (User.email db_obj) (UserUpdate.email obj_in)
    ∧ User.username a
      = default (User.username db_obj) (UserUpdate.username obj_in)
    ∧ User.full_name a
      = default (User.full_name db_obj) (UserUpdate.full_name obj_in)
    ∧ User.is_active a
      = default (User.is_active db_obj) (UserUpdate.is_active obj_in)
    ∧ User.hashed_password a
      = match UserUpdate.password obj_in with
        | Some password => get_password_hash (salt env) password
        | None => User.hashed_password db_obj
        end).
  { subst a. destruct obj_in as [[e|] [u|] [f|] [p|] [ac|]]; done. }
  destruct (BaseRepository.same_row db_obj a) eqn:E.
  - apply user_same_row in E. rewrite <- E in Ha. simpl.
    destruct Ha as (?&?&?&?&?&?&?&?). split_and!; try done. left. by destruct db.
  - simpl. destruct Ha as (?&?&?&?&?&?&?&?). split_and!; try done. by right.
Qed.

End user_update_facts.

Lemma product_assigned_fields (p : Product.t) (obj_in : ProductUpdate.t) :
  let a := assigned p (ProductUpdate.model_dump obj_in) in
  Product.id a = Product.id p
  ∧ Product.user_id a = Product.user_id p
  ∧ Product.created_at a = Product.created_at p
  ∧ Product.sku a = default (Product.sku p) (ProductUpdate.sku obj_in).
Proof.
  destruct obj_in as [[n|] [d|] [s|] [pr|] [q|] [i|] [c|] [m|]]; done.
Qed.

Lemma product_same_row_sku (a b : Product.t) :
  BaseRepository.same_row a b = true → Product.sku a = Product.sku b.
Proof.
  unfold BaseRepository.same_row. simpl. rewrite !andb_true_iff.
  intros (_ & _ & _ & _ & _ & Hs & _). by apply String.eqb_eq in Hs.
Qed.

Lemma product_update_run (db : DB) (env : Env) (db_obj : Product.t)
    (obj_in : ProductUpdate.t) :
  let obj := (ProductRepository.update db env db_obj obj_in).1 in
  let db' := (ProductRepository.update db env db_obj obj_in).2 in
  Product.id obj = Product.id db_obj
  ∧ Product.user_id obj = Product.user_id db_obj
  ∧ Product.created_at obj = Product.created_at db_obj
  ∧ Product.sku obj = default (Product.sku db_obj) (ProductUpdate.sku obj_in)
  ∧ (db' = db
     ∨ db' = with_products
               ((λ r, if decide (Product.id r = Product.id db_obj)
                      then obj else r) <$> products db) db).
Proof.
  pose proof (product_assigned_fields db_obj obj_in) as Ha. cbv zeta in Ha.
  unfold ProductRepository.update, BaseRepository.update, BaseRepository.commit.
  change (foldl _ db_obj _)
    with (assigned db_obj (ProductUpdate.model_dump obj_in)).
  destruct (BaseRepository.same_row db_obj _) eqn:E.
  - apply product_same_row_sku in E. simpl.
    destruct Ha as (?&?&?&Hs). rewrite <- E in Hs.
    split_and!; try done. left. by destruct db.
  - simpl. destruct Ha as (?&?&?&?). split_and!; try done. by right.
Qed.

Lemma preserves_gate (I : DB → Prop) {A B} (P : DB → A → Prop)
    (m : handler A) (k : A → handler B) :
  read_only m →
  (∀ db a, (m db).1 = Return a → P db a) →
  (∀ a db, P db a → I db → I (k a db).2) →
  preserves I (m ≫= k).
Proof.
  intros Hm HP Hk db Hdb. unfold mbind, handler_bind.
  specialize (Hm db). specialize (HP db).
  destruct (m db) as [[a|e] db1]; simpl in *; subst db1; [|done].
  apply Hk; [by apply HP|done].
Qed.

Lemma respond_store {A} validate_email code (wrap : A → api.content)
    (h : handler A) db :
  (api.respond validate_email code wrap h db).2 = (h db).2.
Proof.
  unfold api.respond, mbind, handler_bind.
  destruct (h db) as [[a|e] db1]; [|done]. by case_match.
Qed.

Lemma create_product_run env product_in current_user db :
  endpoints.products.create_product env product_in current_user db
  = match ProductRepository.get_by_sku db (ProductCreate.sku product_in) with
    | Some _ =>
        (Raise (mk_HTTPException 400 "Product with this SKU already exists"),
         db)
    | None =>
        (Return (ProductRepository.create db env product_in
                   (User.id current_user)).1,
         (ProductRepository.create db env product_in (User.id current_user)).2)
    end.
Proof.
  unfold endpoints.products.create_product. run_handler.
  destruct (ProductRepository.get_by_sku db _) as [existing|] eqn:Hsku.
  - rewrite bool_decide_true by eauto. done.
  - rewrite bool_decide_false by (by intros [? ?]). done.
Qed.

Lemma consistent_create_product env product_in current_user db :
  current_user ∈ users db → consistent db →
  consistent
    (endpoints.products.create_product env product_in current_user db).2.
Proof.
  intros Hu Hdb. rewrite create_product_run.
  destruct (ProductRepository.get_by_sku db _) eqn:Hsku; [done|].
  by apply (consistent_add_product db _ current_user).
Qed.

Lemma consistent_update_product env product_id product_in current_user db :
  ProductUpdate.sku product_in ≠ Some "" → consistent db →
  consistent
    (endpoints.products.update_product env product_id product_in
       current_user db).2.
Proof.
  intros Hsku Hdb. unfold endpoints.products.update_product.
  unfold mbind at 1. unfold handler_bind, query.
  destruct (ProductRepository.get db product_id) as [product|] eqn:Hget;
    [|done].
  pose proof Hget as [Hin _]%get_Some.
  pose proof (product_update_run db env product product_in) as Hrun.
  cbv zeta in Hrun. destruct Hrun as (Hid & Hown & _ & Hs & Hdb').
  assert (Hgoal :
    (ProductUpdate.sku product_in = None
     ∨ ProductUpdate.sku product_in = Some (Product.sku product)
     ∨ ∃ s, ProductUpdate.sku product_in = Some s
            ∧ ProductRepository.get_by_sku db s = None) →
    consistent (ProductRepository.update db env product product_in).2).
  { intros Hcase. destruct Hdb' as [->| ->]; [done|].
    apply consistent_rewrite_product; try done.
    rewrite Hs. destruct Hcase as [->|[->|(s & -> & Hfree)]]; simpl; auto. }
  run_handler.
  destruct (endpoints.products.not_permitted product current_user); [done|].
  simpl.
  destruct (ProductUpdate.sku product_in) as [s|] eqn:Es; simpl.
  - destruct (String.eqb_spec s ""); [congruence|]. simpl.
    case_bool_decide as Hne; simpl.
    + destruct (ProductRepository.get_by_sku db s) eqn:Hfree.
      * rewrite bool_decide_true by eauto. done.
      * rewrite bool_decide_false by (by intros [? ?]). simpl.
        destruct (ProductRepository.update db env product product_in) eqn:E.
        simpl in *. apply Hgoal. right. right. by exists s.
    + destruct (ProductRepository.update db env product product_in) eqn:E.
      simpl in *. apply Hgoal. right. left.
      first [done | by apply dec_stable].
  - destruct (ProductRepository.update db env product product_in) eqn:E.
    simpl in *. apply Hgoal. by left.
Qed.

Lemma consistent_delete_product product_id current_user db :
  consistent db →
  consistent (endpoints.products.delete_product product_id current_user db).2.
Proof.
  intros Hdb. unfold endpoints.products.delete_product.
  run_handler. unfold ProductRepository.remove, BaseRepository.remove. simpl.
  repeat case_match; simplify_eq/=; try done.
  all: by apply consistent_remove_product.
Qed.

Lemma consistent_update_product_stock env product_id quantity_change
    current_user db :
  consistent db →
  consistent
    (endpoints.products.update_product_stock env product_id quantity_change
       current_user db).2.
Proof.
  intros Hdb. unfold endpoints.products.update_product_stock.
  unfold mbind, handler_bind, execute, ProductRepository.update_stock.
  destruct (ProductRepository.get db product_id) as [product|] eqn:Hget;
    [|done].
  pose proof Hget as [Hin _]%get_Some.
  unfold BaseRepository.commit.
  destruct (BaseRepository.same_row _ _); simpl.
  - by destruct db.
  - by apply consistent_rewrite_product; auto.
Qed.

Section consistent_facts.
Context `{Services}.

Lemma consistent_register env user_in db :
  consistent db → consistent (endpoints.auth.register env user_in db).2.
Proof.
  intros Hdb.
  destruct (UserRepository.get_by_username db (UserCreate.username user_in))
    eqn:Hu.
  { unfold endpoints.auth.register. run_handler. rewrite Hu.
    rewrite bool_decide_true by eauto. done. }
  destruct (UserRepository.get_by_email db (UserCreate.email user_in)) eqn:He.
  { unfold endpoints.auth.register. run_handler. rewrite Hu.
    rewrite bool_decide_false by (by intros [? ?]). simpl. rewrite He.
    rewrite bool_decide_true by eauto. done. }
  rewrite register_free by done. simpl.
  by apply consistent_add_user.
Qed.

Lemma consistent_update_user_me env user_in current_user db :
  current_user ∈ users db →
  UserUpdate.email user_in ≠ Some "" →
  UserUpdate.username user_in ≠ Some "" →
  consistent db →
  consistent (endpoints.users.update_user_me env user_in current_user db).2.
Proof.
  intros Hin Hemail Hname Hdb.
  pose proof (user_update_run db env current_user user_in) as Hrun.
  cbv zeta in Hrun. destruct Hrun as (Hid & _ & _ & He & Hn & _ & _ & _ & Hdb').
  assert (Hgoal :
    (UserUpdate.email user_in = None
     ∨ UserUpdate.email user_in = Some (User.email current_user)
     ∨ ∃ e, UserUpdate.email user_in = Some e
            ∧ UserRepository.get_by_email db e = None) →
    (UserUpdate.username user_in = None
     ∨ UserUpdate.username user_in = Some (User.username current_user)
     ∨ ∃ n, UserUpdate.username user_in = Some n
            ∧ UserRepository.get_by_username db n = None) →
    consistent (UserRepository.update db env current_user user_in).2).
  { intros Hce Hcn. destruct Hdb' as [->| ->]; [done|].
    apply consistent_rewrite_user; try done.
    - rewrite Hn. destruct Hcn as [->|[->|(n & -> & Hfree)]]; simpl; auto.
    - rewrite He. destruct Hce as [->|[->|(e & -> & Hfree)]]; simpl; auto. }
  assert (Hcase : ∀ (o : option string) (cur : string),
    o ≠ Some "" →
    truthy_str o && bool_decide (o ≠ Some cur) = false →
    o = None ∨ o = Some cur).
  { intros [s|] cur Ho; [|by left]. simpl.
    destruct (String.eqb_spec s ""); [congruence|]. simpl.
    case_bool_decide as Hne; [done|]. intros _. right.
    first [done | by apply dec_stable]. }
  unfold endpoints.users.update_user_me. run_handler.
  destruct (truthy_str (UserUpdate.email user_in) && _) eqn:Ee.
  - destruct (UserUpdate.email user_in) as [e|] eqn:Eemail; [|done]. simpl.
    destruct (UserRepository.get_by_email db e) eqn:Hfe.
    { rewrite bool_decide_true by eauto. done. }
    rewrite bool_decide_false by (by intros [? ?]). simpl.
    destruct (truthy_str (UserUpdate.username user_in) && _) eqn:En.
    + destruct (UserUpdate.username user_in) as [n|] eqn:Ename; [|done]. simpl.
      destruct (UserRepository.get_by_username db n) eqn:Hfn.
      { rewrite bool_decide_true by eauto. done. }
      rewrite bool_decide_false by (by intros [? ?]). simpl.
      destruct (UserRepository.update db env current_user user_in) eqn:E.
      simpl in *. apply Hgoal; right; right; eauto.
    + simpl. destruct (UserRepository.update db env current_user user_in) eqn:E.
      simpl in *. apply Hgoal; [right; right; eauto|].
      destruct (Hcase _ _ Hname En); auto.
  - simpl.
    destruct (truthy_str (UserUpdate.username user_in) && _) eqn:En.
    + destruct (UserUpdate.username user_in) as [n|] eqn:Ename; [|done]. simpl.
      destruct (UserRepository.get_by_username db n) eqn:Hfn.
      { rewrite bool_decide_true by eauto. done. }
      rewrite bool_decide_false by (by intros [? ?]). simpl.
      destruct (UserRepository.update db env current_user user_in) eqn:E.
      simpl in *. apply Hgoal; [|right; right; eauto].
      destruct (Hcase _ _ Hemail Ee); auto.
    + simpl. destruct (UserRepository.update db env current_user user_in) eqn:E.
      simpl in *. apply Hgoal.
      * destruct (Hcase _ _ Hemail Ee); auto.
      * destruct (Hcase _ _ Hname En); auto.
Qed.

Lemma consistent_delete_user user_id current_user db :
  consistent db →
  consistent (endpoints.users.delete_user user_id current_user db).2.
Proof.
  intros Hdb. rewrite delete_user_run.
  repeat case_match; simpl; try done. by apply consistent_without_user.
Qed.

End consistent_facts.

Section gate_runs.
Context `{Services}.

Lemma resolved_elem env authorization db u :
  resolved env authorization db = Some u → u ∈ users db.
Proof.
  unfold resolved. destruct authorization as [token|]; [|done]. simpl.
  destruct (jwt_decode _ _) as [[username|]|]; try done. simpl.
  by intros [? _]%first_Some.
Qed.

Lemma active_user_run env authorization db :
  deps.get_current_active_user env authorization db
  = match resolved env authorization db with
    | Some u =>
        if truthy_bool (User.is_active u) then (Return u, db)
        else (Raise (mk_HTTPException 400 "Inactive user"), db)
    | None => deps.get_current_user env authorization db
    end.
Proof.
  unfold deps.get_current_active_user, mbind, handler_bind.
  rewrite get_current_user_run.
  destruct (resolved env authorization db) as [u|]; [|done].
  by destruct (truthy_bool (User.is_active u)).
Qed.

Lemma active_superuser_run env authorization db :
  deps.get_current_active_superuser env authorization db
  = match resolved env authorization db with
    | Some u =>
        if truthy_bool (User.is_active u) then
          if truthy_bool (User.is_superuser u) then (Return u, db)
          else (Raise (mk_HTTPException 403 "Not enough permissions"), db)
        else (Raise (mk_HTTPException 400 "Inactive user"), db)
    | None => deps.get_current_user env authorization db
    end.
Proof.
  unfold deps.get_current_active_superuser, mbind, handler_bind.
  rewrite active_user_run, get_current_user_run.
  destruct (resolved env authorization db) as [u|]; [|done].
  destruct (truthy_bool (User.is_active u)); [|done].
  by destruct (truthy_bool (User.is_superuser u)).
Qed.

Lemma active_user_elem env authorization db u :
  (deps.get_current_active_user env authorization db).1 = Return u →
  u ∈ users db.
Proof.
  rewrite active_user_run, get_current_user_run.
  destruct (resolved env authorization db) as [v|] eqn:Hv; [|done].
  apply resolved_elem in Hv.
  destruct (truthy_bool (User.is_active v)); [|done]. by intros [= <-].
Qed.

Lemma active_superuser_elem env authorization db u :
  (deps.get_current_active_superuser env authorization db).1 = Return u →
  u ∈ users db.
Proof.
  rewrite active_superuser_run, get_current_user_run.
  destruct (resolved env authorization db) as [v|] eqn:Hv; [|done].
  apply resolved_elem in Hv.
  destruct (truthy_bool (User.is_active v)); [|done].
  destruct (truthy_bool (User.is_superuser v)); [|done]. by intros [= <-].
Qed.

End gate_runs.

Lemma validated_user_update (validate_email : string → option string)
    (body user_in : UserUpdate.t) :
  (∀ s e, validate_email s = Some e → e ≠ "") →
  UserUpdate.model_validate validate_email body = Some user_in →
  UserUpdate.email user_in ≠ Some "" ∧ UserUpdate.username user_in ≠ Some "".
Proof.
  intros Hv. unfold UserUpdate.model_validate.
  destruct (UserUpdate.email body) as [e|] eqn:Ee; simpl.
  - destruct (validate_email e) as [e'|] eqn:Ev; [|done]. simpl.
    destruct (_ && _) eqn:E; [|done]. intros [= <-]. simpl.
    apply andb_true_iff in E as [Hn _]. split.
    + intros [= ->]. by eapply Hv.
    + intros Heq. rewrite Heq in Hn. done.
  - destruct (_ && _) eqn:E; [|done]. intros [= <-]. simpl.
    apply andb_true_iff in E as [Hn _]. split; [done|].
    intros Heq. rewrite Heq in Hn. done.
Qed.

Lemma validated_product_update `{Services}
    (body product_in : ProductUpdate.t) :
  ProductUpdate.model_validate body = Some product_in →
  ProductUpdate.sku product_in ≠ Some "".
Proof.
  unfold ProductUpdate.model_validate.
  destruct (_ && _) eqn:E; [|done]. intros [= <-]. simpl.
  rewrite !andb_true_iff in E. destruct E as ((((_ & Hs) & _) & _) & _).
  intros Heq. rewrite Heq in Hs. done.
Qed.

Lemma handle_consistent `{Services} (validate_email : string → option string)
    (env : Env) (authorization : option string) (req : api.request) :
  (∀ s e, validate_email s = Some e → e ≠ "") →
  preserves consistent (api.handle validate_email env authorization req).
Proof.
  intros Hv.
  pose proof (read_only_get_current_active_user env authorization) as Huser.
  pose proof (read_only_get_current_active_superuser env authorization) as Hsuper.
  assert (Hquiet : ∀ {A} code (wrap : A → api.content) (h : handler A) db,
            read_only h → consistent db →
            consistent (api.respond validate_email code wrap h db).2).
  { intros A code wrap h db Hh Hdb. rewrite respond_store. by rewrite Hh. }
  unfold api.handle.
  destruct req;
    try (apply (preserves_gate consistent (λ db u, u ∈ users db));
         [done
         |first [apply active_user_elem | apply active_superuser_elem]
         |intros current_user db Hin Hdb]).
  - intros db Hdb. unfold api.validated, mbind at 1, handler_bind at 1.
    destruct (UserCreate.model_validate validate_email body); [|done].
    cbn [mret handler_ret]. rewrite respond_store. by apply consistent_register.
  - intros db Hdb. apply Hquiet; [|done]. unfold endpoints.auth.login.
    handler_steps.
  - apply Hquiet; [|done]. apply read_only_ret.
  - unfold api.validated, mbind at 1, handler_bind at 1.
    destruct (UserUpdate.model_validate validate_email body) as [user_in|]
      eqn:Hbody; [|done].
    destruct (validated_user_update _ _ _ Hv Hbody).
    cbn [mret handler_ret]. rewrite respond_store.
    by apply consistent_update_user_me.
  - apply Hquiet; [|done]. apply read_only_attempt.
  - apply Hquiet; [|done]. unfold endpoints.users.read_user_by_id.
    handler_steps.
  - rewrite respond_store. by apply consistent_delete_user.
  - apply Hquiet; [|done]. unfold endpoints.products.read_products.
    handler_steps.
  - unfold api.validated, mbind at 1, handler_bind at 1.
    destruct (ProductCreate.model_validate body) as [product_in|]; [|done].
    cbn [mret handler_ret]. rewrite respond_store.
    by apply consistent_create_product.
  - apply Hquiet; [|done]. apply read_only_query.
  - apply Hquiet; [|done]. apply read_only_query.
  - apply Hquiet; [|done]. unfold endpoints.products.get_inventory_value.
    handler_steps.
  - apply Hquiet; [|done]. unfold endpoints.products.read_product.
    handler_steps.
  - unfold api.validated, mbind at 1, handler_bind at 1.
    destruct (ProductUpdate.model_validate body) as [product_in|] eqn:Hbody;
      [|done].
    pose proof (validated_product_update _ _ Hbody).
    cbn [mret handler_ret]. rewrite respond_store.
    by apply consistent_update_product.
  - rewrite respond_store. by apply consistent_delete_product.
  - rewrite respond_store. by apply consistent_update_product_stock.
Qed.

(** X7. No sequence of requests breaks a constraint the tables declare: the
    primary keys stay distinct, and so do the usernames, the email
    addresses and the SKUs, and every item keeps an owner that exists.
    The handlers test a new username, email or SKU before they store it,
    and an account is deleted together with its items.  The email
    validator is assumed never to return the empty string. *)
Theorem constraints_kept `{Services} (validate_email : string → option string)
    (calls : list call) (db : DB) :
  (∀ s e, validate_email s = Some e → e ≠ "") →
  consistent db →
  consistent (serve validate_email calls db).
Proof.
  intros Hv. revert db. induction calls as [|c calls IH]; intros db Hdb; [done|].
  simpl. apply IH. by apply handle_consistent.
Qed.

Lemma example_consistent : consistent example.db.
Proof.
  unfold consistent. split_and!;
    try (apply (bool_decide_unpack _); by vm_compute).
  intros p Hp. unfold example.db in *. simpl in *.
  repeat (apply elem_of_cons in Hp as [->|Hp]);
    [exists example.alice|exists example.alice|exists example.bob|
     by apply elem_of_nil in Hp];
    (split; [|done]); repeat first [by left | right].
Qed.

Lemma constraints_kept_witness :
  consistent
    (serve (H := demo.services) sample.validate_email sample.calls example.db).
Proof.
  apply (constraints_kept (H := demo.services)).
  - intros s e. unfold sample.validate_email.
    destruct (String.eqb_spec s ""); [done|]. by intros [= <-].
  - exact example_consistent.
Defined.

(** ** Who is served *)










Lemma bind_run {A B} (m : handler A) (k : A → handler B) (db : DB) :
  (m ≫= k) db
  = match m db with
    | (Return a, db') => k a db'
    | (Raise e, db') => (Raise e, db')
    end.
Proof. done. Qed.



(** ** Owners and superuser flags *)

Lemma same_owner_refl db p : p ∈ products db → same_owner db p.
Proof. intros Hp. by exists p. Qed.

Lemma same_flag_refl db u : u ∈ users db → same_flag db u.
Proof. intros Hu. by exists u. Qed.

Lemma same_owner_rewrite db (old row p' : Product.t) :
  old ∈ products db →
  Product.id row = Product.id old → Product.user_id row = Product.user_id old →
  p' ∈ (λ r, if decide (Product.id r = Product.id old) then row else r)
       <$> products db →
  same_owner db p'.
Proof.
  intros Hold Hid Hown (q & -> & Hq)%list_elem_of_fmap.
  case_decide; [by exists old|by exists q].
Qed.

Lemma same_flag_rewrite db (old row u' : User.t) :
  old ∈ users db →
  User.id row = User.id old → User.is_superuser row = User.is_superuser old →
  u' ∈ (λ r, if decide (User.id r = User.id old) then row else r) <$> users db →
  same_flag db u'.
Proof.
  intros Hold Hid Hflag (q & -> & Hq)%list_elem_of_fmap.
  case_decide; [by exists old|by exists q].
Qed.

(** Names the store a handler leaves, to reason on the run once. *)
Ltac name_store :=
  let d := fresh "d" in
  let H := fresh "Hd" in
  intros d;
  match goal with
  | d' := ?t |- _ => assert (H : t = d') by reflexivity; clearbody d'; revert H
  end.

Ltac kept_same :=
  simpl; intros <-;
  first [ by split; [|apply same_owner_refl]
        | by split; [|apply same_flag_refl]
        | by split; [|intros ? ?; left; apply same_flag_refl]
        | by split; [|intros ? ?; left; apply same_owner_refl]
        | by split; [apply same_owner_refl|apply same_flag_refl] ].

Lemma update_product_kept env product_id product_in current_user db :
  let db' := (endpoints.products.update_product env product_id product_in
                current_user db).2 in
  users db' = users db ∧ ∀ p', p' ∈ products db' → same_owner db p'.
Proof.
  name_store.
  unfold endpoints.products.update_product.
  unfold mbind at 1. unfold handler_bind, query.
  destruct (ProductRepository.get db product_id) as [product|] eqn:Hget;
    [|kept_same].
  pose proof Hget as [Hin _]%get_Some.
  pose proof (product_update_run db env product product_in) as Hrun.
  cbv zeta in Hrun. destruct Hrun as (Hid & Hown & _ & _ & Hdb').
  assert (Hgoal :
    users (ProductRepository.update db env product product_in).2 = users db
    ∧ ∀ p', p' ∈ products (ProductRepository.update db env product product_in).2
            → same_owner db p').
  { destruct Hdb' as [->| ->]; [by split; [|apply same_owner_refl]|].
    split; [done|]. intros p' Hp'. by eapply same_owner_rewrite. }
  run_handler.
  repeat case_match; simplify_eq/=; try kept_same.
  all: match goal with
       | E : ProductRepository.update _ _ _ _ = _ |- _ =>
           rewrite E in Hgoal; by intros <-
       end.
Qed.

Lemma delete_product_kept product_id current_user db :
  let db' := (endpoints.products.delete_product product_id current_user db).2 in
  users db' = users db ∧ ∀ p', p' ∈ products db' → same_owner db p'.
Proof.
  name_store.
  unfold endpoints.products.delete_product.
  run_handler. unfold ProductRepository.remove, BaseRepository.remove. simpl.
  repeat case_match; simplify_eq/=; try kept_same.
  all: intros <-; split; [done|].
  all: intros p' [_ Hp']%list_elem_of_filter; by apply same_owner_refl.
Qed.

Lemma update_product_stock_kept env product_id quantity_change current_user db :
  let db' := (endpoints.products.update_product_stock env product_id
                quantity_change current_user db).2 in
  users db' = users db ∧ ∀ p', p' ∈ products db' → same_owner db p'.
Proof.
  name_store.
  unfold endpoints.products.update_product_stock.
  unfold mbind, handler_bind, execute, ProductRepository.update_stock.
  destruct (ProductRepository.get db product_id) as [product|] eqn:Hget;
    [|kept_same].
  pose proof Hget as [Hin _]%get_Some.
  unfold BaseRepository.commit.
  destruct (BaseRepository.same_row _ _); simpl.
  - intros <-. by split; [|apply same_owner_refl].
  - intros <-. split; [done|]. intros p' Hp'. simpl in Hp'.
    eapply (same_owner_rewrite db product); [done| | |exact Hp']; done.
Qed.

Lemma create_product_kept env product_in current_user db :
  let db' := (endpoints.products.create_product env product_in
                current_user db).2 in
  users db' = users db
  ∧ ∀ p', p' ∈ products db' →
          same_owner db p'
          ∨ (Product.user_id p' = User.id current_user
             ∧ Product.id p' = BaseRepository.next_id (products db)).
Proof.
  cbv zeta. rewrite create_product_run.
  destruct (ProductRepository.get_by_sku db _).
  - split; [done|]. intros p' Hp'. left. by apply same_owner_refl.
  - split; [done|]. simpl. intros p' [Hp'|Hp']%elem_of_app.
    + left. by apply same_owner_refl.
    + apply list_elem_of_singleton in Hp' as ->. by right.
Qed.

Section kept_facts.
Context `{Services}.

Lemma register_kept env user_in db :
  let db' := (endpoints.auth.register env user_in db).2 in
  products db' = products db
  ∧ ∀ u', u' ∈ users db' →
          same_flag db u' ∨ User.id u' = BaseRepository.next_id (users db).
Proof.
  name_store.
  unfold endpoints.auth.register. run_handler. simpl.
  repeat case_match; simplify_eq/=; try kept_same.
  intros <-. split; [done|]. intros u' [Hu'|Hu']%elem_of_app.
  - left. by apply same_flag_refl.
  - apply list_elem_of_singleton in Hu' as ->. by right.
Qed.

Lemma update_user_me_kept env user_in current_user db :
  current_user ∈ users db →
  let db' := (endpoints.users.update_user_me env user_in current_user db).2 in
  products db' = products db ∧ ∀ u', u' ∈ users db' → same_flag db u'.
Proof.
  intros Hin. name_store.
  pose proof (user_update_run db env current_user user_in) as Hrun.
  cbv zeta in Hrun. destruct Hrun as (Hid & _ & Hflag & _ & _ & _ & _ & _ & Hdb').
  assert (Hgoal :
    products (UserRepository.update db env current_user user_in).2 = products db
    ∧ ∀ u', u' ∈ users (UserRepository.update db env current_user user_in).2
            → same_flag db u').
  { destruct Hdb' as [->| ->]; [by split; [|apply same_flag_refl]|].
    split; [done|]. intros u' Hu'. by eapply same_flag_rewrite. }
  unfold endpoints.users.update_user_me. run_handler.
  repeat case_match; simplify_eq/=; try kept_same.
  all: match goal with
       | E : UserRepository.update _ _ _ _ = _ |- _ =>
           rewrite E in Hgoal; by intros <-
       end.
Qed.

Lemma delete_user_kept user_id current_user db :
  let db' := (endpoints.users.delete_user user_id current_user db).2 in
  (∀ p', p' ∈ products db' → same_owner db p')
  ∧ ∀ u', u' ∈ users db' → same_flag db u'.
Proof.
  cbv zeta. rewrite delete_user_run.
  repeat case_match; simpl;
    try (by split; [apply same_owner_refl|apply same_flag_refl]).
  split.
  - intros p' [_ Hp']%list_elem_of_filter. by apply same_owner_refl.
  - intros u' [_ Hu']%list_elem_of_filter. by apply same_flag_refl.
Qed.

(** X9. No request changes the owner of an item or the superuser flag of an
    account.  An item of the store a request leaves was an item of the
    store it found, with the same key and owner, unless the request is the
    creation of an item: the new item then belongs to the caller.  An
    account was an account with the same key and flag, unless the request
    is a registration. *)
Theorem owners_and_flags_fixed (validate_email : string → option string)
    (env : Env) (authorization : option string) (req : api.request) (db : DB) :
  let db' := (api.handle validate_email env authorization req db).2 in
  (∀ p', p' ∈ products db' →
     same_owner db p'
     ∨ ∃ body u,
         req = api.POST_products body
         ∧ resolved env authorization db = Some u
         ∧ Product.user_id p' = User.id u
         ∧ Product.id p' = BaseRepository.next_id (products db))
  ∧ (∀ u', u' ∈ users db' →
     same_flag db u'
     ∨ ∃ body,
         req = api.POST_auth_register body
         ∧ User.id u' = BaseRepository.next_id (users db)).
Proof.
  cbv zeta.
  assert (Hsame : ∀ (Q : Product.t → Prop) (R : User.t → Prop) db',
    db' = db →
    (∀ p', p' ∈ products db' → same_owner db p' ∨ Q p')
    ∧ (∀ u', u' ∈ users db' → same_flag db u' ∨ R u')).
  { intros Q R db' ->. split; intros x Hx; left;
      [by apply same_owner_refl|by apply same_flag_refl]. }
  destruct req; unfold api.handle.
  all: rewrite ?(bind_run (deps.get_current_active_user env authorization)),
         ?(bind_run (deps.get_current_active_superuser env authorization)).
  all: rewrite ?active_user_run, ?active_superuser_run, ?get_current_user_run.
  all: try (destruct (resolved env authorization db) as [u|] eqn:Hu;
            [apply resolved_elem in Hu as Hin|by apply Hsame]).
  all: try (destruct (truthy_bool (User.is_active u)); [|by apply Hsame]).
  all: try (destruct (truthy_bool (User.is_superuser u)); [|by apply Hsame]).
  all: try (rewrite bind_run; unfold api.validated;
            match goal with
            | |- context [match ?b with Some _ => _ | None => _ end] =>
                destruct b; [|by apply Hsame]
            end; cbn [mret handler_ret]).
  all: rewrite respond_store.
  - destruct (register_kept env t db) as [Hp Hu]. rewrite Hp. split.
    + intros p' Hp'. left. by apply same_owner_refl.
    + intros u' Hu'. destruct (Hu u' Hu'); [by left|right; by eexists].
  - apply Hsame. unfold endpoints.auth.login. by handler_steps.
  - by apply Hsame.
  - destruct (update_user_me_kept env t u db Hin) as [Hp Hk]. rewrite Hp.
    split; [intros p' Hp'; left; by apply same_owner_refl|].
    intros u' Hu'. left. by apply Hk.
  - apply Hsame. by apply read_only_attempt.
  - apply Hsame. unfold endpoints.users.read_user_by_id. by handler_steps.
  - destruct (delete_user_kept user_id u db) as [Hp Hk].
    split; [intros p' Hp'; left; by apply Hp|].
    intros u' Hu'. left. by apply Hk.
  - apply Hsame. unfold endpoints.products.read_products. by handler_steps.
  - destruct (create_product_kept env t u db) as [Hk Hp]. rewrite Hk.
    split; [|intros u' Hu'; left; by apply same_flag_refl].
    intros p' Hp'. destruct (Hp p' Hp') as [?|[? ?]]; [by left|right].
    by eexists _, _.
  - by apply Hsame.
  - by apply Hsame.
  - apply Hsame. unfold endpoints.products.get_inventory_value.
    by handler_steps.
  - apply Hsame. unfold endpoints.products.read_product. by handler_steps.
  - destruct (update_product_kept env product_id t u db) as [Hk Hp]. rewrite Hk.
    split; [|intros u' Hu'; left; by apply same_flag_refl].
    intros p' Hp'. left. by apply Hp.
  - destruct (delete_product_kept product_id u db) as [Hk Hp]. rewrite Hk.
    split; [|intros u' Hu'; left; by apply same_flag_refl].
    intros p' Hp'. left. by apply Hp.
  - destruct (update_product_stock_kept env product_id quantity_change u db)
      as [Hk Hp]. rewrite Hk.
    split; [|intros u' Hu'; left; by apply same_flag_refl].
    intros p' Hp'. left. by apply Hp.
Qed.

End kept_facts.

(** ** Registration, login and the bearer token *)

Lemma first_NoDup {A K} (f : A → K) `{EqDecision K} (l : list A) (u : A) :
  NoDup (f <$> l) → u ∈ l →
  snd <$> list_find (λ x, f x = f u) l = Some u.
Proof.
  induction l as [|x l IH]; [by intros _ ?%elem_of_nil|].
  rewrite fmap_cons, NoDup_cons. intros [Hx Hl] Hu.
  rewrite first_cons. apply elem_of_cons in Hu as [->|Hu].
  - by rewrite decide_True.
  - rewrite decide_False; [by apply IH|].
    intros E. apply Hx. rewrite E. apply list_elem_of_fmap. by exists u.
Qed.

Section session_facts.
Context `{Services}.

(** X10. An account that has just been registered can log in with the
    username and the password of the registration, provided the password
    verifies against the hash that was made of it: the login is answered
    with a token whose subject is the username, or with 400 if the
    registration asked for an inactive account. *)
Theorem register_then_login (env env' : Env) (user_in : UserCreate.t)
    (db db' : DB) (u : User.t) :
  (∀ p, verify_password p (get_password_hash (salt env) p) = true) →
  endpoints.auth.register env user_in db = (Return u, db') →
  endpoints.auth.login env' (UserCreate.username user_in)
    (UserCreate.password user_in) db'
  = if UserCreate.is_active user_in then
      (Return {| Token.access_token :=
                   jwt_encode (UserCreate.username user_in)
                     (now env' + settings.ACCESS_TOKEN_EXPIRE);
                 Token.token_type := "bearer" |}, db')
    else (Raise (mk_HTTPException 400 "Inactive user"), db').
Proof.
  intros Hverify Hreg.
  destruct (UserRepository.get_by_username db (UserCreate.username user_in))
    eqn:Hu.
  { revert Hreg. unfold endpoints.auth.register. run_handler. rewrite Hu.
    by rewrite bool_decide_true by eauto. }
  destruct (UserRepository.get_by_email db (UserCreate.email user_in)) eqn:He.
  { revert Hreg. unfold endpoints.auth.register. run_handler. rewrite Hu.
    rewrite bool_decide_false by (by intros [? ?]). simpl. rewrite He.
    by rewrite bool_decide_true by eauto. }
  rewrite register_free in Hreg by done. injection Hreg as <- <-.
  unfold endpoints.auth.login. run_handler.
  unfold UserRepository.authenticate, UserRepository.create,
    UserRepository.get_by_username in *.
  cbn [users with_users].
  rewrite (first_app_r (λ x, User.username x = UserCreate.username user_in))
    by done.
  rewrite first_cons, decide_True by done. simpl.
  rewrite Hverify. simpl. by destruct (UserCreate.is_active user_in).
Qed.

(** X11. The token of a login opens the session of the account that logged
    in: when the usernames are distinct and the decoder accepts the token
    at the time of the later request, the dependency of the protected
    operations resolves the token to the authenticated account. *)
Theorem login_then_current_user (env env' : Env) (username password : string)
    (db : DB) (token : Token.t) :
  (∀ sub, jwt_decode (now env')
            (jwt_encode sub (now env + settings.ACCESS_TOKEN_EXPIRE))
          = Some (Some sub)) →
  NoDup (User.username <$> users db) →
  (endpoints.auth.login env username password db).1 = Return token →
  ∃ u, UserRepository.authenticate db username password = Some u
       ∧ Token.token_type token = "bearer"
       ∧ deps.get_current_active_user env' (Some (Token.access_token token)) db
         = (Return u, db).
Proof.
  intros Hjwt Hnames. unfold endpoints.auth.login. run_handler.
  destruct (UserRepository.authenticate db username password) as [u|] eqn:Hu;
    [|done].
  destruct (truthy_bool (User.is_active u)) eqn:Hactive; [|done]. simpl.
  intros [= <-]. exists u. split; [done|]. split; [done|].
  rewrite active_user_run. unfold resolved. simpl.
  unfold security.create_access_token. rewrite Hjwt. simpl.
  assert (Hin : u ∈ users db).
  { unfold UserRepository.authenticate in Hu.
    destruct (UserRepository.get_by_username db username) as [v|] eqn:Hv.
    - destruct (verify_password _ _); [|done]. simpl in Hu.
      injection Hu as <-. by apply first_Some in Hv as [? _].
    - destruct (UserRepository.get_by_email db username) as [v|] eqn:Hw;
        [|done].
      destruct (verify_password _ _); [|done]. simpl in Hu.
      injection Hu as <-. by apply first_Some in Hw as [? _]. }
  unfold UserRepository.get_by_username.
  rewrite (first_NoDup User.username (users db) u Hnames Hin).
  by rewrite Hactive.
Qed.

End session_facts.

Lemma register_then_login_witness :
  endpoints.auth.login (H := demo.services) demo.env "mallory" "mallorypassword"
    (with_users
       (users example.db
        ++ [User.new
              {| User.kw_email := "mallory@example.com";
                 User.kw_username := "mallory";
                 User.kw_hashed_password := "s$mallorypassword";
                 User.kw_full_name := None;
                 User.kw_is_active := Some true;
                 User.kw_is_superuser := Some true |} 4 1000])
       example.db)
  = (Return {| Token.access_token := "mallory"; Token.token_type := "bearer" |},
     with_users
       (users example.db
        ++ [User.new
              {| User.kw_email := "mallory@example.com";
                 User.kw_username := "mallory";
                 User.kw_hashed_password := "s$mallorypassword";
                 User.kw_full_name := None;
                 User.kw_is_active := Some true;
                 User.kw_is_superuser := Some true |} 4 1000])
       example.db).
Proof.
  eapply (register_then_login (H := demo.services) demo.env demo.env
           {| UserCreate.email := "mallory@example.com";
              UserCreate.username := "mallory";
              UserCreate.full_name := None;
              UserCreate.is_active := true;
              UserCreate.is_superuser := true;
              UserCreate.password := "mallorypassword" |}
           example.db).
  - intros p. simpl. unfold demo.verify, demo.hash. simpl.
    apply String.eqb_refl.
  - reflexivity.
Defined.

Lemma login_then_current_user_witness :
  ∃ u, UserRepository.authenticate (H := demo.services) example.db
         "bob@example.com" "bobpassword" = Some u
       ∧ Token.token_type (Token.mk "bob" "bearer") = "bearer"
       ∧ deps.get_current_active_user (H := demo.services) demo.env
           (Some "bob") example.db
         = (Return u, example.db).
Proof.
  apply (login_then_current_user (H := demo.services) demo.env demo.env
           "bob@example.com" "bobpassword" example.db
           (Token.mk "bob" "bearer")).
  - done.
  - apply (bool_decide_unpack _). by vm_compute.
  - reflexivity.
Defined.

(** ** The caller's own account *)


(** ** Items: summary, removal, categories *)

(** X13. The inventory summary counts every item, but at most 100 of the
    items that are low on stock: the count is taken from one page of 100.
    The total is the value of all the items, whoever owns them, rounded to
    two places; a user key of zero selects all of them as well. *)
Theorem inventory_summary `{Services} (current_user : User.t) (db : DB) :
  ∃ v,
    endpoints.products.get_inventory_value current_user db = (Return v, db)
    ∧ endpoints.products.total_products v = Z.of_nat (length (products db))
    ∧ endpoints.products.low_stock_count v
      = Z.min 100
          (Z.of_nat (length (filter (λ p, ProductRepository.low_stock_filter p
                                          = true) (products db))))
    ∧ endpoints.products.low_stock_count v
      ≤ endpoints.products.total_products v
    ∧ endpoints.products.total_value v
      = round2 (ProductRepository.get_total_value db None)
    ∧ ProductRepository.get_total_value db (Some 0)
      = ProductRepository.get_total_value db None.
Proof.
  eexists. split; [reflexivity|]. simpl.
  unfold ProductRepository.count, BaseRepository.count,
    ProductRepository.get_low_stock.
  rewrite page_run, decide_True by done. rewrite length_take, drop_0.
  pose proof (length_filter (λ p, ProductRepository.low_stock_filter p = true)
                (products db)).
  split_and!; try done; lia.
Qed.


(** X15. The categories are listed once each, and they are the categories of
    the items that have one.  The listing of a category holds items of
    that category only, and at least one when the category is listed and
    the page starts at the first row. *)
Theorem categories_spec (db : DB) :
  NoDup (ProductRepository.get_categories db)
  ∧ (∀ c, c ∈ ProductRepository.get_categories db
          ↔ ∃ p, p ∈ products db ∧ Product.category p = Some c)
  ∧ (∀ c skip limit p,
       p ∈ ProductRepository.get_by_category db c skip limit →
       p ∈ products db ∧ Product.category p = Some c)
  ∧ (∀ c limit,
       c ∈ ProductRepository.get_categories db → 1 ≤ limit →
       ProductRepository.get_by_category db c 0 limit ≠ []).
Proof.
  unfold ProductRepository.get_categories, ProductRepository.get_by_category.
  assert (Hmem : ∀ c, c ∈ remove_dups (omap Product.category (products db))
                      ↔ ∃ p, p ∈ products db ∧ Product.category p = Some c).
  { intros c. rewrite elem_of_remove_dups, list_elem_of_omap. done. }
  split_and!.
  - apply NoDup_remove_dups.
  - exact Hmem.
  - intros c skip limit p Hp.
    eapply elem_of_sublist in Hp; [|apply page_sublist].
    by apply list_elem_of_filter in Hp as [? ?].
  - intros c limit (p & Hp & Hc)%Hmem Hlimit.
    rewrite page_run, decide_True by lia. rewrite drop_0.
    assert (Hin : p ∈ filter (λ p, Product.category p = Some c) (products db))
      by (by apply list_elem_of_filter).
    destruct (filter _ _) as [|x l]; [by apply elem_of_nil in Hin|].
    destruct (Z.to_nat limit) eqn:E; [lia|]. done.
Qed.

(** ** Seeding the superuser *)

Section seed_facts.
Context `{Services}.
Variable validate_email : string → option string.

(** X16. Seeding is idempotent.  When it succeeds an account named admin
    exists, a second run changes nothing, the accounts that were stored
    are kept in their places and no item is touched.  The account is
    created, active and superuser, with the hash of the seed password,
    only when no account had the name: an account that has it already is
    left as it is, superuser or not. *)
Theorem create_superuser_idempotent (db db' : DB) (env env' : Env) :
  init_db.create_superuser validate_email db env = Some db' →
  is_Some (UserRepository.get_by_username db' "admin")
  ∧ init_db.create_superuser validate_email db' env' = Some db'
  ∧ products db' = products db
  ∧ (∃ new, users db' = users db ++ new)
  ∧ (is_Some (UserRepository.get_by_username db "admin") → db' = db)
  ∧ (UserRepository.get_by_username db "admin" = None →
     ∃ u, UserRepository.get_by_username db' "admin" = Some u
          ∧ users db' = users db ++ [u]
          ∧ User.is_superuser u = Some true
          ∧ User.is_active u = Some true
          ∧ User.hashed_password u
            = get_password_hash (salt env) "admin123456").
Proof.
  unfold init_db.create_superuser.
  destruct (UserRepository.get_by_username db "admin") as [a|] eqn:Ha.
  - intros [= <-]. rewrite Ha. split_and!; try done.
    exists []. by rewrite app_nil_r.
  - unfold UserCreate.model_validate.
    cbn -[UserRepository.get_by_email UserRepository.create
          UserRepository.get_by_username].
    destruct (validate_email "admin@inventory.com") as [e|];
      cbn -[UserRepository.get_by_email UserRepository.create
            UserRepository.get_by_username]; [|done].
    destruct (UserRepository.get_by_email db e); [done|].
    intros [= <-].
    match goal with
    | |- context [with_users (users db ++ [?x]) db] => set (u := x)
    end.
    assert (Hnew : UserRepository.get_by_username
                     (with_users (users db ++ [u]) db) "admin" = Some u).
    { unfold UserRepository.get_by_username in *.
      cbn [users with_users].
      rewrite (first_app_r (λ u, User.username u = "admin")) by done.
      by rewrite first_cons, decide_True. }
    rewrite Hnew. split_and!; try done.
    + by eexists.
    + intros _. eexists. split; [done|]. done.
Qed.

End seed_facts.

Lemma create_superuser_idempotent_witness :
  is_Some (UserRepository.get_by_username
             {| users := [User.new
                            {| User.kw_email := "admin@inventory.com";
                               User.kw_username := "admin";
                               User.kw_hashed_password := "s$admin123456";
                               User.kw_full_name := Some "System Administrator";
                               User.kw_is_active := Some true;
                               User.kw_is_superuser := Some true |} 1 1000];
                products := [] |} "admin")
  ∧ init_db.create_superuser (H := demo.services) demo.validate_email
      {| users := [User.new
                     {| User.kw_email := "admin@inventory.com";
                        User.kw_username := "admin";
                        User.kw_hashed_password := "s$admin123456";
                        User.kw_full_name := Some "System Administrator";
                        User.kw_is_active := Some true;
                        User.kw_is_superuser := Some true |} 1 1000];
         products := [] |} demo.env
    = Some {| users := [User.new
                     {| User.kw_email := "admin@inventory.com";
                        User.kw_username := "admin";
                        User.kw_hashed_password := "s$admin123456";
                        User.kw_full_name := Some "System Administrator";
                        User.kw_is_active := Some true;
                        User.kw_is_superuser := Some true |} 1 1000];
              products := [] |}.
Proof.
  pose proof (create_superuser_idempotent (H := demo.services)
                demo.validate_email (mk_DB [] []) _ demo.env demo.env
                eq_refl) as (H1 & H2 & _).
  split; [exact H1|exact H2].
Defined.

(** ** Search *)














(** ** Updating an item *)






(** ** Listings keep the rows *)


(** ** Prices *)




